(** * Birdhouse viewer: motion video capture and motion notification services

    A shallow embedding of [motion_video_capture.py] (module [Capture]) and
    [motion_notification_handler.py] (module [Notify]).

    Both programs are MQTT callbacks that mutate module-level state and talk
    to a MySQL database, the file system, ffmpeg and an HTTP endpoint.  The
    embedding threads an explicit [World] (session table, database tables,
    file system, log of collaborator calls) through every function, and reads
    everything the callback cannot decide by itself (clock readings, whether a
    database connection could be opened, what ffmpeg or the HTTP endpoint
    answered) from an [Env] record, one per delivered message. *)

From Stdlib Require Import ZArith NArith QArith List String Ascii Bool Lia Sorted.
From Stdlib Require Import DecimalString.
From Stdlib.Strings Require Import Byte.
From stdpp Require Import base option list gmap.
Import ListNotations.
Close Scope Q_scope.
Local Open Scope Z_scope.

(** ** Python values *)

Module Py.

(** A Python [str] is a sequence of Unicode code points. *)
Abbreviation str := (list N).
(** A Python [bytes] object. *)
Abbreviation bytes := (list byte).

(** ASCII literals of the source, as [str] and as [bytes]. *)
Definition lit (s : string) : str :=
  (fun a => N_of_ascii a) <$> list_ascii_of_string s.

Definition blit (s : string) : bytes :=
  list_byte_of_string s.

(** [s.split(sep)] for a one-character separator: always at least one part. *)
Fixpoint split_on (sep : N) (s : str) : list str :=
  match s with
  | [] => [[]]
  | c :: s' =>
      if (c =? sep)%N then [] :: split_on sep s'
      else match split_on sep s' with
           | [] => [[c]]
           | p :: ps => (c :: p) :: ps
           end
  end.

Definition slash : N := 47%N.

(** Characters removed by [str.strip()] (the interpreter's whitespace table). *)
Definition isspace (c : N) : bool :=
  ((9 <=? c) && (c <=? 13) || (28 <=? c) && (c <=? 32) || (c =? 133)
   || (c =? 160) || (c =? 5760) || (8192 <=? c) && (c <=? 8202)
   || (c =? 8232) || (c =? 8233) || (c =? 8239) || (c =? 8287)
   || (c =? 12288))%N.

Fixpoint lstrip (s : str) : str :=
  match s with
  | c :: s' => if isspace c then lstrip s' else s
  | [] => []
  end.

Definition strip (s : str) : str := rev (lstrip (rev (lstrip s))).

(** [bytes.decode('utf-8')] in strict mode: [None] stands for
    [UnicodeDecodeError].  Well-formed sequences are those of the Unicode
    standard (no overlong forms, no surrogates, nothing above U+10FFFF). *)
Definition cont (b : N) : bool := ((128 <=? b) && (b <=? 191))%N.

Definition between (lo b hi : N) : bool := ((lo <=? b) && (b <=? hi))%N.

Fixpoint decode_points (bs : list N) : option str :=
  match bs with
  | [] => Some []
  | b0 :: r0 =>
      if (b0 <? 128)%N then cons b0 <$> decode_points r0
      else if between 194 b0 223 then
        match r0 with
        | b1 :: r1 =>
            if cont b1
            then cons ((b0 - 192) * 64 + (b1 - 128))%N <$> decode_points r1
            else None
        | _ => None
        end
      else if between 224 b0 239 then
        match r0 with
        | b1 :: b2 :: r2 =>
            let lo := if (b0 =? 224)%N then 160%N else 128%N in
            let hi := if (b0 =? 237)%N then 159%N else 191%N in
            if between lo b1 hi && cont b2
            then cons ((b0 - 224) * 4096 + (b1 - 128) * 64 + (b2 - 128))%N
                   <$> decode_points r2
            else None
        | _ => None
        end
      else if between 240 b0 244 then
        match r0 with
        | b1 :: b2 :: b3 :: r3 =>
            let lo := if (b0 =? 240)%N then 144%N else 128%N in
            let hi := if (b0 =? 244)%N then 143%N else 191%N in
            if between lo b1 hi && cont b2 && cont b3
            then cons ((b0 - 240) * 262144 + (b1 - 128) * 4096
                       + (b2 - 128) * 64 + (b3 - 128))%N
                   <$> decode_points r3
            else None
        | _ => None
        end
      else None
  end.

Definition decode_utf8 (b : bytes) : option str :=
  decode_points (Byte.to_N <$> b).

(** [os.path.join(a, b)] on POSIX. *)
Definition os_path_join (a b : str) : str :=
  match b with
  | c :: _ =>
      if (c =? slash)%N then b
      else match last a with
           | None => b
           | Some z => if (z =? slash)%N then a ++ b else a ++ slash :: b
           end
  | [] =>
      match last a with
      | None => b
      | Some z => if (z =? slash)%N then a ++ b else a ++ slash :: b
      end
  end.

(** [s.startswith(p)] and [sub in s]. *)
Fixpoint startswith (p s : str) : bool :=
  match p, s with
  | [], _ => true
  | a :: p', b :: s' => (a =? b)%N && startswith p' s'
  | _ :: _, [] => false
  end.

Fixpoint contains (sub s : str) : bool :=
  startswith sub s
  || match s with
     | [] => false
     | _ :: s' => contains sub s'
     end.

(** [s.replace(old, new)]: occurrences are found from the left and do not
    overlap.  [replace_from] scans with the number of characters of a
    matched occurrence still to be skipped. *)
Fixpoint replace_from (old new : str) (skip : nat) (s : str) : str :=
  match s with
  | [] => []
  | c :: s' =>
      match skip with
      | S k => replace_from old new k s'
      | O =>
          if startswith old s
          then new ++ replace_from old new (length old - 1) s'
          else c :: replace_from old new 0 s'
      end
  end.

Definition replace (old new s : str) : str :=
  match old with
  | [] => new ++ flat_map (fun c => c :: new) s
  | _ :: _ => replace_from old new 0 s
  end.

(** [s.split(sep, 1)] for a one-character separator: one part when the
    separator does not occur, otherwise the text before and after its first
    occurrence. *)
Fixpoint split_once (sep : N) (s : str) : list str :=
  match s with
  | [] => [[]]
  | c :: s' =>
      if (c =? sep)%N then [[]; s']
      else match split_once sep s' with
           | [] => [[c]]
           | p :: ps => (c :: p) :: ps
           end
  end.

Definition at_sign : N := 64%N.
Definition colon : N := 58%N.

(** [str(n)] of an integer, and [format(i, '04d')] of a count: decimal
    digits, padded with zeros to four places. *)
Definition str_of_int (n : Z) : str :=
  lit (NilZero.string_of_int (Z.to_int n)).

Definition format_04d (i : nat) : str :=
  let digits := lit (NilZero.string_of_uint (Nat.to_uint i)) in
  replicate (4 - length digits) 48%N ++ digits.

End Py.

Import Py.

(** ** motion_video_capture.py *)

Module Capture.

(** *** Configuration *)

Definition VIDEO_DIR : str := lit "/opt/birdhouse-viewer/videos".
Definition MAX_VIDEOS : nat := 50.
Definition VIDEO_DURATION : Z := 5.
Definition FRAME_RATE : Z := 10.

(** *** Database tables *)

(** A row of [devices], with the columns the service selects. *)
Record Device := {
  dev_id : Z;
  dev_userId : Z;
  dev_name : str;
  dev_deviceId : str
}.

Record MotionEvent := {
  me_id : Z;
  me_deviceId : Z;
  me_detectedAt : Z;
  me_notificationSent : Z
}.

Record MotionVideo := {
  mv_id : Z;
  mv_deviceId : Z;
  mv_motionEventId : Z;
  mv_filename : str;
  mv_filepath : str;
  mv_duration : Z;
  mv_filesize : Z;
  mv_capturedAt : Z
}.

(** Tables are kept in insertion order; the two counters are the
    AUTO_INCREMENT values that [cursor.lastrowid] reports. *)
Record Db := {
  devices : list Device;
  motionEvents : list MotionEvent;
  next_event_id : Z;
  motionVideos : list MotionVideo;
  next_video_id : Z
}.

(** *** Sessions *)

(** One value of the [active_captures] dictionary. *)
Record Session := {
  frames : list bytes;
  start_time : Q;
  motion_event_id : Z;
  device_db_id : Z
}.

(** Calls the service makes to its collaborators, and entries into
    [finalize_video] for an open session (with the buffer it found). *)
Inductive Call :=
| CallPublish (topic payload : str)
| CallFinalize (device_id : str) (buffered : list bytes)
| CallEncoder (input : list bytes) (output_path : str)
| CallCleanup (device_db_id : Z).

Record World := {
  active_captures : gmap str Session;
  db : Db;
  fs : gmap str bytes;
  calls : list Call          (* newest first *)
}.

(** What the outside world answers during the handling of one message.
    Timestamps are exact rationals (seconds). *)
Record Env := {
  env_now : Q;                   (* time.time() *)
  env_stamp : str;               (* datetime.now().strftime('%Y%m%d_%H%M%S') *)
  env_db_now : Z;                (* NOW() on the database server *)
  env_db_devices : bool;         (* get_device_info: connection and query succeed *)
  env_db_event : bool;           (* create_motion_event: connection, insert, commit *)
  env_db_save : bool;            (* save_video_to_db: connection, insert, commit *)
  env_db_cleanup : bool;         (* cleanup_old_videos: connection and statements *)
  env_image : option bytes;      (* json.loads + base64.b64decode of a stream
                                    payload: the image bytes, or None when the
                                    function returns early or raises *)
  env_encoder : option bytes;    (* ffmpeg: Some out when it exits with 0 having
                                    written out, None when the encoder fails *)
  env_temp_stamp : Z;            (* int(time.time()) when create_mjpeg_video
                                    names its temporary directory *)
  env_encoder_left : nat -> bool;
                                 (* when create_mjpeg_video returns False: the
                                    file of frame i is in the temporary
                                    directory (every frame, when ffmpeg ran
                                    and exited with an error) *)
  env_encoder_partial : option bytes;
                                 (* when create_mjpeg_video returns False: what
                                    is at the output path, if ffmpeg wrote
                                    there *)
  env_remove_old : str -> bool;  (* cleanup_old_videos: os.remove of the file
                                    at this path succeeds *)
  env_cleanup_reached : nat      (* when cleanup_old_videos fails: for how many
                                    of the selected videos the file removal
                                    had been attempted when a statement
                                    failed (0 when the connection, the count
                                    or the selection fails) *)
}.

Record Msg := {
  topic : str;
  payload : bytes
}.

(** *** State updates *)

Definition with_captures (m : gmap str Session) (w : World) : World :=
  {| active_captures := m; db := db w; fs := fs w; calls := calls w |}.

Definition with_db (d : Db) (w : World) : World :=
  {| active_captures := active_captures w; db := d; fs := fs w; calls := calls w |}.

Definition with_fs (f : gmap str bytes) (w : World) : World :=
  {| active_captures := active_captures w; db := db w; fs := f; calls := calls w |}.

Definition record_call (c : Call) (w : World) : World :=
  {| active_captures := active_captures w; db := db w; fs := fs w;
     calls := c :: calls w |}.

(** *** The functions of the module, in source order *)

(** [SELECT id, userId, name FROM devices WHERE deviceId = %s], [fetchone()]. *)
Definition get_device_info (device_id : str) (e : Env) (w : World) : option Device :=
  if env_db_devices e
  then List.find (fun d => bool_decide (dev_deviceId d = device_id)) (devices (db w))
  else None.

Definition create_motion_event (device_db_id : Z) (e : Env) (w : World)
  : option Z * World :=
  if env_db_event e then
    let d := db w in
    let motion_event_id := next_event_id d in
    let row := {| me_id := motion_event_id; me_deviceId := device_db_id;
                  me_detectedAt := env_db_now e; me_notificationSent := 1 |} in
    (Some motion_event_id,
     with_db {| devices := devices d;
                motionEvents := motionEvents d ++ [row];
                next_event_id := motion_event_id + 1;
                motionVideos := motionVideos d;
                next_video_id := next_video_id d |} w)
  else (None, w).

(** [ORDER BY capturedAt ASC]: rows with equal keys stay in table order. *)
Fixpoint insert_by_capturedAt (v : MotionVideo) (l : list MotionVideo)
  : list MotionVideo :=
  match l with
  | [] => [v]
  | x :: l' =>
      if mv_capturedAt v <=? mv_capturedAt x then v :: l
      else x :: insert_by_capturedAt v l'
  end.

Definition order_by_capturedAt (l : list MotionVideo) : list MotionVideo :=
  foldr insert_by_capturedAt [] l.

Definition videos_of (device_db_id : Z) (d : Db) : list MotionVideo :=
  List.filter (fun v => mv_deviceId v =? device_db_id) (motionVideos d).

(** The inner [try] of the loop: remove the file when it exists; an
    exception of [os.remove] is logged and the file stays. *)
Definition remove_old_file (e : Env) (w : World) (video : MotionVideo) : World :=
  if env_remove_old e (mv_filepath video)
  then with_fs (delete (mv_filepath video) (fs w)) w
  else w.

(** The body of the [for video in old_videos] loop: the file removal, then
    [DELETE FROM motionVideos WHERE id = %s], whether or not the file could
    be removed. *)
Definition delete_video (e : Env) (w : World) (video : MotionVideo) : World :=
  let w1 := remove_old_file e w video in
  let d := db w1 in
  with_db {| devices := devices d;
             motionEvents := motionEvents d;
             next_event_id := next_event_id d;
             motionVideos :=
               List.filter (fun v => negb (mv_id v =? mv_id video)) (motionVideos d);
             next_video_id := next_video_id d |} w1.

(** When a statement fails the [except] clause is reached without a commit:
    no row is deleted, but the files whose removal had been attempted by
    then are gone. *)
Definition cleanup_old_videos (device_db_id : Z) (e : Env) (w : World) : World :=
  let w := record_call (CallCleanup device_db_id) w in
  if env_db_cleanup e then
    let count := length (videos_of device_db_id (db w)) in
    if (MAX_VIDEOS <=? count)%nat then
      let videos_to_delete := (count - MAX_VIDEOS + 1)%nat in
      let old_videos :=
        take videos_to_delete (order_by_capturedAt (videos_of device_db_id (db w))) in
      foldl (delete_video e) w old_videos
    else w
  else
    let count := length (videos_of device_db_id (db w)) in
    if (MAX_VIDEOS <=? count)%nat then
      let videos_to_delete := (count - MAX_VIDEOS + 1)%nat in
      let old_videos :=
        take videos_to_delete (order_by_capturedAt (videos_of device_db_id (db w))) in
      foldl (remove_old_file e) w (take (env_cleanup_reached e) old_videos)
    else w.

Definition save_video_to_db (device_db_id motion_event_id : Z)
    (filename filepath : str) (filesize : Z) (e : Env) (w : World) : bool * World :=
  if env_db_save e then
    let d := db w in
    let row := {| mv_id := next_video_id d; mv_deviceId := device_db_id;
                  mv_motionEventId := motion_event_id; mv_filename := filename;
                  mv_filepath := filepath; mv_duration := VIDEO_DURATION;
                  mv_filesize := filesize; mv_capturedAt := env_db_now e |} in
    (true,
     with_db {| devices := devices d;
                motionEvents := motionEvents d;
                next_event_id := next_event_id d;
                motionVideos := motionVideos d ++ [row];
                next_video_id := next_video_id d + 1 |} w)
  else (false, w).

(** The temporary directory of one encoder run and the file of its
    [i]-th frame. *)
Definition temp_dir (e : Env) : str :=
  VIDEO_DIR ++ lit "/temp_" ++ str_of_int (env_temp_stamp e).

Definition frame_path (dir : str) (i : nat) : str :=
  dir ++ lit "/frame_" ++ format_04d i ++ lit ".jpg".

(** The frame files a run that returns False leaves in its directory. *)
Fixpoint leave_frames (left : nat -> bool) (dir : str) (i : nat)
    (frames : list bytes) (files : gmap str bytes) : gmap str bytes :=
  match frames with
  | [] => files
  | frame_data :: rest =>
      leave_frames left dir (S i) rest
        (if left i then <[frame_path dir i := frame_data]> files else files)
  end.

(** The encoder is opaque.  When the function returns True the output path
    holds what ffmpeg wrote (an existing file is overwritten, [-y]) and the
    frame files it had written to the temporary directory have been removed
    again; the directory, named after the second in which the run starts, is
    taken to hold no file when the run starts.  When the function
    returns False (ffmpeg exits with an error, or an exception is caught)
    the cleanup at the end has not run or not finished: frame files stay
    behind, and the output path holds whatever ffmpeg wrote there. *)
Definition create_mjpeg_video (frames : list bytes) (output_path : str)
    (e : Env) (w : World) : bool * World :=
  let w := record_call (CallEncoder frames output_path) w in
  match env_encoder e with
  | Some out => (true, with_fs (<[output_path := out]> (fs w)) w)
  | None =>
      let files := leave_frames (env_encoder_left e) (temp_dir e) 0 frames (fs w) in
      (false,
       with_fs (match env_encoder_partial e with
                | Some partial => <[output_path := partial]> files
                | None => files
                end) w)
  end.

(** [os.path.getsize]: [None] stands for the OSError of a missing file. *)
Definition os_path_getsize (path : str) (w : World) : option Z :=
  (fun c => Z.of_nat (length c)) <$> fs w !! path.

Definition finalize_video (device_id : str) (e : Env) (w : World) : World :=
  match active_captures w !! device_id with
  | None => w
  | Some capture =>
      let w := record_call (CallFinalize device_id (frames capture)) w in
      if (length (frames capture) <? 5)%nat then
        with_captures (delete device_id (active_captures w)) w
      else
        let filename := device_id ++ lit "_" ++ env_stamp e ++ lit ".mjpeg" in
        let filepath := os_path_join VIDEO_DIR filename in
        let '(encoded, w1) := create_mjpeg_video (frames capture) filepath e w in
        if encoded then
          match os_path_getsize filepath w1 with
          | None => w1   (* the exception leaves finalize_video; the caller logs it *)
          | Some filesize =>
              let '(saved, w2) :=
                save_video_to_db (device_db_id capture) (motion_event_id capture)
                                 filename filepath filesize e w1 in
              let w3 :=
                if saved then cleanup_old_videos (device_db_id capture) e w2
                else with_fs (delete filepath (fs w2)) w2 in
              with_captures (delete device_id (active_captures w3)) w3
          end
        else with_captures (delete device_id (active_captures w1)) w1
  end.

Definition process_stream_message (device_id : str) (message : bytes)
    (e : Env) (w : World) : World :=
  match env_image e with
  | None => w
  | Some image_data =>
      match active_captures w !! device_id with
      | None => w
      | Some capture =>
          let capture' := {| frames := frames capture ++ [image_data];
                             start_time := start_time capture;
                             motion_event_id := motion_event_id capture;
                             device_db_id := device_db_id capture |} in
          let w1 := with_captures (<[device_id := capture']> (active_captures w)) w in
          let elapsed := Qminus (env_now e) (start_time capture) in
          let expected_frames := Z.to_nat (VIDEO_DURATION * FRAME_RATE) in
          if (expected_frames <=? length (frames capture'))%nat
             || Qle_bool (inject_Z (VIDEO_DURATION + 1)) elapsed
          then finalize_video device_id e w1
          else w1
      end
  end.

Definition start_video_capture (device_id : str) (e : Env) (w : World) : World :=
  match get_device_info device_id e w with
  | None => w
  | Some device_info =>
      let '(created, w1) := create_motion_event (dev_id device_info) e w in
      match created with
      | None => w1
      | Some motion_event_id =>
          if motion_event_id =? 0 then w1
          else
            let capture := {| frames := [];
                              start_time := env_now e;
                              motion_event_id := motion_event_id;
                              device_db_id := dev_id device_info |} in
            let w2 := with_captures (<[device_id := capture]> (active_captures w1)) w1 in
            record_call
              (CallPublish (lit "device/" ++ device_id ++ lit "/control") (lit "start"))
              w2
      end
  end.

(** [on_connect]: the topic filters the client subscribes to when the
    broker accepts the connection ([rc == 0]). *)
Definition on_connect (rc : Z) : list str :=
  if rc =? 0 then [lit "device/+/motion"; lit "device/+/stream"] else [].

(** Every exception raised below [on_message] is caught and logged by its
    [except] clause: the message is then dropped where it stands. *)
Definition on_message (msg : Msg) (e : Env) (w : World) : World :=
  let topic_parts := split_on slash (topic msg) in
  if (length topic_parts <? 3)%nat then w
  else
    let device_id := nth 1 topic_parts [] in
    let topic_type := nth 2 topic_parts [] in
    if bool_decide (topic_type = lit "motion") then
      match decode_utf8 (payload msg) with
      | None => w
      | Some text =>
          if bool_decide (strip text = lit "detected")
          then start_video_capture device_id e w
          else w
      end
    else if bool_decide (topic_type = lit "stream") then
      match active_captures w !! device_id with
      | Some _ => process_stream_message device_id (payload msg) e w
      | None => w
      end
    else w.

(** *** The connection parameters *)

(** The keyword arguments [get_db_connection] passes to
    [mysql.connector.connect]. *)
Record ConnectArgs := {
  ca_host : str;
  ca_user : str;
  ca_password : str;
  ca_database : str
}.

Definition DB_HOST : str := lit "localhost".

Section Connection.

(** The environment variables read when the module is loaded, and
    [DATABASE_URL], read on every call. *)
Variables DATABASE_URL DB_USER DB_PASSWORD DB_NAME : str.

(** [get_db_connection] up to the call of [mysql.connector.connect]: the
    arguments of that call, or [None] when an exception (the IndexError of
    [parts[1]]) sends the function to its [except] clause, where it returns
    None.  Whether the call itself succeeds is for the [Env] to say. *)
Definition get_db_connection_args : option ConnectArgs :=
  if negb (bool_decide (DATABASE_URL = [])) && contains (lit "mysql://") DATABASE_URL then
    let parts := split_on at_sign (replace (lit "mysql://") [] DATABASE_URL) in
    let user_pass := split_on colon (nth 0 parts []) in
    match parts !! 1%nat with
    | None => None
    | Some host_part =>
        let host_db := split_on slash host_part in
        let host := nth 0 (split_on colon (nth 0 host_db [])) [] in
        Some {| ca_host := host;
                ca_user := nth 0 user_pass [];
                ca_password := if (1 <? length user_pass)%nat
                               then nth 1 user_pass [] else [];
                ca_database := if (1 <? length host_db)%nat
                               then nth 1 host_db [] else DB_NAME |}
    end
  else
    Some {| ca_host := DB_HOST; ca_user := DB_USER;
            ca_password := DB_PASSWORD; ca_database := DB_NAME |}.

End Connection.

End Capture.

(** ** motion_notification_handler.py *)

Module Notify.

Record User := {
  user_id : Z;
  user_email : str;
  user_name : str
}.

Record Device := {
  dev_id : Z;
  dev_ownerId : Z;
  dev_name : str;
  dev_deviceId : str;
  dev_isActive : Z
}.

(** A row of the join selected by [get_device_info]. *)
Record DeviceInfo := {
  di_id : Z;
  di_ownerId : Z;
  di_name : str;
  di_deviceId : str;
  di_email : str;
  di_userName : str
}.

Record MotionEvent := {
  me_id : Z;
  me_deviceId : Z;
  me_detectedAt : Z;
  me_notificationSent : Z
}.

Record Db := {
  devices : list Device;
  users : list User;
  motionEvents : list MotionEvent;
  next_event_id : Z
}.

(** What [requests.post] did: a response with its status code (and whether
    its body is a JSON object, which the success branch reads), or an
    exception such as a timeout. *)
Inductive Http :=
| HttpResponse (status_code : Z) (body_is_json_object : bool)
| HttpError.

Inductive Call :=
| CallPost (deviceId : Z) (device_name device_id : str).

Record World := {
  db : Db;
  calls : list Call          (* newest first *)
}.

Record Env := {
  env_db_now : Z;                (* NOW() on the database server *)
  env_db_devices : bool;         (* get_device_info: connection and query succeed *)
  env_db_record : bool;          (* record_motion_event: connection, insert, commit *)
  env_db_mark : bool;            (* mark_notification_sent: connection, update, commit *)
  env_json : bool;               (* json.loads(payload) returns *)
  env_http : Http
}.

Record Msg := {
  topic : str;
  payload : bytes
}.

Definition with_events (evs : list MotionEvent) (next : Z) (w : World) : World :=
  {| db := {| devices := devices (db w); users := users (db w);
              motionEvents := evs; next_event_id := next |};
     calls := calls w |}.

Section Configured.

(** The two settings read from the process environment at start-up. *)
Variables NOTIFICATION_API_URL NOTIFICATION_API_KEY : str.

(** [devices d JOIN users u ON d.ownerId = u.id
     WHERE d.deviceId = %s AND d.isActive = 1], [fetchone()]. *)
Definition get_device_info (device_id : str) (e : Env) (w : World)
  : option DeviceInfo :=
  if env_db_devices e then
    head (omap
      (fun d =>
         if bool_decide (dev_deviceId d = device_id) && (dev_isActive d =? 1) then
           (fun u => {| di_id := dev_id d; di_ownerId := dev_ownerId d;
                        di_name := dev_name d; di_deviceId := dev_deviceId d;
                        di_email := user_email u; di_userName := user_name u |})
             <$> List.find (fun u => user_id u =? dev_ownerId d) (users (db w))
         else None)
      (devices (db w)))
  else None.

Definition record_motion_event (device_id : Z) (e : Env) (w : World)
  : option Z * World :=
  if env_db_record e then
    let event_id := next_event_id (db w) in
    let row := {| me_id := event_id; me_deviceId := device_id;
                  me_detectedAt := env_db_now e; me_notificationSent := 0 |} in
    (Some event_id, with_events (motionEvents (db w) ++ [row]) (event_id + 1) w)
  else (None, w).

(** [UPDATE motionEvents SET notificationSent = 1 WHERE id = %s]. *)
Definition mark_notification_sent (event_id : Z) (e : Env) (w : World) : World :=
  if env_db_mark e then
    with_events
      ((fun r => if me_id r =? event_id
                 then {| me_id := me_id r; me_deviceId := me_deviceId r;
                         me_detectedAt := me_detectedAt r; me_notificationSent := 1 |}
                 else r) <$> motionEvents (db w))
      (next_event_id (db w)) w
  else w.

Definition send_push_notification_to_device_users
    (device_db_id : Z) (device_name device_id : str) (e : Env) (w : World)
  : bool * World :=
  match NOTIFICATION_API_URL, NOTIFICATION_API_KEY with
  | [], _ | _, [] => (false, w)
  | _, _ =>
      let w := {| db := db w;
                  calls := CallPost device_db_id device_name device_id :: calls w |} in
      match env_http e with
      | HttpResponse status_code body_ok =>
          if status_code =? 200 then (body_ok, w) else (false, w)
      | HttpError => (false, w)
      end
  end.

(** As in the capture service, the [except] clause of [on_message] turns any
    exception into a dropped message. *)
Definition on_message (msg : Msg) (e : Env) (w : World) : World :=
  match decode_utf8 (payload msg) with
  | None => w
  | Some text =>
      let topic_parts := split_on slash (topic msg) in
      if negb (length topic_parts =? 3)%nat
         || negb (bool_decide (nth 0 topic_parts [] = lit "device"))
         || negb (bool_decide (nth 2 topic_parts [] = lit "motion"))
      then w
      else
        let device_id_str := nth 1 topic_parts [] in
        if negb (env_json e) then w
        else
          match get_device_info device_id_str e w with
          | None => w
          | Some device_info =>
              let '(recorded, w1) := record_motion_event (di_id device_info) e w in
              match recorded with
              | None => w1
              | Some event_id =>
                  if event_id =? 0 then w1
                  else
                    let '(notification_sent, w2) :=
                      send_push_notification_to_device_users
                        (di_id device_info) (di_name device_info)
                        (di_deviceId device_info) e w1 in
                    if notification_sent then mark_notification_sent event_id e w2
                    else w2
              end
          end
  end.

End Configured.

(** *** The connection parameters *)

(** The dictionary [parse_database_url] returns. *)
Record ConnectionConfig := {
  cfg_host : str;
  cfg_port : Z;
  cfg_user : str;
  cfg_password : str;
  cfg_database : str
}.

(** The ValueErrors of [parse_database_url]: its three own, and the one
    [int(port)] raises. *)
Inductive ParseError :=
| InvalidFormat
| MissingCredentials
| MissingDatabase
| InvalidPort.

Section Parsing.

(** [int(s)] of the interpreter: [None] stands for its ValueError. *)
Variable py_int : str → option Z.

Definition parse_database_url (url : str) : ParseError + ConnectionConfig :=
  if negb (startswith (lit "mysql://") url) then inl InvalidFormat
  else
    let url := replace (lit "mysql://") [] url in
    if contains [at_sign] url then
      let credentials := nth 0 (split_once at_sign url) [] in
      let host_part := nth 1 (split_once at_sign url) [] in
      let user :=
        if contains [colon] credentials
        then nth 0 (split_once colon credentials) [] else credentials in
      let password :=
        if contains [colon] credentials
        then nth 1 (split_once colon credentials) [] else [] in
      if contains [slash] host_part then
        let host_port := nth 0 (split_once slash host_part) [] in
        let database := nth 1 (split_once slash host_part) [] in
        let host :=
          if contains [colon] host_port
          then nth 0 (split_once colon host_port) [] else host_port in
        let port :=
          if contains [colon] host_port
          then nth 1 (split_once colon host_port) [] else lit "3306" in
        match py_int port with
        | None => inl InvalidPort
        | Some port_number =>
            inr {| cfg_host := host; cfg_port := port_number; cfg_user := user;
                   cfg_password := password; cfg_database := database |}
        end
      else inl MissingDatabase
    else inl MissingCredentials.

End Parsing.

End Notify.

(** ** Vocabulary of the statements *)

Import Capture.

(** The topic has at least three segments, the second and third of which
    are [device_id] and [kind]. *)
Definition addressed (t device_id kind : str) : Prop :=
  ∃ ns rest, split_on slash t = ns :: device_id :: kind :: rest.

(** How an MQTT broker matches a topic against a subscription filter, level
    by level: "+" stands for exactly one level, "#" for all that remain. *)
Fixpoint levels_match (filter topic : list str) : bool :=
  match filter with
  | [] => match topic with [] => true | _ :: _ => false end
  | f :: filter' =>
      if bool_decide (f = lit "#") then true
      else
        match topic with
        | [] => false
        | t :: topic' =>
            (bool_decide (f = lit "+") || bool_decide (f = t))
            && levels_match filter' topic'
        end
  end.

(** A topic the broker delivers to the capture service once it is
    connected. *)
Definition delivered (t : str) : Prop :=
  ∃ f, f ∈ on_connect 0
       ∧ levels_match (split_on slash f) (split_on slash t) = true.

(** The payload test of the motion branch. *)
Definition says_detected (p : bytes) : bool :=
  bool_decide (strip <$> decode_utf8 p = Some (lit "detected")).

(** Delivery of a sequence of messages, each with the answers of the
    outside world during its handling. *)
Definition run (inputs : list (Msg * Env)) (w : World) : World :=
  foldl (fun w i => on_message (fst i) (snd i) w) w inputs.

Definition is_finalize (c : Call) : bool :=
  match c with CallFinalize _ _ => true | _ => false end.

Definition finalize_calls (w : World) : list Call :=
  List.filter is_finalize (calls w).

(** The name and path [finalize_video] generates for a device at a stamp. *)
Definition artifact_name (device_id stamp : str) : str :=
  device_id ++ lit "_" ++ stamp ++ lit ".mjpeg".

Definition artifact_path (device_id stamp : str) : str :=
  os_path_join VIDEO_DIR (artifact_name device_id stamp).

(** The world in which [finalize_video], entered in [w] for the session
    [capture], has just seen the encoder return successfully with [out]. *)
Definition encoded_world (device_id : str) (capture : Session) (stamp : str)
    (out : bytes) (w : World) : World :=
  {| active_captures := active_captures w;
     db := db w;
     fs := <[artifact_path device_id stamp := out]> (fs w);
     calls := CallEncoder (frames capture) (artifact_path device_id stamp)
              :: CallFinalize device_id (frames capture) :: calls w |}.

Definition is_encoder (c : Call) : bool :=
  match c with CallEncoder _ _ => true | _ => false end.

Definition is_cleanup (c : Call) : bool :=
  match c with CallCleanup _ => true | _ => false end.

Definition is_publish (c : Call) : bool :=
  match c with CallPublish _ _ => true | _ => false end.

(** *** A small installation used to exercise the statements *)

Definition cam1 : str := lit "cam1".

Definition garden : Device :=
  {| dev_id := 7; dev_userId := 1; dev_name := lit "Garden"; dev_deviceId := cam1 |}.

Definition idle : World :=
  {| active_captures := ∅;
     db := {| devices := [garden]; motionEvents := []; next_event_id := 101;
              motionVideos := []; next_video_id := 1 |};
     fs := ∅;
     calls := [] |}.

Definition jpeg : bytes := [xff; xd8; xff; xd9]%byte.
Definition clip : bytes := [x00; x01; x02; x03; x04; x05]%byte.

(** Everything works; the clock reads [t] seconds. *)
Definition at_time (t : Z) (stamp : str) : Env :=
  {| env_now := inject_Z t; env_stamp := stamp; env_db_now := t;
     env_db_devices := true; env_db_event := true; env_db_save := true;
     env_db_cleanup := true; env_image := Some jpeg; env_encoder := Some clip;
     env_temp_stamp := t; env_encoder_left := fun _ => true;
     env_encoder_partial := None; env_remove_old := fun _ => true;
     env_cleanup_reached := 0%nat |}.

Definition noon : str := lit "20240101_120000".

Definition motion_msg (p : string) : Msg :=
  {| topic := lit "device/cam1/motion"; payload := blit p |}.

Definition stream_msg : Msg :=
  {| topic := lit "device/cam1/stream";
     payload := [x7b; x22]%byte ++ blit "image" ++ [x22; x3a; x20; x22]%byte
                ++ blit "/9j/2Q==" ++ [x22; x7d]%byte |}.


(** The session a successful trigger stores. *)
Definition fresh_session (device_info : Device) (e : Env) (w : World) : Session :=
  {| frames := [];
     start_time := env_now e;
     motion_event_id := next_event_id (db w);
     device_db_id := dev_id device_info |}.

(** The motion event a successful trigger inserts. *)
Definition fresh_event (device_info : Device) (e : Env) (w : World) : MotionEvent :=
  {| me_id := next_event_id (db w);
     me_deviceId := dev_id device_info;
     me_detectedAt := env_db_now e;
     me_notificationSent := 1 |}.

Definition start_command (device_id : str) : Call :=
  CallPublish (lit "device/" ++ device_id ++ lit "/control") (lit "start").

(** A session with more frames appended to its buffer. *)
Definition buffer (s : Session) (images : list bytes) : Session :=
  {| frames := frames s ++ images;
     start_time := start_time s;
     motion_event_id := motion_event_id s;
     device_db_id := device_db_id s |}.

(** The completion test of [process_stream_message], on the buffer after
    the append: the target of 50 frames is reached, or at least 6 seconds
    have passed since the session started. *)
Definition completes (buffered : list bytes) (s : Session) (e : Env) : Prop :=
  (50 ≤ length buffered)%nat ∨ (inject_Z 6 <= env_now e - start_time s)%Q.

(** A stream message for [device_id] that carries a decodable image. *)
Definition valid_frame (device_id : str) (i : Msg * Env) : Prop :=
  addressed (topic (fst i)) device_id (lit "stream") ∧ is_Some (env_image (snd i)).

(** The message is handled less than 6 seconds after [s] started. *)
Definition in_time (s : Session) (i : Msg * Env) : Prop :=
  (env_now (snd i) - start_time s < inject_Z 6)%Q.

Definition images (inputs : list (Msg * Env)) : list bytes :=
  omap (fun i => env_image (snd i)) inputs.

(** [cam1] has been triggered at time 0. *)
Definition opened : World := on_message (motion_msg "detected") (at_time 0 noon) idle.

(** ... and has buffered one frame a second later. *)
Definition busy : World := on_message stream_msg (at_time 1 noon) opened.

(** ... and is then triggered again. *)
Definition retriggered : World :=
  on_message (motion_msg "detected") (at_time 2 noon) busy.

(** ... and five frames by the second second. *)
Definition five : World :=
  run (replicate 4 (stream_msg, at_time 2 noon)) busy.

Definition five_session : Session :=
  {| frames := replicate 5 jpeg; start_time := inject_Z 0;
     motion_event_id := 101; device_db_id := 7 |}.

(** The metadata store is unreachable when the artifact is to be saved. *)
Definition save_down : Env :=
  {| env_now := inject_Z 3; env_stamp := noon; env_db_now := 3;
     env_db_devices := true; env_db_event := true; env_db_save := false;
     env_db_cleanup := true; env_image := Some jpeg; env_encoder := Some clip;
     env_temp_stamp := 3; env_encoder_left := fun _ => true;
     env_encoder_partial := None; env_remove_old := fun _ => true;
     env_cleanup_reached := 0%nat |}.

(** The [n]-th capture of [cam1] (n < 60), made in minute [n]: a trigger,
    then fifty frames one second later; every collaborator works. *)
Definition stamp_at (n : nat) : str :=
  lit "20240101_12" ++ [N.of_nat (48 + n / 10); N.of_nat (48 + n mod 10)] ++ lit "00".

Definition capture_at (n : nat) : list (Msg * Env) :=
  (motion_msg "detected", at_time (60 * Z.of_nat n) (stamp_at n))
  :: replicate 50 (stream_msg, at_time (60 * Z.of_nat n + 1) (stamp_at n)).

Definition captures (count : nat) : list (Msg * Env) :=
  concat (capture_at <$> seq 1 count).

(** The installation after that many captures, starting from [idle]. *)
Definition after_captures (count : nat) : World := run (captures count) idle.

(** Rows of [motionVideos] owned by a device, and their number. *)
Definition count_videos (device_db_id : Z) (w : World) : nat :=
  length (videos_of device_db_id (db w)).

(** A row survives the deletion loop over [old] when its id is none of
    theirs. *)
Definition survives (old : list MotionVideo) (v : MotionVideo) : bool :=
  forallb (fun x => negb (mv_id v =? mv_id x)) old.

(** *** The notification handler *)

(** The row [record_motion_event] inserts. *)
Definition unsent_event (device_id : Z) (e : Notify.Env) (w : Notify.World)
  : Notify.MotionEvent :=
  {| Notify.me_id := Notify.next_event_id (Notify.db w);
     Notify.me_deviceId := device_id;
     Notify.me_detectedAt := Notify.env_db_now e;
     Notify.me_notificationSent := 0 |}.

(** The three ways in which no notification is delivered: the API is not
    configured, the endpoint answers with a status other than 200 (or with
    200 and a body the success branch cannot read), or the call raises. *)
Definition notification_fails (url key : str) (e : Notify.Env) : Prop :=
  url = [] ∨ key = [] ∨ Notify.env_http e = Notify.HttpError
  ∨ ∃ status_code body_ok,
      Notify.env_http e = Notify.HttpResponse status_code body_ok
      ∧ (status_code ≠ 200 ∨ body_ok = false).

Definition registry : Notify.World :=
  {| Notify.db :=
       {| Notify.devices :=
            [{| Notify.dev_id := 7; Notify.dev_ownerId := 1;
                Notify.dev_name := lit "Garden"; Notify.dev_deviceId := cam1;
                Notify.dev_isActive := 1 |}];
          Notify.users :=
            [{| Notify.user_id := 1; Notify.user_email := lit "ann@example.org";
                Notify.user_name := lit "Ann" |}];
          Notify.motionEvents := [];
          Notify.next_event_id := 1 |};
     Notify.calls := [] |}.

Definition answering (h : Notify.Http) : Notify.Env :=
  {| Notify.env_db_now := 1000; Notify.env_db_devices := true;
     Notify.env_db_record := true; Notify.env_db_mark := true;
     Notify.env_json := true; Notify.env_http := h |}.

Definition json_motion_msg : Notify.Msg :=
  {| Notify.topic := lit "device/cam1/motion"; Notify.payload := blit "{}" |}.

Definition api_url : str := lit "https://push.example.org/notify".
Definition api_key : str := lit "secret".

(** *** Vocabulary of the further properties *)

(** Primary keys as AUTO_INCREMENT hands them out: unique in each table and
    below the table's counter. *)
Definition keys_ok (d : Db) : Prop :=
  NoDup (mv_id <$> motionVideos d)
  ∧ Forall (fun v => mv_id v < next_video_id d) (motionVideos d)
  ∧ NoDup (me_id <$> motionEvents d)
  ∧ Forall (fun ev => me_id ev < next_event_id d) (motionEvents d).

(** The device a message is routed to: the second segment of its topic. *)
Definition routed_device (msg : Msg) : str :=
  nth 1 (split_on slash (topic msg)) [].

(** A second camera, and an installation that knows both. *)
Definition cam2 : str := lit "cam2".

Definition pond : Device :=
  {| dev_id := 8; dev_userId := 1; dev_name := lit "Pond"; dev_deviceId := cam2 |}.

Definition cam2_motion : Msg :=
  {| topic := lit "device/cam2/motion"; payload := blit "detected" |}.

Definition cam2_stream : Msg :=
  {| topic := lit "device/cam2/stream"; payload := payload stream_msg |}.

Definition idle_pair : World :=
  {| active_captures := ∅;
     db := {| devices := [garden; pond]; motionEvents := []; next_event_id := 101;
              motionVideos := []; next_video_id := 1 |};
     fs := ∅;
     calls := [] |}.

(** Both cameras have been triggered; [cam1] has buffered one frame. *)
Definition both_open : World :=
  run [(motion_msg "detected", at_time 0 noon); (cam2_motion, at_time 0 noon);
       (stream_msg, at_time 1 noon)] idle_pair.

(** The encoder fails. *)
Definition encoder_down : Env :=
  {| env_now := inject_Z 3; env_stamp := noon; env_db_now := 3;
     env_db_devices := true; env_db_event := true; env_db_save := true;
     env_db_cleanup := true; env_image := Some jpeg; env_encoder := None;
     env_temp_stamp := 3; env_encoder_left := fun _ => true;
     env_encoder_partial := None; env_remove_old := fun _ => true;
     env_cleanup_reached := 0%nat |}.

(** The payload of a stream message cannot be parsed into an image. *)
Definition garbled : Env :=
  {| env_now := inject_Z 3; env_stamp := noon; env_db_now := 3;
     env_db_devices := true; env_db_event := true; env_db_save := true;
     env_db_cleanup := true; env_image := None; env_encoder := Some clip;
     env_temp_stamp := 3; env_encoder_left := fun _ => true;
     env_encoder_partial := None; env_remove_old := fun _ => true;
     env_cleanup_reached := 0%nat |}.

(** The files after an encoder run for [capture] that returned False. *)
Definition failed_encoder_files (device_id : str) (capture : Session) (e : Env)
    (w : World) : gmap str bytes :=
  let files := leave_frames (env_encoder_left e) (temp_dir e) 0 (frames capture) (fs w) in
  match env_encoder_partial e with
  | Some partial => <[artifact_path device_id (env_stamp e) := partial]> files
  | None => files
  end.

(** The rows a retention run for a device selects for deletion. *)
Definition evicted (device_db_id : Z) (d : Db) : list MotionVideo :=
  let count := length (videos_of device_db_id d) in
  if (MAX_VIDEOS <=? count)%nat
  then take (count - MAX_VIDEOS + 1) (order_by_capturedAt (videos_of device_db_id d))
  else [].

Definition captured_before (a b : MotionVideo) : Prop :=
  mv_capturedAt a ≤ mv_capturedAt b.

(** The row a commit inserts for session [s] when the encoder wrote [out]. *)
Definition committed_row (device_id : str) (s : Session) (e : Env) (out : bytes)
    (w : World) : MotionVideo :=
  {| mv_id := next_video_id (db w);
     mv_deviceId := device_db_id s;
     mv_motionEventId := motion_event_id s;
     mv_filename := artifact_name device_id (env_stamp e);
     mv_filepath := artifact_path device_id (env_stamp e);
     mv_duration := VIDEO_DURATION;
     mv_filesize := Z.of_nat (length out);
     mv_capturedAt := env_db_now e |}.

(** Everything works, but the retention run cannot reach the database. *)
Definition cleanup_down (t : Z) (stamp : str) : Env :=
  {| env_now := inject_Z t; env_stamp := stamp; env_db_now := t;
     env_db_devices := true; env_db_event := true; env_db_save := true;
     env_db_cleanup := false; env_image := Some jpeg; env_encoder := Some clip;
     env_temp_stamp := t; env_encoder_left := fun _ => true;
     env_encoder_partial := None; env_remove_old := fun _ => true;
     env_cleanup_reached := 0%nat |}.

(** Everything works, but no file of an old video can be removed
    ([os.remove] raises). *)
Definition remove_down (t : Z) (stamp : str) : Env :=
  {| env_now := inject_Z t; env_stamp := stamp; env_db_now := t;
     env_db_devices := true; env_db_event := true; env_db_save := true;
     env_db_cleanup := true; env_image := Some jpeg; env_encoder := Some clip;
     env_temp_stamp := t; env_encoder_left := fun _ => true;
     env_encoder_partial := None; env_remove_old := fun _ => false;
     env_cleanup_reached := 0%nat |}.

(** The retention run loses the database at its first DELETE, after the
    file of the first selected video has been removed. *)
Definition statement_down (t : Z) (stamp : str) : Env :=
  {| env_now := inject_Z t; env_stamp := stamp; env_db_now := t;
     env_db_devices := true; env_db_event := true; env_db_save := true;
     env_db_cleanup := false; env_image := Some jpeg; env_encoder := Some clip;
     env_temp_stamp := t; env_encoder_left := fun _ => true;
     env_encoder_partial := None; env_remove_old := fun _ => true;
     env_cleanup_reached := 1%nat |}.

Definition unpruned_capture_at (n : nat) : list (Msg * Env) :=
  (motion_msg "detected", cleanup_down (60 * Z.of_nat n) (stamp_at n))
  :: replicate 50 (stream_msg, cleanup_down (60 * Z.of_nat n + 1) (stamp_at n)).

(** [cam1] holds 52 videos because retention never reached the database. *)
Definition crowded : World :=
  run (concat (unpruned_capture_at <$> seq 1 52)) idle.

(** The rows of the first and of the fifty-second capture of [cam1]. *)
Definition first_video : MotionVideo :=
  {| mv_id := 1; mv_deviceId := 7; mv_motionEventId := 101;
     mv_filename := artifact_name cam1 (stamp_at 1);
     mv_filepath := artifact_path cam1 (stamp_at 1);
     mv_duration := 5; mv_filesize := 6; mv_capturedAt := 61 |}.

Definition latest_video : MotionVideo :=
  {| mv_id := 52; mv_deviceId := 7; mv_motionEventId := 152;
     mv_filename := artifact_name cam1 (stamp_at 52);
     mv_filepath := artifact_path cam1 (stamp_at 52);
     mv_duration := 5; mv_filesize := 6; mv_capturedAt := 3121 |}.

(** An ASCII whitespace byte: space, tab, newline, carriage return, ... *)
Definition ascii_space (b : byte) : Prop :=
  (Byte.to_N b < 128)%N ∧ isspace (Byte.to_N b) = true.

(** The row [mark_notification_sent] makes of a row with the given id. *)
Definition marked (event_id : Z) (r : Notify.MotionEvent) : Notify.MotionEvent :=
  if Notify.me_id r =? event_id
  then {| Notify.me_id := Notify.me_id r; Notify.me_deviceId := Notify.me_deviceId r;
          Notify.me_detectedAt := Notify.me_detectedAt r;
          Notify.me_notificationSent := 1 |}
  else r.

(** The row of a recorded event whose notification was delivered and marked. *)
Definition sent_event (device_id : Z) (e : Notify.Env) (w : Notify.World)
  : Notify.MotionEvent :=
  {| Notify.me_id := Notify.next_event_id (Notify.db w);
     Notify.me_deviceId := device_id;
     Notify.me_detectedAt := Notify.env_db_now e;
     Notify.me_notificationSent := 1 |}.

(** Event ids as AUTO_INCREMENT hands them out: below the counter. *)
Definition event_keys_ok (d : Notify.Db) : Prop :=
  Forall (fun ev => Notify.me_id ev < Notify.next_event_id d) (Notify.motionEvents d).

(** The row of the join for [cam1] in [registry]. *)
Definition garden_info : Notify.DeviceInfo :=
  {| Notify.di_id := 7; Notify.di_ownerId := 1;
     Notify.di_name := lit "Garden"; Notify.di_deviceId := cam1;
     Notify.di_email := lit "ann@example.org"; Notify.di_userName := lit "Ann" |}.

(** *** Database URLs *)

(** The URL written from its parts, with and without a port. *)
Definition database_url (user password authority database : str) : str :=
  lit "mysql://" ++ user ++ colon :: password ++ at_sign :: authority
  ++ slash :: database.

(** A reading of decimal numerals, to stand for [int] where an instance is
    needed. *)
Definition decimal (s : str) : option Z :=
  match s with
  | [] => None
  | _ =>
      foldl (fun acc c =>
               match acc with
               | Some n => if (48 <=? c)%N && (c <=? 57)%N
                           then Some (10 * n + Z.of_N (c - 48)) else None
               | None => None
               end)
            (Some 0) s
  end.

(** ** Python values: the functions on small inputs *)

Example split_on_topic :
  split_on slash (lit "device/cam1/motion") = [lit "device"; lit "cam1"; lit "motion"].
Proof. reflexivity. Qed.

Example split_on_empty : split_on slash [] = [[]].
Proof. reflexivity. Qed.

Example split_on_keeps_empty_parts :
  split_on slash (lit "a//b/") = [lit "a"; []; lit "b"; []].
Proof. reflexivity. Qed.

Example strip_both_ends :
  strip (lit "  detected	 ") = lit "detected"
  ∧ strip (lit "motion detected") = lit "motion detected".
Proof. split; reflexivity. Qed.

Example decode_utf8_samples :
  decode_utf8 [xc3; xa9]%byte = Some [233%N]
  ∧ decode_utf8 [xe2; x82; xac]%byte = Some [8364%N]
  ∧ decode_utf8 [xf0; x9f; x98; x80]%byte = Some [128512%N]
  ∧ decode_utf8 [xc0; x80]%byte = None
  ∧ decode_utf8 [xed; xa0; x80]%byte = None
  ∧ decode_utf8 [xff]%byte = None.
Proof. repeat split. Qed.

Example os_path_join_samples :
  os_path_join (lit "/opt/v") (lit "a.mjpeg") = lit "/opt/v/a.mjpeg"
  ∧ os_path_join (lit "/opt/v/") (lit "a.mjpeg") = lit "/opt/v/a.mjpeg"
  ∧ os_path_join (lit "/opt/v") (lit "/a.mjpeg") = lit "/a.mjpeg".
Proof. repeat split. Qed.

Lemma split_on_nonempty sep s : split_on sep s ≠ [].
Proof.
  destruct s as [|c s]; [discriminate|]. cbn.
  destruct (c =? sep)%N; [discriminate|]. by destruct (split_on sep s).
Qed.

(** ** The event router *)

Section Router.

Variables (msg : Msg) (e : Env) (w : World).

Lemma addressed_parts device_id kind :
  addressed (topic msg) device_id kind →
  (length (split_on slash (topic msg)) <? 3)%nat = false
  ∧ nth 1 (split_on slash (topic msg)) [] = device_id
  ∧ nth 2 (split_on slash (topic msg)) [] = kind.
Proof.
  intros (ns & rest & ->). repeat split.
Qed.

Lemma on_message_motion device_id :
  addressed (topic msg) device_id (lit "motion") →
  on_message msg e w =
    if says_detected (payload msg) then start_video_capture device_id e w else w.
Proof.
  intros (Hlen & Hdev & Hkind)%addressed_parts.
  unfold on_message, says_detected. rewrite Hlen, Hdev, Hkind.
  rewrite bool_decide_eq_true_2 by reflexivity.
  destruct (decode_utf8 (payload msg)) as [text|]; simpl.
  - destruct (decide (strip text = lit "detected")) as [Heq|Hne].
    + rewrite !bool_decide_eq_true_2; congruence.
    + rewrite !bool_decide_eq_false_2; congruence.
  - reflexivity.
Qed.

Lemma on_message_stream device_id :
  addressed (topic msg) device_id (lit "stream") →
  on_message msg e w =
    match active_captures w !! device_id with
    | Some _ => process_stream_message device_id (payload msg) e w
    | None => w
    end.
Proof.
  intros (Hlen & Hdev & Hkind)%addressed_parts.
  unfold on_message. rewrite Hlen, Hdev, Hkind.
  rewrite bool_decide_eq_false_2 by discriminate.
  rewrite bool_decide_eq_true_2 by reflexivity.
  reflexivity.
Qed.

End Router.

(** ** Triggers *)

Lemma start_video_capture_unknown device_id e w :
  get_device_info device_id e w = None →
  start_video_capture device_id e w = w.
Proof. unfold start_video_capture. intros ->. reflexivity. Qed.

Lemma start_video_capture_no_event device_id e w :
  env_db_event e = false →
  start_video_capture device_id e w = w.
Proof.
  intros He. unfold start_video_capture, create_motion_event.
  destruct (get_device_info device_id e w); [|reflexivity].
  rewrite He. reflexivity.
Qed.

(** C8. A trigger whose device lookup returns nothing, or whose motion event
    cannot be created, changes nothing: the session table, the database, the
    files and the log of collaborator calls (encoder, publish) are those of
    before, both for [start_video_capture] and for the whole callback on any
    motion message for that device. *)
Theorem failed_trigger_leaves_no_state device_id e w :
  get_device_info device_id e w = None ∨ env_db_event e = false →
  start_video_capture device_id e w = w
  ∧ ∀ msg, addressed (topic msg) device_id (lit "motion") → on_message msg e w = w.
Proof.
  intros Hfail.
  assert (Hstart : start_video_capture device_id e w = w).
  { destruct Hfail; [by apply start_video_capture_unknown
                    | by apply start_video_capture_no_event]. }
  split; [exact Hstart|].
  intros msg Hmsg. rewrite (on_message_motion msg e w device_id Hmsg).
  rewrite Hstart. by destruct (says_detected _).
Qed.

Lemma failed_trigger_leaves_no_state_witness :
  (get_device_info (lit "cam9") (at_time 0 noon) busy = None
   ∨ env_db_event (at_time 0 noon) = false)
  ∧ start_video_capture (lit "cam9") (at_time 0 noon) busy = busy.
Proof.
  assert (H : get_device_info (lit "cam9") (at_time 0 noon) busy = None
              ∨ env_db_event (at_time 0 noon) = false)
    by (left; vm_compute; reflexivity).
  split; [exact H|].
  exact (proj1 (failed_trigger_leaves_no_state (lit "cam9") (at_time 0 noon) busy H)).
Defined.

(** ** Finalize and abort *)

Section Finalize.

Variables (device_id : str) (e : Env) (w : World) (capture : Session).
Hypothesis Hopen : active_captures w !! device_id = Some capture.

Lemma finalize_video_abort :
  (length (frames capture) < 5)%nat →
  finalize_video device_id e w =
    {| active_captures := delete device_id (active_captures w);
       db := db w;
       fs := fs w;
       calls := CallFinalize device_id (frames capture) :: calls w |}.
Proof.
  intros Hfew. unfold finalize_video. rewrite Hopen.
  apply Nat.ltb_lt in Hfew. rewrite Hfew. reflexivity.
Qed.

Lemma finalize_video_encoder_failure :
  (5 ≤ length (frames capture))%nat →
  env_encoder e = None →
  finalize_video device_id e w =
    {| active_captures := delete device_id (active_captures w);
       db := db w;
       fs := failed_encoder_files device_id capture e w;
       calls := CallEncoder (frames capture) (artifact_path device_id (env_stamp e))
                :: CallFinalize device_id (frames capture) :: calls w |}.
Proof.
  intros Hmany Henc. unfold finalize_video. rewrite Hopen.
  apply Nat.ltb_ge in Hmany. rewrite Hmany.
  unfold create_mjpeg_video. rewrite Henc. reflexivity.
Qed.

Lemma finalize_video_encoded out :
  (5 ≤ length (frames capture))%nat →
  env_encoder e = Some out →
  finalize_video device_id e w =
    let '(saved, w2) :=
      save_video_to_db (device_db_id capture) (motion_event_id capture)
                       (artifact_name device_id (env_stamp e))
                       (artifact_path device_id (env_stamp e))
                       (Z.of_nat (length out)) e
                       (encoded_world device_id capture (env_stamp e) out w) in
    let w3 := if saved then cleanup_old_videos (device_db_id capture) e w2
              else with_fs (delete (artifact_path device_id (env_stamp e)) (fs w2)) w2 in
    with_captures (delete device_id (active_captures w3)) w3.
Proof.
  intros Hmany Henc. unfold finalize_video. rewrite Hopen.
  apply Nat.ltb_ge in Hmany. rewrite Hmany.
  unfold create_mjpeg_video. rewrite Henc.
  unfold os_path_getsize. cbn [fs with_fs record_call].
  fold (artifact_name device_id (env_stamp e)).
  fold (artifact_path device_id (env_stamp e)).
  rewrite lookup_insert_eq. reflexivity.
Qed.

Lemma finalize_video_rollback out :
  (5 ≤ length (frames capture))%nat →
  env_encoder e = Some out →
  env_db_save e = false →
  finalize_video device_id e w =
    {| active_captures := delete device_id (active_captures w);
       db := db w;
       fs := delete (artifact_path device_id (env_stamp e)) (fs w);
       calls := CallEncoder (frames capture) (artifact_path device_id (env_stamp e))
                :: CallFinalize device_id (frames capture) :: calls w |}.
Proof.
  intros Hmany Henc Hsave. rewrite (finalize_video_encoded out Hmany Henc).
  unfold save_video_to_db. rewrite Hsave.
  unfold with_captures, with_fs, encoded_world. cbn.
  by rewrite delete_insert_eq.
Qed.

(** Whatever branch it takes, [finalize_video] on an open session whose
    encoder answer is consistent closes the session. *)
Lemma finalize_video_closes :
  active_captures (finalize_video device_id e w) !! device_id = None.
Proof.
  destruct (Nat.lt_ge_cases (length (frames capture)) 5) as [Hfew|Hmany].
  - rewrite (finalize_video_abort Hfew). apply lookup_delete_eq.
  - destruct (env_encoder e) as [out|] eqn:Henc.
    + rewrite (finalize_video_encoded out Hmany Henc).
      destruct (save_video_to_db _ _ _ _ _ _ _) as [saved w2].
      apply lookup_delete_eq.
    + rewrite (finalize_video_encoder_failure Hmany Henc). apply lookup_delete_eq.
Qed.

End Finalize.

(** C7. When encoding succeeds and the metadata insert fails, the file that
    was just written is removed again (nothing is left at its path), the
    database is unchanged, the retention enforcer is not called, and the
    session is removed from the table. *)
Theorem metadata_failure_rolls_back device_id e w capture out :
  active_captures w !! device_id = Some capture →
  (5 ≤ length (frames capture))%nat →
  env_encoder e = Some out →
  env_db_save e = false →
  let w' := finalize_video device_id e w in
  let filepath := artifact_path device_id (env_stamp e) in
  fs w' = delete filepath (fs w)
  ∧ fs w' !! filepath = None
  ∧ db w' = db w
  ∧ calls w' = CallEncoder (frames capture) filepath
               :: CallFinalize device_id (frames capture) :: calls w
  ∧ List.filter is_cleanup (calls w') = List.filter is_cleanup (calls w)
  ∧ active_captures w' = delete device_id (active_captures w)
  ∧ active_captures w' !! device_id = None.
Proof.
  intros Hopen Hmany Henc Hsave w' filepath. subst w' filepath.
  rewrite (finalize_video_rollback device_id e w capture Hopen out Hmany Henc Hsave).
  cbn. repeat split; apply lookup_delete_eq.
Qed.

(** C9. On the commit path (encoder succeeded, metadata insert succeeded) the
    row appended to [motionVideos] carries as [filesize] exactly the size
    [os.path.getsize] reports for the file at the row's path in the world in
    which the insert is made; the retention enforcer runs only afterwards. *)
Theorem recorded_size_is_file_size device_id e w capture out :
  active_captures w !! device_id = Some capture →
  (5 ≤ length (frames capture))%nat →
  env_encoder e = Some out →
  env_db_save e = true →
  let w1 := encoded_world device_id capture (env_stamp e) out w in
  ∃ row w2,
    save_video_to_db (device_db_id capture) (motion_event_id capture)
                     (artifact_name device_id (env_stamp e))
                     (artifact_path device_id (env_stamp e))
                     (mv_filesize row) e w1 = (true, w2)
    ∧ motionVideos (db w2) = motionVideos (db w) ++ [row]
    ∧ mv_filepath row = artifact_path device_id (env_stamp e)
    ∧ os_path_getsize (mv_filepath row) w1 = Some (mv_filesize row)
    ∧ os_path_getsize (mv_filepath row) w2 = Some (mv_filesize row)
    ∧ mv_filesize row = Z.of_nat (length out)
    ∧ finalize_video device_id e w =
        let w3 := cleanup_old_videos (device_db_id capture) e w2 in
        with_captures (delete device_id (active_captures w3)) w3.
Proof.
  intros Hopen Hmany Henc Hsave w1. subst w1.
  rewrite (finalize_video_encoded device_id e w capture Hopen out Hmany Henc).
  unfold save_video_to_db. rewrite Hsave.
  exists {| mv_id := next_video_id (db w);
            mv_deviceId := device_db_id capture;
            mv_motionEventId := motion_event_id capture;
            mv_filename := artifact_name device_id (env_stamp e);
            mv_filepath := artifact_path device_id (env_stamp e);
            mv_duration := VIDEO_DURATION;
            mv_filesize := Z.of_nat (length out);
            mv_capturedAt := env_db_now e |}.
  eexists. split; [reflexivity|].
  unfold os_path_getsize, encoded_world. cbn.
  rewrite lookup_insert_eq. repeat split.
Qed.

Lemma metadata_failure_rolls_back_witness :
  fs (finalize_video cam1 save_down five) !! artifact_path cam1 noon = None
  ∧ active_captures (finalize_video cam1 save_down five) !! cam1 = None.
Proof.
  assert (Hopen : active_captures five !! cam1 = Some five_session)
    by (vm_compute; reflexivity).
  assert (Hmany : (5 ≤ length (frames five_session))%nat) by (simpl; lia).
  pose proof (metadata_failure_rolls_back cam1 save_down five five_session clip
                Hopen Hmany eq_refl eq_refl) as H.
  cbv zeta in H. tauto.
Defined.

Lemma recorded_size_is_file_size_witness :
  ∃ row w2,
    motionVideos (db w2) = motionVideos (db five) ++ [row]
    ∧ os_path_getsize (mv_filepath row) w2 = Some (mv_filesize row)
    ∧ mv_filesize row = 6.
Proof.
  assert (Hopen : active_captures five !! cam1 = Some five_session)
    by (vm_compute; reflexivity).
  assert (Hmany : (5 ≤ length (frames five_session))%nat) by (simpl; lia).
  destruct (recorded_size_is_file_size cam1 (at_time 3 noon) five five_session clip
              Hopen Hmany eq_refl eq_refl) as (row & w2 & _ & Hrows & _ & _ & Hsize & Hlen & _).
  exists row, w2. repeat split; assumption.
Defined.

(** ** Triggers, continued *)

Lemma start_video_capture_success device_id e w device_info :
  get_device_info device_id e w = Some device_info →
  env_db_event e = true →
  next_event_id (db w) ≠ 0 →
  start_video_capture device_id e w =
    {| active_captures :=
         <[device_id := fresh_session device_info e w]> (active_captures w);
       db := {| devices := devices (db w);
                motionEvents := motionEvents (db w) ++ [fresh_event device_info e w];
                next_event_id := next_event_id (db w) + 1;
                motionVideos := motionVideos (db w);
                next_video_id := next_video_id (db w) |};
       fs := fs w;
       calls := start_command device_id :: calls w |}.
Proof.
  intros Hdev Hev Hid. unfold start_video_capture, create_motion_event.
  rewrite Hdev, Hev. apply Z.eqb_neq in Hid. rewrite Hid. reflexivity.
Qed.

(** C1 (as the code has it). A trigger that says "detected" for a known
    device, arriving while a session is open for that device, is not
    rejected: when the motion event can be created the open session is
    replaced by a fresh one (empty buffer, new start time, new correlation
    identifier), a further motion event is inserted and the start command is
    published again.  Sessions of other devices are untouched, and the table
    still holds one session for the device. *)
Theorem retrigger_replaces_session msg device_id e w old device_info :
  addressed (topic msg) device_id (lit "motion") →
  says_detected (payload msg) = true →
  active_captures w !! device_id = Some old →
  get_device_info device_id e w = Some device_info →
  env_db_event e = true →
  next_event_id (db w) ≠ 0 →
  let w' := on_message msg e w in
  active_captures w' = <[device_id := fresh_session device_info e w]> (active_captures w)
  ∧ active_captures w' !! device_id = Some (fresh_session device_info e w)
  ∧ motionEvents (db w') = motionEvents (db w) ++ [fresh_event device_info e w]
  ∧ calls w' = start_command device_id :: calls w.
Proof.
  intros Hmsg Hsays _ Hdev Hev Hid w'. subst w'.
  rewrite (on_message_motion msg e w device_id Hmsg), Hsays.
  rewrite (start_video_capture_success device_id e w device_info Hdev Hev Hid).
  cbn. repeat split. apply lookup_insert_eq.
Qed.

Lemma retrigger_replaces_session_witness :
  active_captures (on_message (motion_msg "detected") (at_time 2 noon) busy) !! cam1
  = Some (fresh_session garden (at_time 2 noon) busy).
Proof.
  assert (Hmsg : addressed (topic (motion_msg "detected")) cam1 (lit "motion"))
    by (exists (lit "device"), []; reflexivity).
  assert (Hopen : active_captures busy !! cam1 = Some (buffer (fresh_session garden (at_time 0 noon) idle) [jpeg]))
    by (vm_compute; reflexivity).
  assert (Hid : next_event_id (db busy) ≠ 0) by (vm_compute; discriminate).
  exact (proj1 (proj2 (retrigger_replaces_session (motion_msg "detected") cam1
           (at_time 2 noon) busy _ garden Hmsg eq_refl Hopen eq_refl eq_refl Hid))).
Defined.

(** C1, refuted as stated: [cam1] has an open session holding one frame and
    correlation identifier 101; a second trigger empties the buffer, gives
    the session identifier 102, inserts a second motion event and publishes
    a second start command. *)
Lemma duplicate_trigger_overwrites :
  (frames <$> active_captures busy !! cam1) = Some [jpeg]
  ∧ (motion_event_id <$> active_captures busy !! cam1) = Some 101
  ∧ (frames <$> active_captures retriggered !! cam1) = Some []
  ∧ (motion_event_id <$> active_captures retriggered !! cam1) = Some 102
  ∧ length (motionEvents (db busy)) = 1%nat
  ∧ length (motionEvents (db retriggered)) = 2%nat
  ∧ calls retriggered = start_command cam1 :: calls busy.
Proof. vm_compute. repeat split. Qed.

(** C4 (as the code has it). A message on a device's motion topic is a
    trigger exactly when its payload, decoded as UTF-8 and stripped of
    surrounding whitespace, is the text "detected"; then, for a known device
    whose motion event can be created, a session is started.  Any other
    payload (undecodable bytes included) leaves the world as it was. *)
Theorem trigger_payload_must_say_detected msg device_id e w :
  addressed (topic msg) device_id (lit "motion") →
  (says_detected (payload msg) = false → on_message msg e w = w)
  ∧ (says_detected (payload msg) = true →
     on_message msg e w = start_video_capture device_id e w
     ∧ ∀ device_info,
         get_device_info device_id e w = Some device_info →
         env_db_event e = true →
         next_event_id (db w) ≠ 0 →
         active_captures (on_message msg e w) !! device_id
         = Some (fresh_session device_info e w)).
Proof.
  intros Hmsg. rewrite (on_message_motion msg e w device_id Hmsg).
  split; intros ->; [reflexivity|]. split; [reflexivity|].
  intros device_info Hdev Hev Hid.
  rewrite (start_video_capture_success device_id e w device_info Hdev Hev Hid).
  apply lookup_insert_eq.
Qed.

Lemma trigger_payload_must_say_detected_witness :
  on_message (motion_msg "1") (at_time 0 noon) idle = idle
  ∧ active_captures (on_message (motion_msg " detected ") (at_time 0 noon) idle) !! cam1
    = Some (fresh_session garden (at_time 0 noon) idle).
Proof.
  assert (Hone : addressed (topic (motion_msg "1")) cam1 (lit "motion"))
    by (exists (lit "device"), []; reflexivity).
  assert (Hdet : addressed (topic (motion_msg " detected ")) cam1 (lit "motion"))
    by (exists (lit "device"), []; reflexivity).
  assert (Hid : next_event_id (db idle) ≠ 0) by (vm_compute; discriminate).
  split.
  - exact (proj1 (trigger_payload_must_say_detected (motion_msg "1") cam1
                    (at_time 0 noon) idle Hone) eq_refl).
  - exact (proj2 (proj2 (trigger_payload_must_say_detected (motion_msg " detected ") cam1
                    (at_time 0 noon) idle Hdet) eq_refl) garden eq_refl eq_refl Hid).
Defined.

(** C4, refuted as stated: [cam1] is known and has no open session, yet a
    motion message whose payload is the marker "motion" starts nothing. *)
Lemma other_marker_starts_nothing :
  get_device_info cam1 (at_time 0 noon) idle = Some garden
  ∧ active_captures idle !! cam1 = None
  ∧ on_message (motion_msg "motion") (at_time 0 noon) idle = idle
  ∧ active_captures (on_message (motion_msg "motion") (at_time 0 noon) idle) !! cam1 = None.
Proof. vm_compute. repeat split. Qed.

(** ** Topics *)





(** The guard of [on_message] is the only filter the function itself
    applies.  Ahead of it stands the broker: under the two subscriptions of
    [on_connect] it delivers topics of exactly three segments only, the
    first being "device" and the third "motion" or "stream". *)
Lemma delivered_topics_have_three_segments t :
  delivered t →
  ∃ device_id kind,
    split_on slash t = [lit "device"; device_id; kind]
    ∧ (kind = lit "motion" ∨ kind = lit "stream").
Proof.
  assert (Hshape : ∀ kind parts,
            levels_match [lit "device"; lit "+"; kind] parts = true →
            kind ≠ lit "#" → kind ≠ lit "+" →
            ∃ device_id, parts = [lit "device"; device_id; kind]).
  { intros kind parts Hm Hhash Hplus. cbn [levels_match] in Hm.
    rewrite (bool_decide_eq_false_2 (lit "device" = lit "#")) in Hm by discriminate.
    destruct parts as [|a parts]; [discriminate|].
    rewrite (bool_decide_eq_false_2 (lit "device" = lit "+")) in Hm by discriminate.
    apply andb_true_iff in Hm as [Ha Hm]. cbn [orb] in Ha.
    apply bool_decide_eq_true_1 in Ha as <-.
    rewrite (bool_decide_eq_false_2 (lit "+" = lit "#")) in Hm by discriminate.
    destruct parts as [|b parts]; [discriminate|].
    apply andb_true_iff in Hm as [_ Hm].
    rewrite (bool_decide_eq_false_2 _ Hhash) in Hm.
    destruct parts as [|c parts]; [discriminate|].
    rewrite (bool_decide_eq_false_2 _ Hplus) in Hm.
    apply andb_true_iff in Hm as [Hc Hm]. cbn [orb] in Hc.
    apply bool_decide_eq_true_1 in Hc as <-.
    destruct parts; [|discriminate]. by exists b. }
  intros (f & Hf & Hm). cbn in Hf.
  apply elem_of_cons in Hf as [->|Hf]; [|apply elem_of_cons in Hf as [->|Hf]].
  - destruct (Hshape (lit "motion") _ Hm) as [device_id ->]; [discriminate..|].
    exists device_id, (lit "motion"). split; [reflexivity | by left].
  - destruct (Hshape (lit "stream") _ Hm) as [device_id ->]; [discriminate..|].
    exists device_id, (lit "stream"). split; [reflexivity | by right].
  - by apply elem_of_nil in Hf.
Qed.

(** ** Frame ingestion *)

Lemma buffer_nil s : buffer s [] = s.
Proof. destruct s. unfold buffer. cbn. by rewrite app_nil_r. Qed.

Lemma buffer_buffer s a b : buffer (buffer s a) b = buffer s (a ++ b).
Proof. unfold buffer. cbn. by rewrite app_assoc. Qed.

Lemma remove_old_file_keeps e w v :
  calls (remove_old_file e w v) = calls w
  ∧ active_captures (remove_old_file e w v) = active_captures w
  ∧ db (remove_old_file e w v) = db w.
Proof. unfold remove_old_file. by destruct (env_remove_old e _). Qed.

Lemma foldl_remove_old_file_keeps e l w :
  calls (foldl (remove_old_file e) w l) = calls w
  ∧ active_captures (foldl (remove_old_file e) w l) = active_captures w
  ∧ db (foldl (remove_old_file e) w l) = db w.
Proof.
  revert w. induction l as [|v l IH]; intros w; [done|].
  cbn [foldl]. destruct (IH (remove_old_file e w v)) as (-> & -> & ->).
  apply remove_old_file_keeps.
Qed.

Lemma calls_foldl_delete_video e l w :
  calls (foldl (delete_video e) w l) = calls w
  ∧ active_captures (foldl (delete_video e) w l) = active_captures w.
Proof.
  revert w. induction l as [|v l IH]; intros w; [done|].
  cbn [foldl]. destruct (IH (delete_video e w v)) as [-> ->].
  unfold delete_video. cbn.
  by destruct (remove_old_file_keeps e w v) as (-> & -> & _).
Qed.

Lemma calls_cleanup_old_videos k e w :
  calls (cleanup_old_videos k e w) = CallCleanup k :: calls w.
Proof.
  unfold cleanup_old_videos.
  destruct (env_db_cleanup e); (destruct (MAX_VIDEOS <=? _)%nat; [|reflexivity]).
  - by rewrite (proj1 (calls_foldl_delete_video _ _ _)).
  - by rewrite (proj1 (foldl_remove_old_file_keeps _ _ _)).
Qed.

Section Ingestion.

Variable device_id : str.

Lemma finalize_video_calls e w s :
  active_captures w !! device_id = Some s →
  finalize_calls (finalize_video device_id e w)
  = CallFinalize device_id (frames s) :: finalize_calls w.
Proof.
  intros Hopen. unfold finalize_calls.
  destruct (Nat.lt_ge_cases (length (frames s)) 5) as [Hfew|Hmany].
  { by rewrite (finalize_video_abort device_id e w s Hopen Hfew). }
  destruct (env_encoder e) as [out|] eqn:Henc.
  - destruct (env_db_save e) eqn:Hsave.
    + rewrite (finalize_video_encoded device_id e w s Hopen out Hmany Henc).
      unfold save_video_to_db. rewrite Hsave. cbn [calls with_captures].
      by rewrite calls_cleanup_old_videos.
    + by rewrite (finalize_video_rollback device_id e w s Hopen out Hmany Henc Hsave).
  - by rewrite (finalize_video_encoder_failure device_id e w s Hopen Hmany Henc).
Qed.

Lemma completes_test buffered s e :
  (Z.to_nat (VIDEO_DURATION * FRAME_RATE) <=? length buffered)%nat
  || Qle_bool (inject_Z (VIDEO_DURATION + 1)) (Qminus (env_now e) (start_time s)) = true
  ↔ completes buffered s e.
Proof.
  unfold completes. rewrite orb_true_iff, Nat.leb_le, Qle_bool_iff. reflexivity.
Qed.

Lemma ingest msg e w s image :
  addressed (topic msg) device_id (lit "stream") →
  active_captures w !! device_id = Some s →
  env_image e = Some image →
  (completes (frames s ++ [image]) s e →
   on_message msg e w =
     finalize_video device_id e
       (with_captures (<[device_id := buffer s [image]]> (active_captures w)) w))
  ∧ (¬ completes (frames s ++ [image]) s e →
     on_message msg e w =
       with_captures (<[device_id := buffer s [image]]> (active_captures w)) w).
Proof.
  intros Hmsg Hopen Himg.
  rewrite (on_message_stream msg e w device_id Hmsg), Hopen.
  unfold process_stream_message. rewrite Himg, Hopen. cbn [frames start_time].
  split; intros Hc.
  - apply completes_test in Hc. rewrite Hc. reflexivity.
  - rewrite <- completes_test in Hc. apply not_true_is_false in Hc.
    rewrite Hc. reflexivity.
Qed.

Lemma run_pending inputs : ∀ w s,
  active_captures w !! device_id = Some s →
  Forall (valid_frame device_id) inputs →
  Forall (in_time s) inputs →
  (length (frames s) + length inputs < 50)%nat →
  run inputs w =
    with_captures (<[device_id := buffer s (images inputs)]> (active_captures w)) w.
Proof.
  induction inputs as [|i inputs IH]; intros w s Hopen Hvalid Htime Hlen.
  - cbn. rewrite buffer_nil, insert_id by done. by destruct w.
  - apply Forall_cons in Hvalid as [[Hmsg [image Himg]] Hvalid].
    apply Forall_cons in Htime as [Hnow Htime].
    cbn [run foldl]. fold (run inputs (on_message i.1 i.2 w)).
    assert (Hpending : ¬ completes (frames s ++ [image]) s i.2).
    { intros [Hfull|Hlate].
      - rewrite length_app in Hfull. cbn in Hfull, Hlen. lia.
      - apply (Qlt_not_le _ _ Hnow Hlate). }
    rewrite (proj2 (ingest i.1 i.2 w s image Hmsg Hopen Himg) Hpending).
    rewrite (IH _ (buffer s [image])).
    + cbn [active_captures with_captures]. unfold with_captures. cbn.
      rewrite insert_insert_eq, buffer_buffer.
      unfold images. cbn [omap]. fold (omap (λ i, env_image i.2) inputs).
      rewrite Himg. reflexivity.
    + cbn. apply lookup_insert_eq.
    + exact Hvalid.
    + exact Htime.
    + cbn. rewrite length_app. cbn in *. lia.
Qed.

End Ingestion.

Lemma images_length device_id inputs :
  Forall (valid_frame device_id) inputs → length (images inputs) = length inputs.
Proof.
  induction 1 as [|i inputs [_ [image Himg]] _ IH]; [done|].
  unfold images in *. cbn. rewrite Himg. cbn. by rewrite IH.
Qed.

Lemma images_snoc inputs i image :
  env_image i.2 = Some image → images (inputs ++ [i]) = images inputs ++ [image].
Proof.
  intros Himg. unfold images. induction inputs as [|j inputs IH]; cbn.
  - by rewrite Himg.
  - rewrite IH. by destruct (env_image j.2).
Qed.

Lemma run_snoc inputs i w :
  run (inputs ++ [i]) w = on_message i.1 i.2 (run inputs w).
Proof. unfold run. by rewrite foldl_app. Qed.

(** A freshly opened session that is fed fifty valid frames, the first
    forty-nine of them in time, is finalized once, by the fiftieth. *)
Lemma fifty_frames_finalize_once device_id inputs w s :
  active_captures w !! device_id = Some s →
  frames s = [] →
  length inputs = 50%nat →
  Forall (valid_frame device_id) inputs →
  Forall (in_time s) (take 49 inputs) →
  finalize_calls (run inputs w)
  = CallFinalize device_id (images inputs) :: finalize_calls w
  ∧ length (images inputs) = 50%nat
  ∧ active_captures (run inputs w) !! device_id = None.
Proof.
  intros Hopen Hempty Hlen Hvalid Htime.
  assert (Hcount : length (images inputs) = 50%nat)
    by (by rewrite (images_length device_id)).
  rewrite <- (take_drop 49 inputs) in Hvalid, Hcount |- *.
  assert (Hpre : length (take 49 inputs) = 49%nat) by (rewrite length_take; lia).
  destruct (drop 49 inputs) as [|i [|? ?]] eqn:Hdrop;
    try (apply (f_equal length) in Hdrop; rewrite length_drop in Hdrop;
         cbn in Hdrop; lia).
  apply Forall_app in Hvalid as [Hvpre Hvlast].
  destruct (Forall_inv Hvlast) as [Hmsg [image Himg]].
  rewrite run_snoc.
  rewrite (run_pending device_id _ w s Hopen Hvpre Htime) by (rewrite Hempty, Hpre; cbn; lia).
  set (w1 := with_captures _ w).
  assert (Hopen1 : active_captures w1 !! device_id = Some (buffer s (images (take 49 inputs))))
    by apply lookup_insert_eq.
  assert (Hfull : completes (frames (buffer s (images (take 49 inputs))) ++ [image])
                            (buffer s (images (take 49 inputs))) i.2).
  { left. unfold buffer. cbn [frames]. rewrite Hempty. cbn [app].
    rewrite length_app, (images_length device_id) by done.
    rewrite Hpre. cbn. lia. }
  rewrite (proj1 (ingest device_id i.1 i.2 w1 _ image Hmsg Hopen1 Himg) Hfull).
  set (w2 := with_captures _ w1).
  assert (Hopen2 : active_captures w2 !! device_id
                   = Some (buffer (buffer s (images (take 49 inputs))) [image]))
    by apply lookup_insert_eq.
  split; [|split; [exact Hcount|]].
  - rewrite (finalize_video_calls device_id i.2 w2 _ Hopen2).
    rewrite (images_snoc _ i image Himg). cbn. by rewrite Hempty.
  - apply (finalize_video_closes device_id i.2 w2 _ Hopen2).
Qed.

(** C6. When [finalize_video] finds fewer than five buffered frames it only
    removes the session: the database and the files are untouched and the one
    call logged is the entry into finalize itself, so the encoder was not
    invoked, no artifact or metadata record was produced and the retention
    enforcer did not run.  In particular this is what the ingestion of a
    frame does when its completion check fires on a buffer that, the new
    frame included, holds fewer than five frames. *)
Theorem short_session_is_aborted device_id e w capture :
  active_captures w !! device_id = Some capture →
  ((length (frames capture) < 5)%nat →
   let w' := finalize_video device_id e w in
   active_captures w' = delete device_id (active_captures w)
   ∧ active_captures w' !! device_id = None
   ∧ db w' = db w
   ∧ fs w' = fs w
   ∧ calls w' = CallFinalize device_id (frames capture) :: calls w
   ∧ List.filter is_encoder (calls w') = List.filter is_encoder (calls w)
   ∧ List.filter is_cleanup (calls w') = List.filter is_cleanup (calls w))
  ∧ (∀ msg image,
       addressed (topic msg) device_id (lit "stream") →
       env_image e = Some image →
       completes (frames capture ++ [image]) capture e →
       (length (frames capture ++ [image]) < 5)%nat →
       let w' := on_message msg e w in
       active_captures w' = delete device_id (active_captures w)
       ∧ active_captures w' !! device_id = None
       ∧ db w' = db w
       ∧ fs w' = fs w
       ∧ calls w' = CallFinalize device_id (frames capture ++ [image]) :: calls w).
Proof.
  intros Hopen. split.
  - intros Hfew w'. subst w'.
    rewrite (finalize_video_abort device_id e w capture Hopen Hfew). cbn.
    repeat split. apply lookup_delete_eq.
  - intros msg image Hmsg Himg Hfire Hfew w'. subst w'.
    rewrite (proj1 (ingest device_id msg e w capture image Hmsg Hopen Himg) Hfire).
    rewrite (finalize_video_abort device_id e _ (buffer capture [image]));
      [| apply lookup_insert_eq | exact Hfew].
    cbn. rewrite delete_insert_eq. repeat split. apply lookup_delete_eq.
Qed.

Lemma short_session_is_aborted_witness :
  active_captures (finalize_video cam1 (at_time 7 noon) busy) !! cam1 = None
  ∧ db (finalize_video cam1 (at_time 7 noon) busy) = db busy
  ∧ fs (finalize_video cam1 (at_time 7 noon) busy) = fs busy.
Proof.
  assert (Hopen : active_captures busy !! cam1
                  = Some {| frames := [jpeg]; start_time := inject_Z 0;
                            motion_event_id := 101; device_db_id := 7 |})
    by (vm_compute; reflexivity).
  assert (Hfew : (length [jpeg] < 5)%nat) by (simpl; lia).
  pose proof (proj1 (short_session_is_aborted cam1 (at_time 7 noon) busy _ Hopen) Hfew) as H.
  cbv zeta in H. tauto.
Defined.

(** C3 (as the code has it). Finalize fires, inside the ingestion call of a
    valid frame, exactly when the buffer (the new frame included) holds at
    least 50 frames or at least 6 seconds have passed since the session
    started; it is then called with the buffer in arrival order and closes
    the session, and otherwise the frame is only appended.  Hence a freshly
    opened session fed exactly 50 valid frames, each of the first 49 handled
    less than 6 seconds after the start, sees exactly one finalize call, on
    the fiftieth frame, with those 50 frames in arrival order. *)
Theorem finalize_fires_on_count_or_overrun device_id w s :
  active_captures w !! device_id = Some s →
  (∀ msg e image,
     addressed (topic msg) device_id (lit "stream") →
     env_image e = Some image →
     let w' := on_message msg e w in
     (completes (frames s ++ [image]) s e →
      finalize_calls w' = CallFinalize device_id (frames s ++ [image]) :: finalize_calls w
      ∧ active_captures w' !! device_id = None)
     ∧ (¬ completes (frames s ++ [image]) s e →
        finalize_calls w' = finalize_calls w
        ∧ active_captures w' !! device_id = Some (buffer s [image])))
  ∧ (∀ inputs,
       frames s = [] →
       length inputs = 50%nat →
       Forall (valid_frame device_id) inputs →
       Forall (in_time s) (take 49 inputs) →
       finalize_calls (run inputs w)
       = CallFinalize device_id (images inputs) :: finalize_calls w
       ∧ length (images inputs) = 50%nat
       ∧ active_captures (run inputs w) !! device_id = None).
Proof.
  intros Hopen. split.
  - intros msg e image Hmsg Himg w'. subst w'.
    destruct (ingest device_id msg e w s image Hmsg Hopen Himg) as [Hfire Hwait].
    split; intros Hc.
    + rewrite (Hfire Hc).
      set (w1 := with_captures _ w).
      assert (Hopen1 : active_captures w1 !! device_id = Some (buffer s [image]))
        by apply lookup_insert_eq.
      split.
      * by rewrite (finalize_video_calls device_id e w1 _ Hopen1).
      * apply (finalize_video_closes device_id e w1 _ Hopen1).
    + rewrite (Hwait Hc). split; [reflexivity|]. apply lookup_insert_eq.
  - intros inputs Hempty Hlen Hvalid Htime.
    by apply (fifty_frames_finalize_once device_id inputs w s).
Qed.

Lemma finalize_fires_on_count_or_overrun_witness :
  finalize_calls (run (replicate 50 (stream_msg, at_time 4 noon)) opened)
  = [CallFinalize cam1 (replicate 50 jpeg)]
  ∧ active_captures (run (replicate 50 (stream_msg, at_time 4 noon)) opened) !! cam1 = None.
Proof.
  assert (Hopen : active_captures opened !! cam1
                  = Some (fresh_session garden (at_time 0 noon) idle))
    by (vm_compute; reflexivity).
  assert (Hvalid : Forall (valid_frame cam1) (replicate 50 (stream_msg, at_time 4 noon))).
  { apply Forall_replicate. split; [|by eexists].
    exists (lit "device"), []. reflexivity. }
  assert (Htime : Forall (in_time (fresh_session garden (at_time 0 noon) idle))
                         (take 49 (replicate 50 (stream_msg, at_time 4 noon)))).
  { rewrite take_replicate. apply Forall_replicate. vm_compute. reflexivity. }
  destruct (proj2 (finalize_fires_on_count_or_overrun cam1 opened _ Hopen)
              (replicate 50 (stream_msg, at_time 4 noon))
              eq_refl eq_refl Hvalid Htime) as (Hcalls & _ & Hclosed).
  split; [exact Hcalls | exact Hclosed].
Defined.

(** C3, refuted as stated: a session opened at time 0 whose first frame is
    handled at time 6 exactly.  The buffer holds one frame, not fifty, and
    the elapsed time does not exceed 6, yet finalize fires on that frame;
    of fifty valid frames fed at that time the single finalize call sees
    one. *)
Lemma frame_at_six_seconds_finalizes :
  (start_time <$> active_captures opened !! cam1) = Some (inject_Z 0)
  ∧ (frames <$> active_captures opened !! cam1) = Some []
  ∧ ¬ (inject_Z 6 < env_now (at_time 6 noon) - inject_Z 0)%Q
  ∧ finalize_calls (on_message stream_msg (at_time 6 noon) opened)
    = [CallFinalize cam1 [jpeg]]
  ∧ finalize_calls (run (replicate 50 (stream_msg, at_time 6 noon)) opened)
    = [CallFinalize cam1 [jpeg]].
Proof.
  split; [|split; [|split; [|split]]]; try (vm_compute; reflexivity).
  vm_compute. discriminate.
Qed.

(** ** The notification handler *)

Section Notification.

Variables url key : str.

Lemma send_push_keeps_db k name d e w :
  Notify.db (Notify.send_push_notification_to_device_users url key k name d e w).2
  = Notify.db w.
Proof.
  unfold Notify.send_push_notification_to_device_users.
  destruct url, key; try reflexivity.
  destruct (Notify.env_http e) as [status_code body_ok|]; [|reflexivity].
  by destruct (status_code =? 200).
Qed.

Lemma send_push_fails k name d e w :
  notification_fails url key e →
  (Notify.send_push_notification_to_device_users url key k name d e w).1 = false.
Proof.
  unfold Notify.send_push_notification_to_device_users.
  intros [-> | [-> | [Herr | (status_code & body_ok & Hresp & Hbad)]]].
  - reflexivity.
  - by destruct url.
  - destruct url, key; try reflexivity. by rewrite Herr.
  - destruct url, key; try reflexivity. rewrite Hresp.
    destruct Hbad as [Hcode | ->].
    + apply Z.eqb_neq in Hcode. by rewrite Hcode.
    + by destruct (status_code =? 200).
Qed.

Lemma send_push_succeeds k name d e w :
  (Notify.send_push_notification_to_device_users url key k name d e w).1 = true →
  url ≠ [] ∧ key ≠ [] ∧ Notify.env_http e = Notify.HttpResponse 200 true.
Proof.
  unfold Notify.send_push_notification_to_device_users.
  destruct url, key; try discriminate.
  destruct (Notify.env_http e) as [status_code body_ok|]; [|discriminate].
  destruct (status_code =? 200) eqn:Hcode; [|discriminate].
  apply Z.eqb_eq in Hcode. cbn. intros ->. subst. done.
Qed.

(** Where a message gets to: dropped before anything is written, or a
    motion event is recorded, unsent, and then possibly marked. *)
Lemma notify_on_message_events msg e w :
  let w' := Notify.on_message url key msg e w in
  Notify.motionEvents (Notify.db w') = Notify.motionEvents (Notify.db w)
  ∨ (∃ k, Notify.motionEvents (Notify.db w')
          = Notify.motionEvents (Notify.db w) ++ [unsent_event k e w])
  ∨ (url ≠ [] ∧ key ≠ [] ∧ Notify.env_http e = Notify.HttpResponse 200 true).
Proof.
  cbv zeta. unfold Notify.on_message.
  destruct (decode_utf8 _); [|by left].
  destruct (_ || _); [by left|].
  destruct (negb _); [by left|].
  destruct (Notify.get_device_info _ _ _) as [device_info|]; [|by left].
  unfold Notify.record_motion_event.
  destruct (Notify.env_db_record e); [|by left].
  destruct (_ =? 0); [right; left; by eexists|].
  pose proof (send_push_keeps_db (Notify.di_id device_info) (Notify.di_name device_info)
                (Notify.di_deviceId device_info) e
                (Notify.with_events
                   (Notify.motionEvents (Notify.db w)
                    ++ [unsent_event (Notify.di_id device_info) e w])
                   (Notify.next_event_id (Notify.db w) + 1) w)) as Hdb.
  pose proof (send_push_succeeds (Notify.di_id device_info) (Notify.di_name device_info)
                (Notify.di_deviceId device_info) e
                (Notify.with_events
                   (Notify.motionEvents (Notify.db w)
                    ++ [unsent_event (Notify.di_id device_info) e w])
                   (Notify.next_event_id (Notify.db w) + 1) w)) as Hok.
  fold (unsent_event (Notify.di_id device_info) e w).
  destruct (Notify.send_push_notification_to_device_users _ _ _ _ _ _ _)
    as [notification_sent w2].
  cbn [fst snd] in Hdb, Hok. destruct notification_sent.
  - right; right. by apply Hok.
  - right; left. exists (Notify.di_id device_info). by rewrite Hdb.
Qed.

End Notification.

Lemma notification_fails_not_delivered url key e :
  notification_fails url key e →
  ¬ (url ≠ [] ∧ key ≠ [] ∧ Notify.env_http e = Notify.HttpResponse 200 true).
Proof.
  intros [-> | [-> | [Herr | (status_code & body_ok & Hresp & Hbad)]]]
         (Hurl & Hkey & Hhttp); try congruence.
  rewrite Hresp in Hhttp. injection Hhttp as -> ->. by destruct Hbad.
Qed.

(** C10. [record_motion_event] inserts its row with notificationSent = 0.
    When the notification fails (API not configured, a response other than
    a readable 200, or an exception), handling a message leaves the events
    table as it was or with exactly that unsent row appended, and on the
    path that reaches the insert the row is there, unsent.  A row that is
    new or changed and carries notificationSent = 1 after the message has
    been handled exists only when the API is configured and the HTTP call
    returned status 200. *)
Theorem notification_flag_tracks_delivery url key msg e w :
  let w' := Notify.on_message url key msg e w in
  (∀ k id w1,
     Notify.record_motion_event k e w = (Some id, w1) →
     Notify.motionEvents (Notify.db w1)
     = Notify.motionEvents (Notify.db w) ++ [unsent_event k e w]
     ∧ Notify.me_id (unsent_event k e w) = id
     ∧ Notify.me_notificationSent (unsent_event k e w) = 0)
  ∧ (notification_fails url key e →
     Notify.motionEvents (Notify.db w') = Notify.motionEvents (Notify.db w)
     ∨ ∃ k, Notify.motionEvents (Notify.db w')
            = Notify.motionEvents (Notify.db w) ++ [unsent_event k e w])
  ∧ (notification_fails url key e →
     ∀ text device_id device_info,
       decode_utf8 (Notify.payload msg) = Some text →
       split_on slash (Notify.topic msg) = [lit "device"; device_id; lit "motion"] →
       Notify.env_json e = true →
       Notify.get_device_info device_id e w = Some device_info →
       Notify.env_db_record e = true →
       Notify.motionEvents (Notify.db w')
       = Notify.motionEvents (Notify.db w)
         ++ [unsent_event (Notify.di_id device_info) e w])
  ∧ (∀ row,
       In row (Notify.motionEvents (Notify.db w')) →
       ¬ In row (Notify.motionEvents (Notify.db w)) →
       Notify.me_notificationSent row = 1 →
       url ≠ [] ∧ key ≠ []
       ∧ Notify.env_http e = Notify.HttpResponse 200 true).
Proof.
  intros w'. subst w'. split; [|split; [|split]].
  - intros k id w1. unfold Notify.record_motion_event.
    destruct (Notify.env_db_record e); [|discriminate].
    intros [= <- <-]. done.
  - intros Hfail.
    destruct (notify_on_message_events url key msg e w) as [H|[H|H]];
      [by left | by right |].
    by destruct (notification_fails_not_delivered url key e Hfail).
  - intros Hfail text device_id device_info Hdec Htopic Hjson Hdev Hrec.
    unfold Notify.on_message. rewrite Hdec, Htopic. cbn [length nth].
    rewrite Nat.eqb_refl, !bool_decide_eq_true_2 by reflexivity.
    cbn [negb orb]. rewrite Hjson, Hdev. cbn [negb].
    unfold Notify.record_motion_event. rewrite Hrec.
    fold (unsent_event (Notify.di_id device_info) e w).
    destruct (_ =? 0); [reflexivity|].
    pose proof (send_push_keeps_db url key (Notify.di_id device_info)
                  (Notify.di_name device_info) (Notify.di_deviceId device_info) e
                  (Notify.with_events
                     (Notify.motionEvents (Notify.db w)
                      ++ [unsent_event (Notify.di_id device_info) e w])
                     (Notify.next_event_id (Notify.db w) + 1) w)) as Hdb.
    pose proof (send_push_fails url key (Notify.di_id device_info)
                  (Notify.di_name device_info) (Notify.di_deviceId device_info) e
                  (Notify.with_events
                     (Notify.motionEvents (Notify.db w)
                      ++ [unsent_event (Notify.di_id device_info) e w])
                     (Notify.next_event_id (Notify.db w) + 1) w) Hfail) as Hsent.
    destruct (Notify.send_push_notification_to_device_users _ _ _ _ _ _ _)
      as [notification_sent w2].
    cbn [fst snd] in Hdb, Hsent. subst notification_sent. by rewrite Hdb.
  - intros row Hin Hnew Hsent.
    destruct (notify_on_message_events url key msg e w) as [H|[[k H]|H]].
    + rewrite H in Hin. contradiction.
    + rewrite H in Hin. apply in_app_or in Hin as [Hin|[<-|[]]]; [contradiction|].
      discriminate Hsent.
    + exact H.
Qed.

Lemma notification_flag_tracks_delivery_witness :
  Notify.motionEvents
    (Notify.db (Notify.on_message api_url api_key json_motion_msg
                  (answering (Notify.HttpResponse 503 false)) registry))
  = [unsent_event 7 (answering (Notify.HttpResponse 503 false)) registry].
Proof.
  assert (Hfail : notification_fails api_url api_key
                    (answering (Notify.HttpResponse 503 false))).
  { right; right; right. exists 503, false. split; [reflexivity|]. left. lia. }
  pose proof (proj1 (proj2 (proj2 (notification_flag_tracks_delivery api_url api_key
                json_motion_msg (answering (Notify.HttpResponse 503 false)) registry)))
                Hfail (lit "{}") cam1
                {| Notify.di_id := 7; Notify.di_ownerId := 1;
                   Notify.di_name := lit "Garden"; Notify.di_deviceId := cam1;
                   Notify.di_email := lit "ann@example.org";
                   Notify.di_userName := lit "Ann" |}
                eq_refl eq_refl eq_refl eq_refl eq_refl) as H.
  exact H.
Defined.

(** ** Retention *)

Lemma filter_survives_cons x old l :
  List.filter (survives old) (List.filter (fun v => negb (mv_id v =? mv_id x)) l)
  = List.filter (survives (x :: old)) l.
Proof.
  induction l as [|v l IH]; [done|]. cbn [List.filter].
  change (survives (x :: old) v)
    with (negb (mv_id v =? mv_id x) && survives old v).
  destruct (mv_id v =? mv_id x); cbn [negb andb List.filter]; [exact IH|].
  destruct (survives old v); by rewrite IH.
Qed.

Lemma filter_survives_nil l : List.filter (survives []) l = l.
Proof. induction l as [|v l IH]; [done|]. cbn. by rewrite IH. Qed.

Lemma motionVideos_foldl_delete_video e old : ∀ w,
  motionVideos (db (foldl (delete_video e) w old))
  = List.filter (survives old) (motionVideos (db w)).
Proof.
  induction old as [|x old IH]; intros w.
  - cbn. by rewrite filter_survives_nil.
  - cbn [foldl]. rewrite IH. unfold delete_video. cbn [db with_db motionVideos].
    rewrite (proj2 (proj2 (remove_old_file_keeps e w x))).
    apply filter_survives_cons.
Qed.

Lemma filter_swap {A} (f g : A → bool) l :
  List.filter f (List.filter g l) = List.filter g (List.filter f l).
Proof.
  induction l as [|v l IH]; [done|]. cbn.
  destruct (f v) eqn:Hf, (g v) eqn:Hg; cbn; rewrite ?Hf, ?Hg, IH; done.
Qed.

Lemma filter_length_perm {A} (f : A → bool) l k :
  l ≡ₚ k → length (List.filter f l) = length (List.filter f k).
Proof.
  induction 1 as [|x l k _ IH|x y l|l k m _ IH1 _ IH2]; cbn.
  - done.
  - destruct (f x); cbn; by rewrite IH.
  - by destruct (f x), (f y).
  - by rewrite IH1.
Qed.

Lemma insert_by_capturedAt_perm v l : insert_by_capturedAt v l ≡ₚ v :: l.
Proof.
  induction l as [|x l IH]; [done|]. cbn.
  destruct (mv_capturedAt v <=? mv_capturedAt x); [done|].
  rewrite IH. apply Permutation_swap.
Qed.

Lemma order_by_capturedAt_perm l : order_by_capturedAt l ≡ₚ l.
Proof.
  induction l as [|x l IH]; [done|]. cbn.
  by rewrite insert_by_capturedAt_perm, IH.
Qed.

Lemma NoDup_ids_filter (f : MotionVideo → bool) l :
  NoDup (mv_id <$> l) → NoDup (mv_id <$> List.filter f l).
Proof.
  induction l as [|v l IH]; [done|]. cbn. intros [Hv Hl]%NoDup_cons.
  destruct (f v); [|by apply IH]. cbn. apply NoDup_cons. split; [|by apply IH].
  intros Hin. apply Hv.
  apply list_elem_of_fmap in Hin as (y & Hy & Hin). apply list_elem_of_fmap.
  exists y. split; [done|]. apply list_elem_of_In, filter_In in Hin as [Hin _].
  by apply list_elem_of_In.
Qed.

Lemma filter_survives_self old : ∀ l,
  (∀ x, x ∈ l → x ∈ old) → List.filter (survives old) l = [].
Proof.
  induction l as [|v l IH]; intros Hsub; [done|]. cbn.
  assert (Hv : survives old v = false).
  { apply not_true_is_false. intros Hs. unfold survives in Hs.
    rewrite forallb_forall in Hs.
    specialize (Hs v (proj1 (list_elem_of_In _ _) (Hsub v (list_elem_of_here _ _)))).
    rewrite Z.eqb_refl in Hs. discriminate. }
  rewrite Hv. apply IH. intros x Hx. apply Hsub. by apply list_elem_of_further.
Qed.

Lemma filter_survives_others old : ∀ l,
  (∀ x y, x ∈ l → y ∈ old → mv_id x ≠ mv_id y) →
  List.filter (survives old) l = l.
Proof.
  induction l as [|v l IH]; intros Hdis; [done|]. cbn.
  assert (Hv : survives old v = true).
  { unfold survives. apply forallb_forall. intros y Hy.
    apply negb_true_iff, Z.eqb_neq, Hdis; [apply list_elem_of_here|].
    by apply list_elem_of_In. }
  rewrite Hv. f_equal. apply IH. intros x y Hx. apply Hdis.
  by apply list_elem_of_further.
Qed.

(** With primary keys that are unique, a retention run that reaches the
    database leaves a device that had [MAX_VIDEOS] rows or more with
    [MAX_VIDEOS - 1] rows, and other devices' counts as they were. *)
Lemma cleanup_old_videos_count k e w :
  env_db_cleanup e = true →
  NoDup (mv_id <$> motionVideos (db w)) →
  count_videos k (cleanup_old_videos k e w)
  = if (MAX_VIDEOS <=? count_videos k w)%nat
    then (MAX_VIDEOS - 1)%nat else count_videos k w.
Proof.
  intros Hdb Hids. unfold cleanup_old_videos, count_videos. rewrite Hdb.
  cbn [db record_call].
  destruct (MAX_VIDEOS <=? length (videos_of k (db w)))%nat eqn:Hfull; [|done].
  apply Nat.leb_le in Hfull.
  set (D := videos_of k (db w)) in *.
  set (n := (length D - MAX_VIDEOS + 1)%nat).
  unfold videos_of at 1. rewrite motionVideos_foldl_delete_video. cbn [db record_call].
  rewrite filter_swap. fold (videos_of k (db w)). fold D.
  rewrite (filter_length_perm _ D (order_by_capturedAt D))
    by (by rewrite order_by_capturedAt_perm).
  assert (HidsD : NoDup (mv_id <$> order_by_capturedAt D)).
  { rewrite order_by_capturedAt_perm. by apply NoDup_ids_filter. }
  assert (Hlen : length (order_by_capturedAt D) = length D)
    by (by rewrite order_by_capturedAt_perm).
  rewrite <- (take_drop n (order_by_capturedAt D)) in HidsD |- * at 2.
  rewrite fmap_app in HidsD. apply NoDup_app in HidsD as (_ & Hdis & _).
  rewrite List.filter_app, filter_survives_self by done.
  rewrite filter_survives_others.
  - cbn. rewrite length_drop, Hlen. unfold n, MAX_VIDEOS in *. lia.
  - intros x y Hx Hy Heq. apply (Hdis (mv_id y)).
    + apply list_elem_of_fmap. by exists y.
    + rewrite <- Heq. apply list_elem_of_fmap. by exists x.
Qed.

Lemma cleanup_old_videos_bound k e w :
  env_db_cleanup e = true →
  NoDup (mv_id <$> motionVideos (db w)) →
  (count_videos k (cleanup_old_videos k e w) < MAX_VIDEOS)%nat.
Proof.
  intros Hdb Hids. rewrite (cleanup_old_videos_count k e w Hdb Hids).
  destruct (MAX_VIDEOS <=? count_videos k w)%nat eqn:Hfull.
  - unfold MAX_VIDEOS. lia.
  - by apply Nat.leb_gt in Hfull.
Qed.

(** C2 (the code falls one short). With unique primary keys, every
    retention run leaves at most [MAX_VIDEOS - 1] = 49 rows for a device: it
    already deletes when the count equals the maximum.  Evaluated on
    [cam1]: all of 51 captures are finalized and committed (the enforcer is
    called 51 times); after the 50th commit the oldest artifact is gone
    although the count did not exceed 50, and after the 51st two artifacts
    (files and rows) are gone and 49 remain, the 49 most recent ones. *)
Theorem retention_keeps_one_below_maximum :
  MAX_VIDEOS = 50%nat
  ∧ length (finalize_calls (after_captures 51)) = 51%nat
  ∧ length (List.filter is_cleanup (calls (after_captures 51))) = 51%nat
  ∧ mv_id <$> motionVideos (db (after_captures 50)) = Z.of_nat <$> seq 2 49
  ∧ mv_id <$> motionVideos (db (after_captures 51)) = Z.of_nat <$> seq 3 49
  ∧ count_videos 7 (after_captures 51) = 49%nat
  ∧ size (fs (after_captures 51)) = 49%nat
  ∧ fs (after_captures 51) !! artifact_path cam1 (stamp_at 1) = None
  ∧ fs (after_captures 51) !! artifact_path cam1 (stamp_at 2) = None
  ∧ fs (after_captures 51) !! artifact_path cam1 (stamp_at 3) = Some clip.
Proof. vm_compute. repeat split. Qed.

(** * Further properties of the capture service *)

(** ** Sessions of different devices do not interfere *)

Lemma cleanup_old_videos_captures k e w :
  active_captures (cleanup_old_videos k e w) = active_captures w.
Proof.
  unfold cleanup_old_videos.
  destruct (env_db_cleanup e); (destruct (MAX_VIDEOS <=? _)%nat; [|reflexivity]).
  - by rewrite (proj2 (calls_foldl_delete_video _ _ _)).
  - by rewrite (proj1 (proj2 (foldl_remove_old_file_keeps _ _ _))).
Qed.

Lemma finalize_video_other device_id e w other :
  other ≠ device_id →
  active_captures (finalize_video device_id e w) !! other = active_captures w !! other.
Proof.
  intros Hne. unfold finalize_video.
  destruct (active_captures w !! device_id) as [capture|]; [|reflexivity].
  destruct (length (frames capture) <? 5)%nat.
  { cbn. by rewrite lookup_delete_ne. }
  unfold create_mjpeg_video.
  destruct (env_encoder e) as [out|]; [|cbn; by rewrite lookup_delete_ne].
  destruct (os_path_getsize _ _); [|reflexivity].
  unfold save_video_to_db. destruct (env_db_save e); cbn.
  - rewrite lookup_delete_ne by done. by rewrite cleanup_old_videos_captures.
  - by rewrite lookup_delete_ne.
Qed.

Lemma process_stream_message_other device_id message e w other :
  other ≠ device_id →
  active_captures (process_stream_message device_id message e w) !! other
  = active_captures w !! other.
Proof.
  intros Hne. unfold process_stream_message.
  destruct (env_image e); [|reflexivity].
  destruct (active_captures w !! device_id) as [capture|]; [|reflexivity].
  destruct (_ || _).
  - rewrite finalize_video_other by done. cbn. by rewrite lookup_insert_ne.
  - cbn. by rewrite lookup_insert_ne.
Qed.

Lemma start_video_capture_other device_id e w other :
  other ≠ device_id →
  active_captures (start_video_capture device_id e w) !! other
  = active_captures w !! other.
Proof.
  intros Hne. unfold start_video_capture, create_motion_event.
  destruct (get_device_info device_id e w); [|reflexivity].
  destruct (env_db_event e); [|reflexivity].
  destruct (_ =? 0); [reflexivity|]. cbn. by rewrite lookup_insert_ne.
Qed.

(** X1. Whatever a message is and whatever the outside world answers, its
    handling leaves the session of every device other than the one named by
    the second topic segment exactly as it was: same buffer, same start
    time, same correlation identifier, present or absent as before. *)
Theorem other_sessions_untouched msg e w other :
  other ≠ routed_device msg →
  active_captures (on_message msg e w) !! other = active_captures w !! other.
Proof.
  intros Hne. unfold on_message. fold (routed_device msg).
  destruct (length _ <? 3)%nat; [reflexivity|].
  destruct (bool_decide (_ = lit "motion")).
  - destruct (decode_utf8 _); [|reflexivity].
    destruct (bool_decide _); [|reflexivity].
    by apply start_video_capture_other.
  - destruct (bool_decide _); [|reflexivity].
    destruct (active_captures w !! routed_device msg); [|reflexivity].
    by apply process_stream_message_other.
Qed.

Lemma other_sessions_untouched_witness :
  active_captures (on_message stream_msg (at_time 9 noon) both_open) !! cam2
  = active_captures both_open !! cam2
  ∧ active_captures (on_message stream_msg (at_time 9 noon) both_open) !! cam1
    ≠ active_captures both_open !! cam1.
Proof.
  split.
  - apply (other_sessions_untouched stream_msg (at_time 9 noon) both_open cam2).
    vm_compute. discriminate.
  - vm_compute. discriminate.
Defined.

(** ** Stream messages that are not ingested *)

(** X2. A stream message changes nothing at all (no session, no database
    row, no file, no collaborator call) when the device has no open session
    or when its payload cannot be parsed into an image. *)
Theorem stream_message_without_effect msg device_id e w :
  addressed (topic msg) device_id (lit "stream") →
  active_captures w !! device_id = None ∨ env_image e = None →
  on_message msg e w = w.
Proof.
  intros Hmsg Hwhy. rewrite (on_message_stream msg e w device_id Hmsg).
  destruct (active_captures w !! device_id) as [s|] eqn:Hopen; [|reflexivity].
  destruct Hwhy as [|Himg]; [discriminate|].
  unfold process_stream_message. by rewrite Himg.
Qed.

Lemma stream_message_without_effect_witness :
  on_message stream_msg (at_time 1 noon) idle = idle
  ∧ on_message stream_msg garbled busy = busy.
Proof.
  assert (Hmsg : addressed (topic stream_msg) cam1 (lit "stream"))
    by (exists (lit "device"), []; reflexivity).
  split.
  - apply (stream_message_without_effect stream_msg cam1 (at_time 1 noon) idle Hmsg).
    left. vm_compute. reflexivity.
  - apply (stream_message_without_effect stream_msg cam1 garbled busy Hmsg).
    right. reflexivity.
Defined.

(** ** Buffering *)

(** X3. While the target is not reached and the session is not overdue,
    valid stream frames are appended to the session's buffer in arrival
    order, one per message, and nothing else happens: the database, the
    files and the log of collaborator calls stay as they were. *)
Theorem frames_are_buffered_in_order device_id inputs w s :
  active_captures w !! device_id = Some s →
  Forall (valid_frame device_id) inputs →
  Forall (in_time s) inputs →
  (length (frames s) + length inputs < 50)%nat →
  active_captures (run inputs w) !! device_id = Some (buffer s (images inputs))
  ∧ length (images inputs) = length inputs
  ∧ db (run inputs w) = db w
  ∧ fs (run inputs w) = fs w
  ∧ calls (run inputs w) = calls w.
Proof.
  intros Hopen Hvalid Htime Hlen.
  rewrite (run_pending device_id inputs w s Hopen Hvalid Htime Hlen).
  cbn. rewrite lookup_insert_eq, (images_length device_id) by done. done.
Qed.

Lemma frames_are_buffered_in_order_witness :
  active_captures (run (replicate 3 (stream_msg, at_time 2 noon)) busy) !! cam1
  = Some (buffer (buffer (fresh_session garden (at_time 0 noon) idle) [jpeg])
                 [jpeg; jpeg; jpeg]).
Proof.
  assert (Hopen : active_captures busy !! cam1
                  = Some (buffer (fresh_session garden (at_time 0 noon) idle) [jpeg]))
    by (vm_compute; reflexivity).
  assert (Hvalid : Forall (valid_frame cam1) (replicate 3 (stream_msg, at_time 2 noon))).
  { apply Forall_replicate. split; [|by eexists].
    exists (lit "device"), []. reflexivity. }
  assert (Htime : Forall (in_time (buffer (fresh_session garden (at_time 0 noon) idle) [jpeg]))
                         (replicate 3 (stream_msg, at_time 2 noon))).
  { apply Forall_replicate. vm_compute. reflexivity. }
  assert (Hlen : (length (frames (buffer (fresh_session garden (at_time 0 noon) idle) [jpeg]))
                  + length (replicate 3 (stream_msg, at_time 2 noon)) < 50)%nat)
    by (vm_compute; lia).
  exact (proj1 (frames_are_buffered_in_order cam1 _ busy _ Hopen Hvalid Htime Hlen)).
Defined.

(** ** Encoder failure *)

Lemma leave_frames_keeps left dir frames : ∀ i files p,
  is_Some (files !! p) → is_Some (leave_frames left dir i frames files !! p).
Proof.
  induction frames as [|frame_data rest IH]; intros i files p Hp; [done|].
  cbn [leave_frames]. apply IH. destruct (left i); [|done].
  destruct (decide (frame_path dir i = p)) as [<-|Hne].
  - rewrite lookup_insert_eq. by eexists.
  - by rewrite lookup_insert_ne.
Qed.

Lemma leave_frames_left left dir frames : ∀ i files j,
  (j < length frames)%nat → left (i + j)%nat = true →
  is_Some (leave_frames left dir i frames files !! frame_path dir (i + j)).
Proof.
  induction frames as [|frame_data rest IH]; intros i files j Hj Hleft; [cbn in Hj; lia|].
  cbn [leave_frames]. destruct j as [|j].
  - rewrite Nat.add_0_r in *. rewrite Hleft.
    apply leave_frames_keeps. rewrite lookup_insert_eq. by eexists.
  - replace (i + S j)%nat with (S i + j)%nat in * by lia.
    apply IH; [cbn in Hj; lia | done].
Qed.

Lemma leave_frames_elsewhere left dir frames : ∀ i files p,
  (∀ j, p ≠ frame_path dir j) →
  leave_frames left dir i frames files !! p = files !! p.
Proof.
  induction frames as [|frame_data rest IH]; intros i files p Hp; [done|].
  cbn [leave_frames]. rewrite IH by done.
  destruct (left i); [|done]. rewrite lookup_insert_ne; [done|]. by apply not_eq_sym.
Qed.

Lemma failed_encoder_files_left device_id capture e w i :
  (i < length (frames capture))%nat →
  env_encoder_left e i = true →
  is_Some (failed_encoder_files device_id capture e w !! frame_path (temp_dir e) i).
Proof.
  intros Hi Hleft. unfold failed_encoder_files.
  pose proof (leave_frames_left (env_encoder_left e) (temp_dir e) (frames capture)
                0 (fs w) i Hi Hleft) as Hsome.
  destruct (env_encoder_partial e) as [partial|]; [|exact Hsome].
  destruct (decide (artifact_path device_id (env_stamp e) = frame_path (temp_dir e) i))
    as [->|Hne].
  - rewrite lookup_insert_eq. by eexists.
  - by rewrite lookup_insert_ne.
Qed.

Lemma failed_encoder_files_elsewhere device_id capture e w p :
  p ≠ artifact_path device_id (env_stamp e) →
  (∀ j, p ≠ frame_path (temp_dir e) j) →
  failed_encoder_files device_id capture e w !! p = fs w !! p.
Proof.
  intros Hout Hframes. unfold failed_encoder_files.
  destruct (env_encoder_partial e) as [partial|].
  - rewrite lookup_insert_ne by (by apply not_eq_sym).
    by apply leave_frames_elsewhere.
  - by apply leave_frames_elsewhere.
Qed.

(** X4. When the encoder fails, finalize discards the session and records
    nothing: no metadata row is inserted and the retention enforcer is not
    called.  The frame files the failed run has left in its temporary
    directory (all of them when ffmpeg exited with an error) stay there, and
    no path other than those frame paths and the output path is touched.
    This also holds for the ingestion call whose frame completes the
    session. *)
Theorem encoder_failure_discards_session device_id e w capture :
  active_captures w !! device_id = Some capture →
  env_encoder e = None →
  ((5 ≤ length (frames capture))%nat →
   let w' := finalize_video device_id e w in
   active_captures w' = delete device_id (active_captures w)
   ∧ db w' = db w
   ∧ calls w' = CallEncoder (frames capture) (artifact_path device_id (env_stamp e))
                :: CallFinalize device_id (frames capture) :: calls w
   ∧ (∀ i, (i < length (frames capture))%nat → env_encoder_left e i = true →
           is_Some (fs w' !! frame_path (temp_dir e) i))
   ∧ (∀ p, p ≠ artifact_path device_id (env_stamp e) →
           (∀ j, p ≠ frame_path (temp_dir e) j) →
           fs w' !! p = fs w !! p))
  ∧ (∀ msg image,
       addressed (topic msg) device_id (lit "stream") →
       env_image e = Some image →
       completes (frames capture ++ [image]) capture e →
       (5 ≤ length (frames capture ++ [image]))%nat →
       let w' := on_message msg e w in
       active_captures w' = delete device_id (active_captures w)
       ∧ db w' = db w
       ∧ List.filter is_cleanup (calls w') = List.filter is_cleanup (calls w)
       ∧ (∀ i, (i < length (frames capture ++ [image]))%nat →
               env_encoder_left e i = true →
               is_Some (fs w' !! frame_path (temp_dir e) i))
       ∧ (∀ p, p ≠ artifact_path device_id (env_stamp e) →
               (∀ j, p ≠ frame_path (temp_dir e) j) →
               fs w' !! p = fs w !! p)).
Proof.
  intros Hopen Henc. split.
  - intros Hmany w'. subst w'.
    rewrite (finalize_video_encoder_failure device_id e w capture Hopen Hmany Henc).
    cbn [active_captures db fs calls]. repeat split.
    + intros i Hi Hleft. by apply failed_encoder_files_left.
    + intros p Hout Hframes. by apply failed_encoder_files_elsewhere.
  - intros msg image Hmsg Himg Hfire Hmany w'. subst w'.
    rewrite (proj1 (ingest device_id msg e w capture image Hmsg Hopen Himg) Hfire).
    rewrite (finalize_video_encoder_failure device_id e _ (buffer capture [image]));
      [| apply lookup_insert_eq | exact Hmany | exact Henc].
    cbn [active_captures db fs calls with_captures]. rewrite delete_insert_eq.
    repeat split.
    + intros i Hi Hleft. by apply failed_encoder_files_left.
    + intros p Hout Hframes. by rewrite failed_encoder_files_elsewhere.
Qed.

Lemma encoder_failure_discards_session_witness :
  active_captures (finalize_video cam1 encoder_down five) = delete cam1 (active_captures five)
  ∧ db (finalize_video cam1 encoder_down five) = db five
  ∧ is_Some (fs (finalize_video cam1 encoder_down five)
             !! frame_path (temp_dir encoder_down) 4).
Proof.
  assert (Hopen : active_captures five !! cam1 = Some five_session)
    by (vm_compute; reflexivity).
  assert (Hmany : (5 ≤ length (frames five_session))%nat) by (simpl; lia).
  destruct (proj1 (encoder_failure_discards_session cam1 encoder_down five five_session
                     Hopen eq_refl) Hmany) as (Hcaptures & Hdb & _ & Hleft & _).
  split; [exact Hcaptures|]. split; [exact Hdb|].
  apply Hleft; [simpl; lia | reflexivity].
Defined.

(** ** After completion *)

Lemma stream_dropped_when_closed msg device_id e w :
  addressed (topic msg) device_id (lit "stream") →
  active_captures w !! device_id = None →
  on_message msg e w = w.
Proof.
  intros Hmsg Hclosed. by rewrite (on_message_stream msg e w device_id Hmsg), Hclosed.
Qed.

Lemma run_dropped_when_closed device_id inputs w :
  Forall (fun i => addressed (topic i.1) device_id (lit "stream")) inputs →
  active_captures w !! device_id = None →
  run inputs w = w.
Proof.
  induction 1 as [|i inputs Hmsg _ IH]; intros Hclosed; [reflexivity|].
  cbn [run foldl]. rewrite (stream_dropped_when_closed _ device_id _ _ Hmsg Hclosed).
  by apply IH.
Qed.

(** X5. The frame that completes a session closes it, whatever the encoder
    and the database then do; every stream message that follows for the
    device is dropped without effect until a new trigger arrives. *)
Theorem frames_after_completion_are_dropped device_id msg e w s image later :
  addressed (topic msg) device_id (lit "stream") →
  active_captures w !! device_id = Some s →
  env_image e = Some image →
  completes (frames s ++ [image]) s e →
  Forall (fun i => addressed (topic i.1) device_id (lit "stream")) later →
  active_captures (on_message msg e w) !! device_id = None
  ∧ run later (on_message msg e w) = on_message msg e w.
Proof.
  intros Hmsg Hopen Himg Hfire Hlater.
  assert (Hclosed : active_captures (on_message msg e w) !! device_id = None).
  { rewrite (proj1 (ingest device_id msg e w s image Hmsg Hopen Himg) Hfire).
    apply (finalize_video_closes device_id e _ (buffer s [image])).
    apply lookup_insert_eq. }
  split; [exact Hclosed|].
  by apply (run_dropped_when_closed device_id).
Qed.

Lemma frames_after_completion_are_dropped_witness :
  run (replicate 4 (stream_msg, at_time 8 noon)) (on_message stream_msg (at_time 7 noon) busy)
  = on_message stream_msg (at_time 7 noon) busy.
Proof.
  assert (Hmsg : addressed (topic stream_msg) cam1 (lit "stream"))
    by (exists (lit "device"), []; reflexivity).
  assert (Hopen : active_captures busy !! cam1
                  = Some (buffer (fresh_session garden (at_time 0 noon) idle) [jpeg]))
    by (vm_compute; reflexivity).
  assert (Hfire : completes
                    (frames (buffer (fresh_session garden (at_time 0 noon) idle) [jpeg]) ++ [jpeg])
                    (buffer (fresh_session garden (at_time 0 noon) idle) [jpeg])
                    (at_time 7 noon)).
  { right. vm_compute. discriminate. }
  assert (Hlater : Forall (fun i : Msg * Env => addressed (topic i.1) cam1 (lit "stream"))
                          (replicate 4 (stream_msg, at_time 8 noon)))
    by (apply Forall_replicate; exact Hmsg).
  exact (proj2 (frames_after_completion_are_dropped cam1 stream_msg (at_time 7 noon) busy
                  _ jpeg _ Hmsg Hopen eq_refl Hfire Hlater)).
Defined.

(** ** What a retention run does to the tables and the files *)

Lemma db_foldl_delete_video e old : ∀ w,
  db (foldl (delete_video e) w old)
  = {| devices := devices (db w);
       motionEvents := motionEvents (db w);
       next_event_id := next_event_id (db w);
       motionVideos := List.filter (survives old) (motionVideos (db w));
       next_video_id := next_video_id (db w) |}.
Proof.
  induction old as [|x old IH]; intros w.
  - cbn. rewrite filter_survives_nil. by destruct (db w).
  - cbn [foldl]. rewrite IH. unfold delete_video.
    cbn [db with_db devices motionEvents next_event_id motionVideos next_video_id].
    rewrite (proj2 (proj2 (remove_old_file_keeps e w x))).
    by rewrite filter_survives_cons.
Qed.

Lemma fs_foldl_remove_old_file e old : ∀ w p,
  fs (foldl (remove_old_file e) w old) !! p
  = if bool_decide (p ∈ mv_filepath <$> old) && env_remove_old e p
    then None else fs w !! p.
Proof.
  induction old as [|x old IH]; intros w p.
  - cbn. rewrite bool_decide_eq_false_2; [done|]. apply not_elem_of_nil.
  - cbn [foldl]. rewrite IH. cbn [fmap list_fmap].
    destruct (decide (p ∈ mv_filepath <$> old)) as [Hin|Hout].
    + rewrite !bool_decide_eq_true_2; [|by apply list_elem_of_further|done].
      cbn. destruct (env_remove_old e p) eqn:Hrm; [done|].
      unfold remove_old_file.
      destruct (env_remove_old e (mv_filepath x)) eqn:Hx; [|done].
      cbn. rewrite lookup_delete_ne; [done|]. intros Heq. rewrite Heq in Hx. congruence.
    + rewrite (bool_decide_eq_false_2 _ Hout). cbn.
      destruct (decide (mv_filepath x = p)) as [<-|Hne].
      * rewrite bool_decide_eq_true_2 by apply list_elem_of_here. cbn.
        unfold remove_old_file.
        destruct (env_remove_old e (mv_filepath x)); [|done].
        cbn. by rewrite lookup_delete_eq.
      * rewrite bool_decide_eq_false_2.
        2:{ intros [->|Hin]%elem_of_cons; done. }
        cbn. unfold remove_old_file.
        destruct (env_remove_old e (mv_filepath x)); [|done].
        cbn. by rewrite lookup_delete_ne.
Qed.

Lemma fs_delete_video e w x : fs (delete_video e w x) = fs (remove_old_file e w x).
Proof. reflexivity. Qed.

Lemma foldl_delete_video_files e old : ∀ w,
  fs (foldl (delete_video e) w old) = fs (foldl (remove_old_file e) w old).
Proof.
  induction old as [|x old IH]; intros w; [done|].
  cbn [foldl]. rewrite IH.
  apply map_eq. intros p. by rewrite !fs_foldl_remove_old_file, fs_delete_video.
Qed.

Lemma fs_foldl_delete_video e old w p :
  fs (foldl (delete_video e) w old) !! p
  = if bool_decide (p ∈ mv_filepath <$> old) && env_remove_old e p
    then None else fs w !! p.
Proof. by rewrite foldl_delete_video_files, fs_foldl_remove_old_file. Qed.

Lemma cleanup_old_videos_evicts k e w :
  env_db_cleanup e = true →
  cleanup_old_videos k e w
  = foldl (delete_video e) (record_call (CallCleanup k) w) (evicted k (db w)).
Proof.
  intros Hdb. unfold cleanup_old_videos, evicted. rewrite Hdb. cbn [db record_call].
  by destruct (MAX_VIDEOS <=? _)%nat.
Qed.

(** A run that fails at a statement: nothing is committed, and the files of
    the rows it had got to are removed. *)
Lemma cleanup_old_videos_fails k e w :
  env_db_cleanup e = false →
  cleanup_old_videos k e w
  = foldl (remove_old_file e) (record_call (CallCleanup k) w)
          (take (env_cleanup_reached e) (evicted k (db w))).
Proof.
  intros Hdb. unfold cleanup_old_videos, evicted. rewrite Hdb. cbn [db record_call].
  destruct (MAX_VIDEOS <=? _)%nat; [done|]. by rewrite take_nil.
Qed.

Lemma cleanup_old_videos_db k e w :
  ∃ old,
    db (cleanup_old_videos k e w)
    = {| devices := devices (db w);
         motionEvents := motionEvents (db w);
         next_event_id := next_event_id (db w);
         motionVideos := List.filter (survives old) (motionVideos (db w));
         next_video_id := next_video_id (db w) |}.
Proof.
  destruct (env_db_cleanup e) eqn:Hdb.
  - exists (evicted k (db w)).
    by rewrite (cleanup_old_videos_evicts k e w Hdb), db_foldl_delete_video.
  - exists []. rewrite (cleanup_old_videos_fails k e w Hdb).
    rewrite (proj2 (proj2 (foldl_remove_old_file_keeps _ _ _))). cbn.
    rewrite filter_survives_nil. by destruct (db w).
Qed.

(** ** Primary keys *)

Lemma Forall_filter_bool {A} (P : A → Prop) (f : A → bool) l :
  Forall P l → Forall P (List.filter f l).
Proof.
  induction 1 as [|x l Hx _ IH]; cbn; [constructor|].
  destruct (f x); [by constructor | done].
Qed.

Lemma NoDup_snoc_fresh (ids : list Z) next :
  NoDup ids → Forall (fun i => i < next) ids → NoDup (ids ++ [next]).
Proof.
  intros Hnd Hlt. apply NoDup_app. split; [done|]. split; [|apply NoDup_singleton].
  intros i Hi ->%list_elem_of_singleton.
  rewrite Forall_forall in Hlt. specialize (Hlt next Hi). lia.
Qed.

Lemma keys_ok_filter d f :
  keys_ok d →
  keys_ok {| devices := devices d; motionEvents := motionEvents d;
             next_event_id := next_event_id d;
             motionVideos := List.filter f (motionVideos d);
             next_video_id := next_video_id d |}.
Proof.
  intros (Hv & Hvlt & Hev & Hevlt). repeat split; cbn; try done.
  - by apply NoDup_ids_filter.
  - by apply Forall_filter_bool.
Qed.

Lemma keys_ok_add_video d row :
  keys_ok d → mv_id row = next_video_id d →
  keys_ok {| devices := devices d; motionEvents := motionEvents d;
             next_event_id := next_event_id d;
             motionVideos := motionVideos d ++ [row];
             next_video_id := next_video_id d + 1 |}.
Proof.
  intros (Hv & Hvlt & Hev & Hevlt) Hid. repeat split; cbn; try done.
  - rewrite fmap_app. cbn. rewrite Hid. apply NoDup_snoc_fresh; [done|].
    by rewrite Forall_fmap.
  - apply Forall_app. split.
    + eapply Forall_impl; [exact Hvlt|]. cbn. intros. lia.
    + constructor; [lia|constructor].
Qed.

Lemma keys_ok_add_event d row :
  keys_ok d → me_id row = next_event_id d →
  keys_ok {| devices := devices d; motionEvents := motionEvents d ++ [row];
             next_event_id := next_event_id d + 1;
             motionVideos := motionVideos d;
             next_video_id := next_video_id d |}.
Proof.
  intros (Hv & Hvlt & Hev & Hevlt) Hid. repeat split; cbn; try done.
  - rewrite fmap_app. cbn. rewrite Hid. apply NoDup_snoc_fresh; [done|].
    by rewrite Forall_fmap.
  - apply Forall_app. split.
    + eapply Forall_impl; [exact Hevlt|]. cbn. intros. lia.
    + constructor; [lia|constructor].
Qed.

Lemma finalize_video_keys device_id e w :
  keys_ok (db w) → keys_ok (db (finalize_video device_id e w)).
Proof.
  intros Hok. unfold finalize_video.
  destruct (active_captures w !! device_id) as [capture|]; [|done].
  destruct (length (frames capture) <? 5)%nat; [done|].
  unfold create_mjpeg_video.
  destruct (env_encoder e) as [out|]; [|done].
  destruct (os_path_getsize _ _) as [filesize|]; [|done].
  unfold save_video_to_db. destruct (env_db_save e); [|done].
  cbn [db with_captures].
  match goal with |- keys_ok (db (cleanup_old_videos ?k e ?w2)) =>
    destruct (cleanup_old_videos_db k e w2) as [old ->] end.
  apply keys_ok_filter. cbn. by apply keys_ok_add_video.
Qed.

Lemma start_video_capture_keys device_id e w :
  keys_ok (db w) → keys_ok (db (start_video_capture device_id e w)).
Proof.
  intros Hok. unfold start_video_capture, create_motion_event.
  destruct (get_device_info device_id e w); [|done].
  destruct (env_db_event e); [|done].
  destruct (_ =? 0); cbn; by apply keys_ok_add_event.
Qed.

Lemma on_message_keys msg e w :
  keys_ok (db w) → keys_ok (db (on_message msg e w)).
Proof.
  intros Hok. unfold on_message.
  destruct (length _ <? 3)%nat; [done|].
  destruct (bool_decide (_ = lit "motion")).
  - destruct (decode_utf8 _); [|done].
    destruct (bool_decide _); [|done].
    by apply start_video_capture_keys.
  - destruct (bool_decide _); [|done].
    destruct (active_captures w !! _); [|done].
    unfold process_stream_message.
    destruct (env_image e); [|done].
    destruct (active_captures w !! _); [|done].
    destruct (_ || _); [|done].
    by apply finalize_video_keys.
Qed.

Lemma run_keys inputs : ∀ w, keys_ok (db w) → keys_ok (db (run inputs w)).
Proof.
  induction inputs as [|i inputs IH]; intros w Hok; [done|].
  cbn [run foldl]. apply IH. by apply on_message_keys.
Qed.

Lemma keys_ok_idle : keys_ok (db idle).
Proof. repeat split; cbn; constructor. Qed.

(** ** Which rows a retention run deletes *)

Lemma elem_of_filter_bool {A} (f : A → bool) l x :
  x ∈ List.filter f l ↔ x ∈ l ∧ f x = true.
Proof. by rewrite !list_elem_of_In, filter_In. Qed.

Lemma videos_of_elem k d v :
  v ∈ videos_of k d ↔ v ∈ motionVideos d ∧ mv_deviceId v = k.
Proof. unfold videos_of. by rewrite elem_of_filter_bool, Z.eqb_eq. Qed.

Lemma ids_determine_rows (l : list MotionVideo) x y :
  NoDup (mv_id <$> l) → x ∈ l → y ∈ l → mv_id x = mv_id y → x = y.
Proof.
  induction l as [|v l IH]; intros Hnd Hx Hy Heq; [by apply elem_of_nil in Hx|].
  cbn in Hnd. apply NoDup_cons in Hnd as [Hv Hnd].
  apply elem_of_cons in Hx as [->|Hx]; apply elem_of_cons in Hy as [->|Hy].
  - done.
  - destruct Hv. rewrite Heq. by apply list_elem_of_fmap_2.
  - destruct Hv. rewrite <- Heq. by apply list_elem_of_fmap_2.
  - by apply IH.
Qed.

Lemma survives_false old v :
  survives old v = false → ∃ x, x ∈ old ∧ mv_id v = mv_id x.
Proof.
  induction old as [|x old IH]; [discriminate|]. cbn.
  destruct (mv_id v =? mv_id x) eqn:Heq; cbn.
  - intros _. exists x. split; [apply list_elem_of_here | by apply Z.eqb_eq].
  - intros (y & Hy & Hid)%IH. exists y. split; [by apply list_elem_of_further | done].
Qed.

Lemma survives_true old v x :
  survives old v = true → x ∈ old → mv_id v ≠ mv_id x.
Proof.
  unfold survives. rewrite forallb_forall. intros Hall Hx.
  specialize (Hall x (proj1 (list_elem_of_In _ _) Hx)).
  by apply negb_true_iff, Z.eqb_neq in Hall.
Qed.

Lemma evicted_are_videos k d x : x ∈ evicted k d → x ∈ videos_of k d.
Proof.
  unfold evicted. destruct (MAX_VIDEOS <=? _)%nat; [|by intros ?%elem_of_nil].
  intros Hx%subseteq_take. by rewrite order_by_capturedAt_perm in Hx.
Qed.

(** With unique keys the rows missing after the loop are the evicted ones. *)
Lemma gone_iff_evicted k d v :
  NoDup (mv_id <$> motionVideos d) →
  v ∈ motionVideos d ∧ v ∉ List.filter (survives (evicted k d)) (motionVideos d)
  ↔ v ∈ evicted k d.
Proof.
  intros Hnd. split.
  - intros [Hin Hgone].
    destruct (survives (evicted k d) v) eqn:Hs.
    { destruct Hgone. by apply elem_of_filter_bool. }
    apply survives_false in Hs as (x & Hx & Hid).
    assert (x ∈ motionVideos d) by (by apply evicted_are_videos, videos_of_elem in Hx as [? _]).
    by rewrite (ids_determine_rows _ v x Hnd Hin).
  - intros Hold. assert (Hin : v ∈ motionVideos d)
      by (by apply evicted_are_videos, videos_of_elem in Hold as [? _]).
    split; [done|]. intros [_ Hs]%elem_of_filter_bool.
    by apply (survives_true _ _ v Hs Hold).
Qed.

Lemma insert_by_capturedAt_sorted v l :
  StronglySorted captured_before l →
  StronglySorted captured_before (insert_by_capturedAt v l).
Proof.
  induction 1 as [|x l Hsorted IH Hall]; cbn.
  - repeat constructor.
  - destruct (mv_capturedAt v <=? mv_capturedAt x) eqn:Hle.
    + apply Z.leb_le in Hle. constructor; [by constructor|].
      constructor; [exact Hle|].
      eapply Forall_impl; [exact Hall|]. unfold captured_before in *. cbn. intros. lia.
    + apply Z.leb_gt in Hle. constructor; [exact IH|].
      rewrite insert_by_capturedAt_perm. constructor; [|exact Hall].
      unfold captured_before. lia.
Qed.

Lemma order_by_capturedAt_sorted l :
  StronglySorted captured_before (order_by_capturedAt l).
Proof.
  induction l as [|x l IH]; cbn; [constructor|].
  by apply insert_by_capturedAt_sorted.
Qed.

Lemma sorted_take_drop n (l : list MotionVideo) x y :
  StronglySorted captured_before l →
  x ∈ take n l → y ∈ drop n l → captured_before x y.
Proof.
  intros Hsorted. revert n.
  induction Hsorted as [|v l _ IH Hall]; intros n Hx Hy.
  - rewrite take_nil in Hx. by apply elem_of_nil in Hx.
  - destruct n as [|n]; [by apply elem_of_nil in Hx|]. cbn in Hx, Hy.
    apply elem_of_cons in Hx as [->|Hx]; [|by apply (IH n)].
    rewrite Forall_forall in Hall. apply Hall.
    by apply subseteq_drop in Hy.
Qed.

(** X8. With unique primary keys, a retention run that reaches the
    database only deletes rows of its own device, and deletes oldest first:
    every deleted row was captured no later than every row of the device that
    is kept.  No row is added or altered, and the rows of every other device
    are the same as before. *)
Theorem retention_evicts_the_oldest k e w :
  env_db_cleanup e = true →
  NoDup (mv_id <$> motionVideos (db w)) →
  let w' := cleanup_old_videos k e w in
  (∀ v, v ∈ motionVideos (db w') → v ∈ motionVideos (db w))
  ∧ (∀ gone kept,
       gone ∈ motionVideos (db w) → gone ∉ motionVideos (db w') →
       kept ∈ videos_of k (db w') →
       mv_deviceId gone = k ∧ captured_before gone kept)
  ∧ (∀ other, other ≠ k → videos_of other (db w') = videos_of other (db w)).
Proof.
  intros Hdb Hnd w'. subst w'.
  rewrite (cleanup_old_videos_evicts k e w Hdb), db_foldl_delete_video.
  cbn [db record_call motionVideos]. split; [|split].
  - by intros v [? _]%elem_of_filter_bool.
  - intros gone kept Hin Hgone Hkept.
    assert (Hold : gone ∈ evicted k (db w)) by (by apply gone_iff_evicted).
    split; [by apply evicted_are_videos, videos_of_elem in Hold as [_ ?]|].
    apply videos_of_elem in Hkept as [Hkept Hdev]. cbn in Hkept.
    apply elem_of_filter_bool in Hkept as [Hkin Hs].
    unfold evicted in Hold, Hs.
    destruct (MAX_VIDEOS <=? _)%nat; [|by apply elem_of_nil in Hold].
    set (n := (length (videos_of k (db w)) - MAX_VIDEOS + 1)%nat) in *.
    apply (sorted_take_drop n (order_by_capturedAt (videos_of k (db w))));
      [apply order_by_capturedAt_sorted | exact Hold |].
    assert (Hsorted : kept ∈ order_by_capturedAt (videos_of k (db w)))
      by (rewrite order_by_capturedAt_perm; by apply videos_of_elem).
    rewrite <- (take_drop n (order_by_capturedAt _)) in Hsorted.
    apply elem_of_app in Hsorted as [Htake|Hdrop]; [|exact Hdrop].
    by destruct (survives_true _ _ kept Hs Htake).
  - intros other Hne. unfold videos_of. cbn [motionVideos].
    rewrite filter_swap. apply filter_survives_others.
    intros x y [Hx Hxdev]%videos_of_elem Hy Hid.
    assert (Hyv : y ∈ videos_of k (db w)) by (by apply evicted_are_videos).
    apply videos_of_elem in Hyv as [Hyin Hydev].
    rewrite (ids_determine_rows _ x y Hnd Hx Hyin Hid) in Hxdev. congruence.
Qed.

(** Membership of a row at a known position, and absence of a row by its id. *)
Ltac in_at i := apply (list_elem_of_lookup_2 _ i); vm_compute; reflexivity.

Ltac absent_by_id :=
  let H := fresh "Hin" in
  intros H; apply (list_elem_of_fmap_2 mv_id) in H; revert H;
  apply (bool_decide_unpack _); vm_compute; exact I.

Lemma retention_evicts_the_oldest_witness :
  mv_deviceId first_video = 7 ∧ captured_before first_video latest_video.
Proof.
  assert (Hnd : NoDup (mv_id <$> motionVideos (db crowded))).
  { apply (bool_decide_unpack _). vm_compute. exact I. }
  assert (Hin : first_video ∈ motionVideos (db crowded)) by in_at 0%nat.
  assert (Hgone : first_video
                  ∉ motionVideos (db (cleanup_old_videos 7 (at_time 9999 noon) crowded)))
    by absent_by_id.
  assert (Hkept : latest_video
                  ∈ videos_of 7 (db (cleanup_old_videos 7 (at_time 9999 noon) crowded)))
    by in_at 48%nat.
  exact (proj1 (proj2 (retention_evicts_the_oldest 7 (at_time 9999 noon) crowded
                         eq_refl Hnd)) first_video latest_video Hin Hgone Hkept).
Defined.

(** X9. What a retention run does to the files.  When the run reaches the
    database and commits (unique primary keys): every selected row is
    deleted, whether or not its file could be removed; the file of a deleted
    row is gone when [os.remove] succeeded and is left as it was when
    [os.remove] raised; every path that is not the path of a deleted row
    holds what it held before.  When the run fails at a statement nothing is
    committed, so no row is deleted, yet the files of the selected rows the
    loop had got to are gone wherever their removal succeeded. *)
Theorem retention_removes_file_with_row k e w :
  let w' := cleanup_old_videos k e w in
  (env_db_cleanup e = true →
   NoDup (mv_id <$> motionVideos (db w)) →
   (∀ v, v ∈ evicted k (db w) → v ∉ motionVideos (db w'))
   ∧ (∀ gone,
        gone ∈ motionVideos (db w) → gone ∉ motionVideos (db w') →
        fs w' !! mv_filepath gone
        = if env_remove_old e (mv_filepath gone) then None
          else fs w !! mv_filepath gone)
   ∧ (∀ p,
        (∀ gone, gone ∈ motionVideos (db w) → gone ∉ motionVideos (db w') →
                 mv_filepath gone ≠ p) →
        fs w' !! p = fs w !! p))
  ∧ (env_db_cleanup e = false →
     db w' = db w
     ∧ ∀ p,
         fs w' !! p
         = if bool_decide (p ∈ mv_filepath
                               <$> take (env_cleanup_reached e) (evicted k (db w)))
              && env_remove_old e p
           then None else fs w !! p).
Proof.
  intros w'. subst w'. split.
  - intros Hdb Hnd.
    rewrite (cleanup_old_videos_evicts k e w Hdb), db_foldl_delete_video.
    cbn [db record_call motionVideos]. split; [|split].
    + intros v Hv. by apply (gone_iff_evicted k (db w) v Hnd).
    + intros gone Hin Hgone. rewrite fs_foldl_delete_video. cbn [fs record_call].
      rewrite bool_decide_eq_true_2; [done|].
      apply list_elem_of_fmap_2. by apply gone_iff_evicted.
    + intros p Hkeep. rewrite fs_foldl_delete_video. cbn [fs record_call].
      rewrite bool_decide_eq_false_2; [done|].
      intros (x & Hp & Hx)%list_elem_of_fmap.
      apply (gone_iff_evicted k (db w) x Hnd) in Hx as [Hin Hgone].
      by apply (Hkeep x Hin Hgone).
  - intros Hdb. rewrite (cleanup_old_videos_fails k e w Hdb). split.
    + by rewrite (proj2 (proj2 (foldl_remove_old_file_keeps _ _ _))).
    + intros p. by rewrite fs_foldl_remove_old_file.
Qed.

Lemma retention_removes_file_with_row_witness :
  fs (cleanup_old_videos 7 (at_time 9999 noon) crowded) !! mv_filepath first_video = None
  ∧ ((first_video ∉ motionVideos (db (cleanup_old_videos 7 (remove_down 9999 noon) crowded)))
     ∧ fs (cleanup_old_videos 7 (remove_down 9999 noon) crowded) !! mv_filepath first_video
       = Some clip)
  ∧ (db (cleanup_old_videos 7 (statement_down 9999 noon) crowded) = db crowded
     ∧ first_video ∈ motionVideos (db crowded)
     ∧ fs (cleanup_old_videos 7 (statement_down 9999 noon) crowded)
       !! mv_filepath first_video = None).
Proof.
  assert (Hnd : NoDup (mv_id <$> motionVideos (db crowded))).
  { apply (bool_decide_unpack _). vm_compute. exact I. }
  assert (Hin : first_video ∈ motionVideos (db crowded)) by in_at 0%nat.
  assert (Hold : first_video ∈ evicted 7 (db crowded)) by in_at 0%nat.
  destruct (proj1 (retention_removes_file_with_row 7 (at_time 9999 noon) crowded)
              eq_refl Hnd) as (Hrows & Hfiles & _).
  destruct (proj1 (retention_removes_file_with_row 7 (remove_down 9999 noon) crowded)
              eq_refl Hnd) as (Hrows' & Hfiles' & _).
  destruct (proj2 (retention_removes_file_with_row 7 (statement_down 9999 noon) crowded)
              eq_refl) as (Hdb & Hfails).
  split; [|split].
  - rewrite (Hfiles first_video Hin (Hrows first_video Hold)).
    vm_compute. reflexivity.
  - split; [exact (Hrows' first_video Hold)|].
    rewrite (Hfiles' first_video Hin (Hrows' first_video Hold)).
    vm_compute. reflexivity.
  - split; [exact Hdb|]. split; [exact Hin|].
    rewrite (Hfails (mv_filepath first_video)).
    vm_compute. reflexivity.
Defined.

(** ** The number of videos a device keeps *)

Lemma count_videos_captures m w k :
  count_videos k (with_captures m w) = count_videos k w.
Proof. reflexivity. Qed.

(** X7. A commit whose retention run reaches the database leaves the device
    with one video more than before, capped at [MAX_VIDEOS - 1]: the number
    of videos of a device is below [MAX_VIDEOS] after every such commit. *)
Theorem commit_keeps_count_below_maximum device_id e w s out :
  active_captures w !! device_id = Some s →
  (5 ≤ length (frames s))%nat →
  env_encoder e = Some out →
  env_db_save e = true →
  env_db_cleanup e = true →
  keys_ok (db w) →
  count_videos (device_db_id s) (finalize_video device_id e w)
  = Nat.min (count_videos (device_db_id s) w + 1) (MAX_VIDEOS - 1)
  ∧ (count_videos (device_db_id s) (finalize_video device_id e w) < MAX_VIDEOS)%nat.
Proof.
  intros Hopen Hmany Henc Hsave Hdb Hok.
  assert (Hcount :
    count_videos (device_db_id s) (finalize_video device_id e w)
    = Nat.min (count_videos (device_db_id s) w + 1) (MAX_VIDEOS - 1)).
  { rewrite (finalize_video_encoded device_id e w s Hopen out Hmany Henc).
    unfold save_video_to_db. rewrite Hsave. cbv zeta.
    rewrite count_videos_captures, cleanup_old_videos_count; [|done|].
    - unfold count_videos, videos_of. cbn [db with_db motionVideos encoded_world].
      rewrite List.filter_app, length_app. cbn [List.filter mv_deviceId].
      rewrite Z.eqb_refl. cbn [length].
      match goal with |- context [(?a <=? ?b)%nat] =>
        destruct (a <=? b)%nat eqn:Hfull end.
      + apply Nat.leb_le in Hfull. unfold MAX_VIDEOS in *. lia.
      + apply Nat.leb_gt in Hfull. unfold MAX_VIDEOS in *. lia.
    - cbn. destruct Hok as (Hv & Hvlt & _).
      rewrite fmap_app. cbn. apply NoDup_snoc_fresh; [done|]. by rewrite Forall_fmap. }
  split; [exact Hcount|]. rewrite Hcount. unfold MAX_VIDEOS. lia.
Qed.

Lemma commit_keeps_count_below_maximum_witness :
  count_videos 7 (finalize_video cam1 (at_time 3 noon) five) = 1%nat.
Proof.
  assert (Hopen : active_captures five !! cam1 = Some five_session)
    by (vm_compute; reflexivity).
  assert (Hmany : (5 ≤ length (frames five_session))%nat) by (simpl; lia).
  assert (Hok : keys_ok (db five)).
  { apply (run_keys (replicate 4 (stream_msg, at_time 2 noon)) busy).
    apply (on_message_keys stream_msg (at_time 1 noon) opened).
    apply (on_message_keys (motion_msg "detected") (at_time 0 noon) idle).
    exact keys_ok_idle. }
  exact (proj1 (commit_keeps_count_below_maximum cam1 (at_time 3 noon) five five_session
                  clip Hopen Hmany eq_refl eq_refl eq_refl Hok)).
Defined.

(** ** From trigger to artifact *)

Lemma finalize_video_rows device_id e w s :
  active_captures w !! device_id = Some s →
  motionEvents (db (finalize_video device_id e w)) = motionEvents (db w)
  ∧ ∀ v, v ∈ motionVideos (db (finalize_video device_id e w)) →
         v ∈ motionVideos (db w)
         ∨ ∃ out, env_encoder e = Some out ∧ v = committed_row device_id s e out w.
Proof.
  intros Hopen.
  destruct (Nat.lt_ge_cases (length (frames s)) 5) as [Hfew|Hmany].
  { rewrite (finalize_video_abort device_id e w s Hopen Hfew). cbn. by split; [|left]. }
  destruct (env_encoder e) as [out|] eqn:Henc.
  - rewrite (finalize_video_encoded device_id e w s Hopen out Hmany Henc).
    unfold save_video_to_db. destruct (env_db_save e); cbv zeta; cbn [db with_captures].
    + match goal with |- context [cleanup_old_videos ?k e ?w2] =>
        destruct (cleanup_old_videos_db k e w2) as [old ->] end.
      cbn. split; [done|]. intros v [Hv _]%elem_of_filter_bool.
      apply elem_of_app in Hv as [Hv|Hv%list_elem_of_singleton]; [by left|].
      right. by exists out.
    + cbn. by split; [|left].
  - rewrite (finalize_video_encoder_failure device_id e w s Hopen Hmany Henc).
    cbn. by split; [|left].
Qed.

Lemma run_fifty device_id inputs w s :
  active_captures w !! device_id = Some s →
  frames s = [] →
  length inputs = 50%nat →
  Forall (valid_frame device_id) inputs →
  Forall (in_time s) (take 49 inputs) →
  ∃ i, last inputs = Some i
       ∧ run inputs w
         = finalize_video device_id i.2
             (with_captures (<[device_id := buffer s (images inputs)]> (active_captures w)) w).
Proof.
  intros Hopen Hempty Hlen Hvalid Htime.
  rewrite <- (take_drop 49 inputs) in Hvalid |- *.
  assert (Hpre : length (take 49 inputs) = 49%nat) by (rewrite length_take; lia).
  destruct (drop 49 inputs) as [|i [|? ?]] eqn:Hdrop;
    try (apply (f_equal length) in Hdrop; rewrite length_drop in Hdrop;
         cbn in Hdrop; lia).
  apply Forall_app in Hvalid as [Hvpre Hvlast].
  destruct (Forall_inv Hvlast) as [Hmsg [image Himg]].
  exists i. split; [apply last_snoc|].
  rewrite run_snoc.
  rewrite (run_pending device_id _ w s Hopen Hvpre Htime) by (rewrite Hempty, Hpre; cbn; lia).
  set (w1 := with_captures _ w).
  assert (Hopen1 : active_captures w1 !! device_id = Some (buffer s (images (take 49 inputs))))
    by apply lookup_insert_eq.
  assert (Hfull : completes (frames (buffer s (images (take 49 inputs))) ++ [image])
                            (buffer s (images (take 49 inputs))) i.2).
  { left. unfold buffer. cbn [frames]. rewrite Hempty. cbn [app].
    rewrite length_app, (images_length device_id) by done.
    rewrite Hpre. cbn. lia. }
  rewrite (proj1 (ingest device_id i.1 i.2 w1 _ image Hmsg Hopen1 Himg) Hfull).
  subst w1. unfold with_captures. cbn.
  by rewrite insert_insert_eq, buffer_buffer, (images_snoc _ i image Himg).
Qed.

(** X12. A trigger followed by fifty valid frames in time ties the artifact
    to its trigger: the motion event created by the trigger is in the
    events table, and any video row that was not there before carries that
    event's id and device key, the next video id, the nominal duration, and
    the name, path and byte size of the file the encoder wrote while the
    fiftieth frame was handled. *)
Theorem artifact_is_correlated_with_its_trigger device_id trigger e0 inputs w info :
  addressed (topic trigger) device_id (lit "motion") →
  says_detected (payload trigger) = true →
  get_device_info device_id e0 w = Some info →
  env_db_event e0 = true →
  next_event_id (db w) ≠ 0 →
  length inputs = 50%nat →
  Forall (valid_frame device_id) inputs →
  Forall (in_time (fresh_session info e0 w)) (take 49 inputs) →
  let w' := run inputs (on_message trigger e0 w) in
  fresh_event info e0 w ∈ motionEvents (db w')
  ∧ ∀ v, v ∈ motionVideos (db w') → v ∉ motionVideos (db w) →
      mv_motionEventId v = me_id (fresh_event info e0 w)
      ∧ mv_deviceId v = me_deviceId (fresh_event info e0 w)
      ∧ mv_id v = next_video_id (db w)
      ∧ mv_duration v = VIDEO_DURATION
      ∧ ∃ i out, last inputs = Some i
                 ∧ env_encoder i.2 = Some out
                 ∧ mv_filename v = artifact_name device_id (env_stamp i.2)
                 ∧ mv_filepath v = artifact_path device_id (env_stamp i.2)
                 ∧ mv_filesize v = Z.of_nat (length out)
                 ∧ mv_capturedAt v = env_db_now i.2.
Proof.
  intros Hmsg Hsays Hdev Hev Hid Hlen Hvalid Htime w'. subst w'.
  rewrite (on_message_motion trigger e0 w device_id Hmsg), Hsays.
  rewrite (start_video_capture_success device_id e0 w info Hdev Hev Hid).
  set (w0 := {| active_captures := _ |}).
  assert (Hopen : active_captures w0 !! device_id = Some (fresh_session info e0 w))
    by apply lookup_insert_eq.
  destruct (run_fifty device_id inputs w0 _ Hopen eq_refl Hlen Hvalid Htime)
    as (i & Hlast & ->).
  set (w2 := with_captures _ w0).
  assert (Hopen2 : active_captures w2 !! device_id
                   = Some (buffer (fresh_session info e0 w) (images inputs)))
    by apply lookup_insert_eq.
  destruct (finalize_video_rows device_id i.2 w2 _ Hopen2) as [Hevents Hrows].
  split.
  - rewrite Hevents. cbn. apply elem_of_app. right. apply list_elem_of_here.
  - intros v Hv Hnew. destruct (Hrows v Hv) as [Hold|(out & Henc & ->)]; [done|].
    cbn. repeat split. by exists i, out.
Qed.

Lemma artifact_is_correlated_with_its_trigger_witness :
  mv_motionEventId first_video = me_id (fresh_event garden (at_time 60 (stamp_at 1)) idle)
  ∧ mv_deviceId first_video = me_deviceId (fresh_event garden (at_time 60 (stamp_at 1)) idle).
Proof.
  assert (Hmsg : addressed (topic (motion_msg "detected")) cam1 (lit "motion"))
    by (exists (lit "device"), []; reflexivity).
  assert (Hid : next_event_id (db idle) ≠ 0) by (vm_compute; discriminate).
  assert (Hvalid : Forall (valid_frame cam1) (replicate 50 (stream_msg, at_time 61 (stamp_at 1)))).
  { apply Forall_replicate. split; [|by eexists].
    exists (lit "device"), []. reflexivity. }
  assert (Htime : Forall (in_time (fresh_session garden (at_time 60 (stamp_at 1)) idle))
                         (take 49 (replicate 50 (stream_msg, at_time 61 (stamp_at 1))))).
  { rewrite take_replicate. apply Forall_replicate. vm_compute. reflexivity. }
  assert (Hv : first_video
               ∈ motionVideos
                   (db (run (replicate 50 (stream_msg, at_time 61 (stamp_at 1)))
                            (on_message (motion_msg "detected")
                                        (at_time 60 (stamp_at 1)) idle))))
    by in_at 0%nat.
  assert (Hnew : first_video ∉ motionVideos (db idle)) by apply not_elem_of_nil.
  destruct (proj2 (artifact_is_correlated_with_its_trigger cam1 (motion_msg "detected")
                     (at_time 60 (stamp_at 1))
                     (replicate 50 (stream_msg, at_time 61 (stamp_at 1)))
                     idle garden Hmsg eq_refl eq_refl eq_refl Hid eq_refl Hvalid Htime)
                  first_video Hv Hnew) as (Hevent & Hdevice & _).
  split; [exact Hevent | exact Hdevice].
Defined.

(** ** Where artifacts are written *)

Lemma split_on_parts_without_sep sep s :
  Forall (fun p => sep ∉ p) (split_on sep s).
Proof.
  induction s as [|c s IH]; cbn.
  - repeat constructor. apply not_elem_of_nil.
  - destruct (c =? sep)%N eqn:Hc.
    + constructor; [apply not_elem_of_nil | exact IH].
    + destruct (split_on sep s) as [|p ps].
      * repeat constructor. intros [->|[]%elem_of_nil]%elem_of_cons.
        by rewrite N.eqb_refl in Hc.
      * apply Forall_cons in IH as [Hp Hps]. constructor; [|exact Hps].
        intros [->|Hin]%elem_of_cons; [by rewrite N.eqb_refl in Hc | done].
Qed.

Lemma routed_device_without_slash msg : slash ∉ routed_device msg.
Proof.
  unfold routed_device.
  pose proof (split_on_parts_without_sep slash (topic msg)) as Hall.
  destruct (nth_in_or_default 1 (split_on slash (topic msg)) []) as [Hin| ->].
  - rewrite Forall_forall in Hall. by apply Hall, list_elem_of_In.
  - apply not_elem_of_nil.
Qed.

Lemma artifact_path_inside device_id stamp :
  slash ∉ device_id → slash ∉ stamp →
  artifact_path device_id stamp = VIDEO_DIR ++ slash :: artifact_name device_id stamp
  ∧ slash ∉ artifact_name device_id stamp.
Proof.
  intros Hd Hs.
  assert (Hname : slash ∉ artifact_name device_id stamp).
  { unfold artifact_name. rewrite !not_elem_of_app. repeat split; try done.
    - intros [[=]|[]%elem_of_nil]%elem_of_cons.
    - vm_compute. intros Hin. repeat (apply elem_of_cons in Hin as [[=]|Hin]).
      by apply elem_of_nil in Hin. }
  split; [|exact Hname].
  unfold artifact_path, os_path_join.
  destruct (artifact_name device_id stamp) as [|c name] eqn:Hn.
  - destruct device_id; discriminate Hn.
  - destruct (c =? slash)%N eqn:Hc; [|reflexivity].
    apply N.eqb_eq in Hc. subst c. destruct Hname. apply list_elem_of_here.
Qed.

Lemma cleanup_old_videos_fs k e w p :
  fs (cleanup_old_videos k e w) !! p = None
  ∨ fs (cleanup_old_videos k e w) !! p = fs w !! p.
Proof.
  destruct (env_db_cleanup e) eqn:Hdb.
  - rewrite (cleanup_old_videos_evicts k e w Hdb), fs_foldl_delete_video.
    destruct (_ && _); [by left | by right].
  - rewrite (cleanup_old_videos_fails k e w Hdb), fs_foldl_remove_old_file.
    destruct (_ && _); [by left | by right].
Qed.

Lemma leave_frames_creates left dir frames : ∀ i files p,
  files !! p = None →
  is_Some (leave_frames left dir i frames files !! p) →
  ∃ j, left j = true ∧ p = frame_path dir j.
Proof.
  induction frames as [|frame_data rest IH]; intros i files p Hfree Hsome.
  - cbn in Hsome. rewrite Hfree in Hsome. by destruct Hsome.
  - cbn [leave_frames] in Hsome. destruct (left i) eqn:Hleft.
    + destruct (decide (p = frame_path dir i)) as [->|Hne]; [by exists i|].
      apply (IH (S i) (<[frame_path dir i := frame_data]> files) p); [|exact Hsome].
      by rewrite lookup_insert_ne.
    + by apply (IH (S i) files p).
Qed.

Lemma finalize_video_creates device_id e w p :
  fs w !! p = None →
  is_Some (fs (finalize_video device_id e w) !! p) →
  p = artifact_path device_id (env_stamp e)
  ∨ (env_encoder e = None
     ∧ ∃ i, env_encoder_left e i = true ∧ p = frame_path (temp_dir e) i).
Proof.
  intros Hfree. unfold finalize_video.
  destruct (active_captures w !! device_id) as [capture|];
    [|rewrite Hfree; by intros [? [=]]].
  destruct (length (frames capture) <? 5)%nat.
  { cbn. rewrite Hfree. by intros [? [=]]. }
  fold (artifact_name device_id (env_stamp e)).
  fold (artifact_path device_id (env_stamp e)).
  destruct (decide (p = artifact_path device_id (env_stamp e))) as [|Hne]; [by left|].
  unfold create_mjpeg_video.
  destruct (env_encoder e) as [out|].
  - intros Hsome. exfalso. revert Hsome.
    destruct (os_path_getsize _ _).
    + unfold save_video_to_db. destruct (env_db_save e); cbn [fs with_captures].
      * match goal with |- context [cleanup_old_videos ?k e ?w2] =>
          destruct (cleanup_old_videos_fs k e w2 p) as [-> | ->] end;
          [by intros [? [=]]|].
        cbn. rewrite lookup_insert_ne, Hfree by done. by intros [? [=]].
      * cbn. rewrite lookup_delete_ne, lookup_insert_ne, Hfree by done. by intros [? [=]].
    + cbn. rewrite lookup_insert_ne, Hfree by done. by intros [? [=]].
  - cbn [fs with_captures with_fs record_call]. intros Hsome. right. split; [done|].
    apply (leave_frames_creates _ _ (frames capture) 0%nat (fs w) p Hfree).
    destruct (env_encoder_partial e); [|exact Hsome].
    by rewrite lookup_insert_ne in Hsome.
Qed.

(** X10. The service creates files only inside [VIDEO_DIR]: for every
    message, whatever its topic, a path that held no file before and holds
    one afterwards is either [VIDEO_DIR], a slash, and a file name without
    any slash, namely device, underscore, time stamp and ".mjpeg"; or, and
    only when the encoder run returned False, the file of a frame in the
    temporary directory of that run,
    [VIDEO_DIR/temp_<seconds>/frame_<index>.jpg].  (The time stamp, digits
    and an underscore, contains no slash.) *)
Theorem files_appear_only_in_video_dir msg e w p :
  slash ∉ env_stamp e →
  fs w !! p = None →
  is_Some (fs (on_message msg e w) !! p) →
  (p = VIDEO_DIR ++ slash :: artifact_name (routed_device msg) (env_stamp e)
   ∧ slash ∉ artifact_name (routed_device msg) (env_stamp e))
  ∨ (env_encoder e = None
     ∧ ∃ i, env_encoder_left e i = true
            ∧ p = VIDEO_DIR ++ lit "/temp_" ++ str_of_int (env_temp_stamp e)
                  ++ lit "/frame_" ++ format_04d i ++ lit ".jpg").
Proof.
  intros Hstamp Hfree Hsome.
  destruct (artifact_path_inside (routed_device msg) (env_stamp e)
              (routed_device_without_slash msg) Hstamp) as [Hpath Hname].
  assert (Hcreated : p = artifact_path (routed_device msg) (env_stamp e)
                     ∨ (env_encoder e = None
                        ∧ ∃ i, env_encoder_left e i = true
                               ∧ p = frame_path (temp_dir e) i)).
  { revert Hsome. unfold on_message. fold (routed_device msg).
    destruct (length _ <? 3)%nat; [rewrite Hfree; by intros [? [=]]|].
    destruct (bool_decide (_ = lit "motion")).
    - destruct (decode_utf8 _); [|rewrite Hfree; by intros [? [=]]].
      destruct (bool_decide _); [|rewrite Hfree; by intros [? [=]]].
      unfold start_video_capture, create_motion_event.
      destruct (get_device_info _ _ _); [|rewrite Hfree; by intros [? [=]]].
      destruct (env_db_event e); [|rewrite Hfree; by intros [? [=]]].
      destruct (_ =? 0); cbn; rewrite Hfree; by intros [? [=]].
    - destruct (bool_decide _); [|rewrite Hfree; by intros [? [=]]].
      destruct (active_captures w !! routed_device msg); [|rewrite Hfree; by intros [? [=]]].
      unfold process_stream_message.
      destruct (env_image e); [|rewrite Hfree; by intros [? [=]]].
      destruct (active_captures w !! routed_device msg); [|rewrite Hfree; by intros [? [=]]].
      destruct (_ || _); [|cbn; rewrite Hfree; by intros [? [=]]].
      by apply finalize_video_creates. }
  destruct Hcreated as [->|(Henc & i & Hleft & ->)].
  - left. by split.
  - right. split; [exact Henc|]. exists i. split; [exact Hleft|].
    unfold frame_path, temp_dir. by rewrite <- !app_assoc.
Qed.

Lemma files_appear_only_in_video_dir_witness :
  artifact_path cam1 noon
  = VIDEO_DIR ++ slash :: artifact_name (routed_device stream_msg) noon.
Proof.
  assert (Hstamp : slash ∉ env_stamp (at_time 7 noon)).
  { vm_compute. intros Hin. repeat (apply elem_of_cons in Hin as [[=]|Hin]).
    by apply elem_of_nil in Hin. }
  assert (Hfree : fs five !! artifact_path cam1 noon = None) by (vm_compute; reflexivity).
  assert (Hsome : is_Some (fs (on_message stream_msg (at_time 7 noon) five)
                           !! artifact_path cam1 noon)).
  { exists clip. vm_compute. reflexivity. }
  destruct (files_appear_only_in_video_dir stream_msg (at_time 7 noon) five _
              Hstamp Hfree Hsome) as [[Hpath _]|[Henc _]].
  - exact Hpath.
  - discriminate Henc.
Defined.

(** ** Triggers with surrounding whitespace *)

Lemma decode_points_ascii_app a b :
  Forall (fun c => (c < 128)%N) a →
  decode_points (a ++ b) = (a ++.) <$> decode_points b.
Proof.
  induction 1 as [|c a Hc _ IH]; cbn [app].
  - by destruct (decode_points b).
  - cbn [decode_points]. apply N.ltb_lt in Hc. rewrite Hc, IH.
    by destruct (decode_points b).
Qed.

Lemma decode_points_ascii a :
  Forall (fun c => (c < 128)%N) a → decode_points a = Some a.
Proof.
  intros Ha. rewrite <- (app_nil_r a) at 1.
  rewrite (decode_points_ascii_app a [] Ha). cbn. by rewrite app_nil_r.
Qed.

Lemma lstrip_spaces a s :
  Forall (fun c => isspace c = true) a → lstrip (a ++ s) = lstrip s.
Proof. induction 1 as [|c a Hc _ IH]; [done|]. cbn [app lstrip]. by rewrite Hc. Qed.

Lemma strip_padded_detected a b :
  Forall (fun c => isspace c = true) a →
  Forall (fun c => isspace c = true) b →
  strip (a ++ lit "detected" ++ b) = lit "detected".
Proof.
  intros Ha Hb. unfold strip. rewrite (lstrip_spaces a _ Ha).
  change (lstrip (lit "detected" ++ b)) with (lit "detected" ++ b).
  rewrite rev_app_distr, lstrip_spaces.
  - reflexivity.
  - rewrite Forall_forall in Hb |- *. intros c Hc%list_elem_of_In.
    apply Hb. apply list_elem_of_In. by apply in_rev.
Qed.

(** X11. A motion payload that reads "detected" with any amount of ASCII
    whitespace (blanks, tabs, line ends) before and after it is a trigger
    like the bare word: the message is handed to [start_video_capture]. *)
Theorem padded_detected_is_a_trigger msg device_id e w before after :
  addressed (topic msg) device_id (lit "motion") →
  Forall ascii_space before →
  Forall ascii_space after →
  payload msg = before ++ blit "detected" ++ after →
  says_detected (payload msg) = true
  ∧ on_message msg e w = start_video_capture device_id e w.
Proof.
  intros Hmsg Hbefore Hafter Hpayload.
  assert (Hsays : says_detected (payload msg) = true).
  { unfold says_detected, decode_utf8. apply bool_decide_eq_true_2.
    rewrite Hpayload, !fmap_app.
    rewrite decode_points_ascii_app
      by (rewrite Forall_fmap; eapply Forall_impl; [exact Hbefore|]; by intros ? [? _]).
    change (Byte.to_N <$> blit "detected") with (lit "detected").
    rewrite (decode_points_ascii_app (lit "detected"))
      by (vm_compute; repeat constructor).
    rewrite decode_points_ascii
      by (rewrite Forall_fmap; eapply Forall_impl; [exact Hafter|]; by intros ? [? _]).
    cbn [fmap option_fmap option_map]. f_equal.
    apply strip_padded_detected; rewrite Forall_fmap;
      (eapply Forall_impl; [eassumption|]); by intros ? [_ ?]. }
  split; [exact Hsays|].
  by rewrite (on_message_motion msg e w device_id Hmsg), Hsays.
Qed.

Lemma padded_detected_is_a_trigger_witness :
  on_message {| topic := lit "device/cam1/motion";
                payload := [x20; x09]%byte ++ blit "detected" ++ [x0d; x0a]%byte |}
             (at_time 0 noon) idle
  = start_video_capture cam1 (at_time 0 noon) idle.
Proof.
  refine (proj2 (padded_detected_is_a_trigger
                   {| topic := lit "device/cam1/motion";
                      payload := [x20; x09]%byte ++ blit "detected" ++ [x0d; x0a]%byte |}
                   cam1 (at_time 0 noon) idle [x20; x09]%byte [x0d; x0a]%byte
                   _ _ _ eq_refl)).
  - exists (lit "device"), []. reflexivity.
  - repeat constructor.
  - repeat constructor.
Defined.

(** * Further properties of the notification handler *)

Lemma marked_fresh evs next :
  Forall (fun ev => Notify.me_id ev < next) evs → marked next <$> evs = evs.
Proof.
  induction 1 as [|r evs Hr _ IH]; [done|]. cbn. rewrite IH. f_equal.
  unfold marked. destruct (Notify.me_id r =? next) eqn:Heq; [|done].
  apply Z.eqb_eq in Heq. lia.
Qed.

Section NotifyPaths.

Variables (url key : str) (msg : Notify.Msg) (e : Notify.Env) (w : Notify.World).

(** The path on which a message is accepted and an event recorded. *)
Variables (text device_id : str) (info : Notify.DeviceInfo).
Hypothesis Hdecode : decode_utf8 (Notify.payload msg) = Some text.
Hypothesis Htopic :
  split_on slash (Notify.topic msg) = [lit "device"; device_id; lit "motion"].
Hypothesis Hjson : Notify.env_json e = true.
Hypothesis Hdevice : Notify.get_device_info device_id e w = Some info.
Hypothesis Hrecord : Notify.env_db_record e = true.
Hypothesis Hid : Notify.next_event_id (Notify.db w) ≠ 0.

Lemma notify_on_message_recorded :
  Notify.on_message url key msg e w =
    let w1 := Notify.with_events
                (Notify.motionEvents (Notify.db w)
                 ++ [unsent_event (Notify.di_id info) e w])
                (Notify.next_event_id (Notify.db w) + 1) w in
    let '(notification_sent, w2) :=
      Notify.send_push_notification_to_device_users url key
        (Notify.di_id info) (Notify.di_name info) (Notify.di_deviceId info) e w1 in
    if notification_sent
    then Notify.mark_notification_sent (Notify.next_event_id (Notify.db w)) e w2
    else w2.
Proof.
  unfold Notify.on_message. rewrite Hdecode, Htopic. cbn [length nth].
  rewrite Nat.eqb_refl, !bool_decide_eq_true_2 by reflexivity.
  cbn [negb orb]. rewrite Hjson, Hdevice. cbn [negb].
  unfold Notify.record_motion_event. rewrite Hrecord.
  apply Z.eqb_neq in Hid. rewrite Hid. reflexivity.
Qed.

Lemma notify_on_message_delivered :
  url ≠ [] → key ≠ [] →
  Notify.env_http e = Notify.HttpResponse 200 true →
  Notify.on_message url key msg e w =
    Notify.mark_notification_sent (Notify.next_event_id (Notify.db w)) e
      {| Notify.db :=
           {| Notify.devices := Notify.devices (Notify.db w);
              Notify.users := Notify.users (Notify.db w);
              Notify.motionEvents :=
                Notify.motionEvents (Notify.db w)
                ++ [unsent_event (Notify.di_id info) e w];
              Notify.next_event_id := Notify.next_event_id (Notify.db w) + 1 |};
         Notify.calls :=
           Notify.CallPost (Notify.di_id info) (Notify.di_name info)
             (Notify.di_deviceId info) :: Notify.calls w |}.
Proof.
  intros Hurl Hkey Hhttp. rewrite notify_on_message_recorded. cbv zeta.
  unfold Notify.send_push_notification_to_device_users.
  destruct url; [done|]. destruct key; [done|]. by rewrite Hhttp.
Qed.

End NotifyPaths.

(** X13. When a message is accepted, its event recorded, the API configured
    and the HTTP call answered with a readable status 200, then, event ids
    being below the counter, the handler posts once and, if the update
    reaches the database, the new event and only the new event ends with
    notificationSent = 1; if the update does not reach the database the
    event stays recorded with notificationSent = 0 although the notification
    went out. *)
Theorem delivered_notification_marks_its_event
    url key msg e w text device_id info :
  decode_utf8 (Notify.payload msg) = Some text →
  split_on slash (Notify.topic msg) = [lit "device"; device_id; lit "motion"] →
  Notify.env_json e = true →
  Notify.get_device_info device_id e w = Some info →
  Notify.env_db_record e = true →
  Notify.next_event_id (Notify.db w) ≠ 0 →
  url ≠ [] → key ≠ [] →
  Notify.env_http e = Notify.HttpResponse 200 true →
  event_keys_ok (Notify.db w) →
  let w' := Notify.on_message url key msg e w in
  Notify.calls w'
  = Notify.CallPost (Notify.di_id info) (Notify.di_name info) (Notify.di_deviceId info)
    :: Notify.calls w
  ∧ (Notify.env_db_mark e = true →
     Notify.motionEvents (Notify.db w')
     = Notify.motionEvents (Notify.db w) ++ [sent_event (Notify.di_id info) e w])
  ∧ (Notify.env_db_mark e = false →
     Notify.motionEvents (Notify.db w')
     = Notify.motionEvents (Notify.db w) ++ [unsent_event (Notify.di_id info) e w]).
Proof.
  intros Hdecode Htopic Hjson Hdevice Hrecord Hid Hurl Hkey Hhttp Hkeys w'. subst w'.
  rewrite (notify_on_message_delivered url key msg e w text device_id info
             Hdecode Htopic Hjson Hdevice Hrecord Hid Hurl Hkey Hhttp).
  unfold Notify.mark_notification_sent.
  destruct (Notify.env_db_mark e); (split; [reflexivity|]); split; try discriminate;
    intros _; cbn; [|reflexivity].
  rewrite fmap_app. fold (marked (Notify.next_event_id (Notify.db w))).
  rewrite (marked_fresh _ _ Hkeys). cbn. unfold marked. cbn.
  by rewrite Z.eqb_refl.
Qed.

Lemma delivered_notification_marks_its_event_witness :
  Notify.motionEvents
    (Notify.db (Notify.on_message api_url api_key json_motion_msg
                  (answering (Notify.HttpResponse 200 true)) registry))
  = [sent_event 7 (answering (Notify.HttpResponse 200 true)) registry].
Proof.
  assert (Hid : Notify.next_event_id (Notify.db registry) ≠ 0) by (vm_compute; discriminate).
  assert (Hurl : api_url ≠ []) by discriminate.
  assert (Hkey : api_key ≠ []) by discriminate.
  assert (Hkeys : event_keys_ok (Notify.db registry)) by constructor.
  exact (proj1 (proj2 (delivered_notification_marks_its_event api_url api_key
           json_motion_msg (answering (Notify.HttpResponse 200 true)) registry
           (lit "{}") cam1 garden_info eq_refl eq_refl eq_refl eq_refl eq_refl
           Hid Hurl Hkey eq_refl Hkeys)) eq_refl).
Defined.

(** ** Every way a message can go *)

Lemma notify_on_message_shape url key msg e w :
  Notify.on_message url key msg e w = w
  ∨ ∃ info,
      Notify.get_device_info (nth 1 (split_on slash (Notify.topic msg)) []) e w = Some info
      ∧ Notify.env_db_record e = true
      ∧ ((Notify.motionEvents (Notify.db (Notify.on_message url key msg e w))
          = Notify.motionEvents (Notify.db w) ++ [unsent_event (Notify.di_id info) e w]
          ∧ Notify.calls (Notify.on_message url key msg e w) = Notify.calls w)
         ∨ (url ≠ [] ∧ key ≠ []
            ∧ Notify.calls (Notify.on_message url key msg e w)
              = Notify.CallPost (Notify.di_id info) (Notify.di_name info)
                  (Notify.di_deviceId info) :: Notify.calls w
            ∧ (Notify.motionEvents (Notify.db (Notify.on_message url key msg e w))
               = Notify.motionEvents (Notify.db w)
                 ++ [unsent_event (Notify.di_id info) e w]
               ∨ (Notify.env_http e = Notify.HttpResponse 200 true
                  ∧ Notify.motionEvents (Notify.db (Notify.on_message url key msg e w))
                    = marked (Notify.next_event_id (Notify.db w))
                        <$> (Notify.motionEvents (Notify.db w)
                             ++ [unsent_event (Notify.di_id info) e w]))))).
Proof.
  unfold Notify.on_message.
  destruct (decode_utf8 _); [|by left].
  destruct (_ || _); [by left|].
  destruct (negb _); [by left|].
  destruct (Notify.get_device_info _ _ _) as [info|]; [|by left].
  unfold Notify.record_motion_event.
  destruct (Notify.env_db_record e); [|by left].
  right. exists info. split; [done|]. split; [done|].
  fold (unsent_event (Notify.di_id info) e w).
  destruct (_ =? 0); [by left|].
  unfold Notify.send_push_notification_to_device_users.
  destruct url as [|u0 url']; [by left|].
  destruct key as [|k0 key']; [by left|].
  right. split; [done|]. split; [done|].
  destruct (Notify.env_http e) as [status_code body_ok|]; [|by split; [|left]].
  destruct (status_code =? 200) eqn:Hcode; [|by split; [|left]].
  apply Z.eqb_eq in Hcode. subst status_code.
  destruct body_ok; [|by split; [|left]].
  unfold Notify.mark_notification_sent.
  destruct (Notify.env_db_mark e); [|by split; [|left]].
  split; [done|]. right. by split.
Qed.

Lemma find_none_when_absent {A} (f : A → bool) l :
  (∀ x, x ∈ l → f x = false) → List.find f l = None.
Proof.
  induction l as [|x l IH]; intros Hall; [done|]. cbn.
  rewrite (Hall x (list_elem_of_here _ _)). apply IH.
  intros y Hy. apply Hall. by apply list_elem_of_further.
Qed.

Lemma notify_get_device_info_none device_id e w :
  Notify.env_db_devices e = false
  ∨ (∀ d, d ∈ Notify.devices (Notify.db w) →
          Notify.dev_deviceId d = device_id →
          Notify.dev_isActive d ≠ 1
          ∨ ∀ u, u ∈ Notify.users (Notify.db w) → Notify.user_id u ≠ Notify.dev_ownerId d) →
  Notify.get_device_info device_id e w = None.
Proof.
  unfold Notify.get_device_info. intros [->|Hall]; [done|].
  destruct (Notify.env_db_devices e); [|done].
  induction (Notify.devices (Notify.db w)) as [|d ds IH]; [done|]. cbn.
  assert (Hd : (if bool_decide (Notify.dev_deviceId d = device_id)
                   && (Notify.dev_isActive d =? 1)
                then (fun u => {| Notify.di_id := Notify.dev_id d;
                                  Notify.di_ownerId := Notify.dev_ownerId d;
                                  Notify.di_name := Notify.dev_name d;
                                  Notify.di_deviceId := Notify.dev_deviceId d;
                                  Notify.di_email := Notify.user_email u;
                                  Notify.di_userName := Notify.user_name u |})
                       <$> List.find (fun u => Notify.user_id u =? Notify.dev_ownerId d)
                                     (Notify.users (Notify.db w))
                else None) = None).
  { destruct (bool_decide _) eqn:Hname; [|done].
    apply bool_decide_eq_true_1 in Hname.
    destruct (Notify.dev_isActive d =? 1) eqn:Hact; [|done]. cbn.
    apply Z.eqb_eq in Hact.
    destruct (Hall d (list_elem_of_here _ _) Hname) as [Hoff|Howner]; [done|].
    rewrite find_none_when_absent; [done|].
    intros u Hu. by apply Z.eqb_neq, Howner. }
  rewrite Hd. apply IH. intros d' Hd'. apply Hall. by apply list_elem_of_further.
Qed.

(** X14. The handler ignores, without writing anything and without calling
    the notification API, every message whose payload is not UTF-8, whose
    first topic segment is not "device", whose third is not "motion", whose
    payload is not JSON, or whose device is not found: because the lookup
    fails, or because every device of that name is inactive or has no owner
    in the users table.  The same holds when the event cannot be recorded. *)
Theorem unaccepted_notification_message_changes_nothing url key msg e w :
  decode_utf8 (Notify.payload msg) = None
  ∨ nth 0 (split_on slash (Notify.topic msg)) [] ≠ lit "device"
  ∨ nth 2 (split_on slash (Notify.topic msg)) [] ≠ lit "motion"
  ∨ Notify.env_json e = false
  ∨ Notify.env_db_devices e = false
  ∨ (∀ d, d ∈ Notify.devices (Notify.db w) →
          Notify.dev_deviceId d = nth 1 (split_on slash (Notify.topic msg)) [] →
          Notify.dev_isActive d ≠ 1
          ∨ ∀ u, u ∈ Notify.users (Notify.db w) → Notify.user_id u ≠ Notify.dev_ownerId d)
  ∨ Notify.env_db_record e = false →
  Notify.on_message url key msg e w = w.
Proof.
  intros Hwhy. unfold Notify.on_message.
  destruct (decode_utf8 _) as [text|] eqn:Hdec; [|reflexivity].
  destruct Hwhy as [Hwhy|Hwhy]; [discriminate|].
  destruct (negb (length _ =? 3)%nat); [reflexivity|]. cbn [orb].
  destruct (decide (nth 0 (split_on slash (Notify.topic msg)) [] = lit "device"))
    as [Hns|Hns]; [|by rewrite (bool_decide_eq_false_2 _ Hns)].
  rewrite (bool_decide_eq_true_2 _ Hns). cbn [negb orb].
  destruct Hwhy as [Hwhy|Hwhy]; [done|].
  destruct (decide (nth 2 (split_on slash (Notify.topic msg)) [] = lit "motion"))
    as [Hkind|Hkind]; [|by rewrite (bool_decide_eq_false_2 _ Hkind)].
  rewrite (bool_decide_eq_true_2 _ Hkind). cbn [negb].
  destruct Hwhy as [Hwhy|Hwhy]; [done|].
  destruct (Notify.env_json e) eqn:Hjson; [|reflexivity]. cbn [negb].
  destruct Hwhy as [Hwhy|Hwhy]; [discriminate|].
  destruct (Notify.get_device_info _ e w) as [info|] eqn:Hinfo; [|reflexivity].
  destruct Hwhy as [Hwhy|[Hwhy|Hwhy]].
  - rewrite notify_get_device_info_none in Hinfo by (by left). discriminate.
  - rewrite notify_get_device_info_none in Hinfo by (by right). discriminate.
  - unfold Notify.record_motion_event. by rewrite Hwhy.
Qed.

Lemma unaccepted_notification_message_changes_nothing_witness :
  Notify.on_message api_url api_key
    {| Notify.topic := lit "birdhouse/cam1/motion"; Notify.payload := blit "{}" |}
    (answering (Notify.HttpResponse 200 true)) registry = registry.
Proof.
  apply unaccepted_notification_message_changes_nothing.
  right; left. vm_compute. discriminate.
Defined.

(** X15. The handler never notifies without a record: whenever handling a
    message calls the notification API, it calls it exactly once, the API is
    configured, the device was found, and the events table has grown by one
    event of that device carrying the id the counter held. *)
Theorem notification_implies_recorded_event url key msg e w :
  Notify.calls (Notify.on_message url key msg e w) ≠ Notify.calls w →
  ∃ info row,
    Notify.get_device_info (nth 1 (split_on slash (Notify.topic msg)) []) e w = Some info
    ∧ url ≠ [] ∧ key ≠ []
    ∧ Notify.calls (Notify.on_message url key msg e w)
      = Notify.CallPost (Notify.di_id info) (Notify.di_name info) (Notify.di_deviceId info)
        :: Notify.calls w
    ∧ length (Notify.motionEvents (Notify.db (Notify.on_message url key msg e w)))
      = S (length (Notify.motionEvents (Notify.db w)))
    ∧ last (Notify.motionEvents (Notify.db (Notify.on_message url key msg e w))) = Some row
    ∧ Notify.me_id row = Notify.next_event_id (Notify.db w)
    ∧ Notify.me_deviceId row = Notify.di_id info.
Proof.
  intros Hcalled.
  destruct (notify_on_message_shape url key msg e w)
    as [Hsame|(info & Hinfo & _ & [[_ Hcalls]|(Hurl & Hkey & Hcalls & Hevents)])].
  - by rewrite Hsame in Hcalled.
  - done.
  - destruct Hevents as [Hevents|[_ Hevents]].
    + exists info, (unsent_event (Notify.di_id info) e w).
      rewrite Hevents, length_app, last_snoc. cbn. repeat split; try done. lia.
    + exists info, (marked (Notify.next_event_id (Notify.db w))
                      (unsent_event (Notify.di_id info) e w)).
      rewrite Hevents, fmap_app, length_app, length_fmap. cbn [fmap list_fmap].
      rewrite last_snoc. unfold marked. cbn. rewrite Z.eqb_refl. cbn.
      repeat split; try done. lia.
Qed.

Lemma notification_implies_recorded_event_witness :
  ∃ info row,
    Notify.get_device_info cam1 (answering (Notify.HttpResponse 500 false)) registry
    = Some info
    ∧ last (Notify.motionEvents
              (Notify.db (Notify.on_message api_url api_key json_motion_msg
                            (answering (Notify.HttpResponse 500 false)) registry)))
      = Some row
    ∧ Notify.me_deviceId row = Notify.di_id info.
Proof.
  assert (Hcalled :
    Notify.calls (Notify.on_message api_url api_key json_motion_msg
                    (answering (Notify.HttpResponse 500 false)) registry)
    ≠ Notify.calls registry) by (vm_compute; discriminate).
  destruct (notification_implies_recorded_event api_url api_key json_motion_msg
              (answering (Notify.HttpResponse 500 false)) registry Hcalled)
    as (info & row & Hinfo & _ & _ & _ & _ & Hlast & _ & Hdev).
  exists info, row. repeat split; assumption.
Defined.

(** X16. The events table is a history: handling a message never removes or
    reorders events, never changes an event's id, device or time, and never
    takes a notificationSent flag back; an existing row is either untouched
    or has its flag set to 1. *)
Theorem event_history_is_kept url key msg e w i row :
  Notify.motionEvents (Notify.db w) !! i = Some row →
  ∃ row',
    Notify.motionEvents (Notify.db (Notify.on_message url key msg e w)) !! i = Some row'
    ∧ Notify.me_id row' = Notify.me_id row
    ∧ Notify.me_deviceId row' = Notify.me_deviceId row
    ∧ Notify.me_detectedAt row' = Notify.me_detectedAt row
    ∧ (row' = row ∨ Notify.me_notificationSent row' = 1).
Proof.
  intros Hrow.
  destruct (notify_on_message_shape url key msg e w)
    as [->|(info & _ & _ & [[-> _]|(_ & _ & _ & [->|[_ ->]])])].
  - exists row. by repeat split; [|left].
  - exists row. rewrite lookup_app_l by (by eapply lookup_lt_Some).
    by repeat split; [|left].
  - exists row. rewrite lookup_app_l by (by eapply lookup_lt_Some).
    by repeat split; [|left].
  - exists (marked (Notify.next_event_id (Notify.db w)) row).
    split.
    { rewrite list_lookup_fmap, lookup_app_l by (by eapply lookup_lt_Some).
      by rewrite Hrow. }
    unfold marked. destruct (Notify.me_id row =? _); cbn.
    + repeat split. by right.
    + repeat split. by left.
Qed.

Lemma event_history_is_kept_witness :
  ∃ row',
    Notify.motionEvents
      (Notify.db (Notify.on_message api_url api_key json_motion_msg
                    (answering (Notify.HttpResponse 200 true))
                    (Notify.on_message api_url api_key json_motion_msg
                       (answering Notify.HttpError) registry))) !! 0%nat = Some row'
    ∧ Notify.me_id row' = 1.
Proof.
  destruct (event_history_is_kept api_url api_key json_motion_msg
              (answering (Notify.HttpResponse 200 true))
              (Notify.on_message api_url api_key json_motion_msg
                 (answering Notify.HttpError) registry)
              0%nat (unsent_event 7 (answering Notify.HttpError) registry) eq_refl)
    as (row' & Hrow & Hid & _).
  exists row'. split; [exact Hrow | exact Hid].
Defined.

(** * Database URLs *)

(** ** The string functions the parsers rely on *)

Lemma startswith_app old r : startswith old (old ++ r) = true.
Proof. induction old as [|c old IH]; [by destruct r|]. cbn. by rewrite N.eqb_refl. Qed.

Lemma startswith_inv old : ∀ t, startswith old t = true → ∃ r, t = old ++ r.
Proof.
  induction old as [|c old IH]; intros t Ht; [by exists t|].
  destruct t as [|d t]; [discriminate|]. cbn in Ht.
  apply andb_true_iff in Ht as [->%N.eqb_eq Ht].
  destruct (IH t Ht) as [r ->]. by exists r.
Qed.

Lemma replace_from_skip old new a : ∀ rest,
  replace_from old new (length a) (a ++ rest) = replace_from old new 0 rest.
Proof.
  induction a as [|c a IH]; intros rest; cbn; [|apply IH].
  by destruct rest.
Qed.

Lemma first_sep_unique sep (m : str) : ∀ a x y,
  sep ∉ m → sep ∉ a → m ++ sep :: x = a ++ sep :: y → m = a ∧ x = y.
Proof.
  induction m as [|c m IH]; intros [|d a] x y Hm Ha Heq; cbn in Heq.
  - by injection Heq.
  - injection Heq as <- _. destruct Ha. apply list_elem_of_here.
  - injection Heq as -> _. destruct Hm. apply list_elem_of_here.
  - injection Heq as -> Heq. apply not_elem_of_cons in Hm as [_ Hm].
    apply not_elem_of_cons in Ha as [_ Ha].
    destruct (IH a x y Hm Ha Heq) as [-> ->]. done.
Qed.

Lemma scheme_has_slash r : slash ∈ lit "mysql://" ++ r.
Proof. apply elem_of_app. left. vm_compute. do 6 apply list_elem_of_further. apply list_elem_of_here. Qed.

Lemma replace_from_no_slash new s :
  slash ∉ s → replace_from (lit "mysql://") new 0 s = s.
Proof.
  induction s as [|c s IH]; intros Hs; [done|].
  cbn [replace_from].
  destruct (startswith (lit "mysql://") (c :: s)) eqn:Hstart.
  - apply startswith_inv in Hstart as [r Hr]. destruct Hs. rewrite Hr.
    apply scheme_has_slash.
  - f_equal. apply IH. by apply not_elem_of_cons in Hs as [_ ?].
Qed.

Lemma replace_from_one_slash new a b :
  slash ∉ a → slash ∉ b →
  replace_from (lit "mysql://") new 0 (a ++ slash :: b) = a ++ slash :: b.
Proof.
  intros Ha Hb. induction a as [|c a IH].
  - cbn. f_equal. by apply replace_from_no_slash.
  - cbn [app replace_from].
    destruct (startswith (lit "mysql://") (c :: a ++ slash :: b)) eqn:Hstart.
    + apply startswith_inv in Hstart as [r Hr].
      change (lit "mysql://" ++ r) with (lit "mysql:" ++ slash :: slash :: r) in Hr.
      symmetry in Hr.
      apply (first_sep_unique slash (lit "mysql:") (c :: a)) in Hr as [_ Hr]; [|
        vm_compute; intros Hin; repeat (apply elem_of_cons in Hin as [[=]|Hin]);
        by apply elem_of_nil in Hin | done].
      destruct Hb. rewrite <- Hr. apply list_elem_of_here.
    + f_equal. apply IH. by apply not_elem_of_cons in Ha as [_ ?].
Qed.

Lemma replace_scheme rest :
  replace (lit "mysql://") [] (lit "mysql://" ++ rest)
  = replace_from (lit "mysql://") [] 0 rest.
Proof.
  change (replace (lit "mysql://") [] (lit "mysql://" ++ rest))
    with (replace_from (lit "mysql://") [] 0 (lit "mysql://" ++ rest)).
  change (lit "mysql://" ++ rest) with (109%N :: (lit "ysql://" ++ rest)) at 1.
  cbn [replace_from].
  change (109%N :: lit "ysql://" ++ rest) with (lit "mysql://" ++ rest).
  rewrite startswith_app. cbn [app].
  apply (replace_from_skip (lit "mysql://") [] (lit "ysql://")).
Qed.

Lemma replace_from_subset old c : ∀ s skip,
  c ∈ replace_from old [] skip s → c ∈ s.
Proof.
  induction s as [|d s IH]; intros skip Hc; [done|]. cbn in Hc.
  destruct skip as [|k].
  - destruct (startswith old (d :: s)).
    + apply list_elem_of_further. by eapply IH.
    + apply elem_of_cons in Hc as [->|Hc]; [apply list_elem_of_here|].
      apply list_elem_of_further. by eapply IH.
  - apply list_elem_of_further. by eapply IH.
Qed.

Lemma contains_char c s : contains [c] s = true ↔ c ∈ s.
Proof.
  induction s as [|d s IH]; cbn.
  - split; [discriminate | by intros ?%elem_of_nil].
  - rewrite orb_true_iff, andb_true_r, N.eqb_eq, IH, elem_of_cons. tauto.
Qed.

Lemma contains_char_false c s : c ∉ s → contains [c] s = false.
Proof. intros Hc. apply not_true_is_false. by rewrite contains_char. Qed.

Lemma split_once_none sep s : sep ∉ s → split_once sep s = [s].
Proof.
  induction s as [|c s IH]; intros Hs; [done|]. cbn.
  apply not_elem_of_cons in Hs as [Hc Hs].
  rewrite (proj2 (N.eqb_neq c sep)) by congruence. by rewrite IH.
Qed.

Lemma split_once_first sep a b : sep ∉ a → split_once sep (a ++ sep :: b) = [a; b].
Proof.
  induction a as [|c a IH]; intros Ha; cbn.
  - by rewrite N.eqb_refl.
  - apply not_elem_of_cons in Ha as [Hc Ha].
    rewrite (proj2 (N.eqb_neq c sep)) by congruence. by rewrite IH.
Qed.

Lemma split_on_none sep s : sep ∉ s → split_on sep s = [s].
Proof.
  induction s as [|c s IH]; intros Hs; [done|]. cbn.
  apply not_elem_of_cons in Hs as [Hc Hs].
  rewrite (proj2 (N.eqb_neq c sep)) by congruence. by rewrite IH.
Qed.

Lemma split_on_first sep a b :
  sep ∉ a → split_on sep (a ++ sep :: b) = a :: split_on sep b.
Proof.
  induction a as [|c a IH]; intros Ha; cbn.
  - by rewrite N.eqb_refl.
  - apply not_elem_of_cons in Ha as [Hc Ha].
    rewrite (proj2 (N.eqb_neq c sep)) by congruence. by rewrite IH.
Qed.

(** ** Reading a well-formed URL *)

Section WellFormedUrl.

Variables user password authority database : str.
Hypothesis Huser_at : at_sign ∉ user.
Hypothesis Huser_colon : colon ∉ user.
Hypothesis Huser_slash : slash ∉ user.
Hypothesis Hpassword_at : at_sign ∉ password.
Hypothesis Hpassword_slash : slash ∉ password.
Hypothesis Hauthority_slash : slash ∉ authority.
Hypothesis Hdatabase_slash : slash ∉ database.

Lemma database_url_body :
  replace (lit "mysql://") [] (database_url user password authority database)
  = (user ++ colon :: password) ++ at_sign :: authority ++ slash :: database.
Proof.
  unfold database_url. rewrite replace_scheme.
  assert (Hshape : user ++ colon :: password ++ at_sign :: authority ++ slash :: database
                   = (user ++ colon :: password ++ at_sign :: authority) ++ slash :: database)
    by (repeat (rewrite <- app_assoc; cbn [app]); reflexivity).
  rewrite Hshape, replace_from_one_slash; [|
    rewrite !not_elem_of_app, !not_elem_of_cons, !not_elem_of_app, !not_elem_of_cons;
    repeat split; try done | done].
  by repeat (rewrite <- app_assoc; cbn [app]).
Qed.

Lemma credentials_without_at : at_sign ∉ user ++ colon :: password.
Proof. rewrite not_elem_of_app, not_elem_of_cons. repeat split; done. Qed.

Lemma parse_database_url_authority py_int :
  Notify.parse_database_url py_int (database_url user password authority database)
  = match py_int (if contains [colon] authority
                  then nth 1 (split_once colon authority) [] else lit "3306") with
    | None => inl Notify.InvalidPort
    | Some port_number =>
        inr {| Notify.cfg_host := if contains [colon] authority
                                  then nth 0 (split_once colon authority) []
                                  else authority;
               Notify.cfg_port := port_number;
               Notify.cfg_user := user;
               Notify.cfg_password := password;
               Notify.cfg_database := database |}
    end.
Proof.
  unfold Notify.parse_database_url.
  assert (Hscheme : startswith (lit "mysql://")
                      (database_url user password authority database) = true)
    by apply startswith_app.
  rewrite Hscheme, database_url_body. cbn [negb].
  rewrite (proj2 (contains_char at_sign _))
    by (apply elem_of_app; right; apply list_elem_of_here).
  rewrite (split_once_first at_sign _ _ credentials_without_at). cbn [nth].
  rewrite (proj2 (contains_char colon (user ++ colon :: password)))
    by (apply elem_of_app; right; apply list_elem_of_here).
  rewrite (split_once_first colon user password Huser_colon). cbn [nth].
  rewrite (proj2 (contains_char slash (authority ++ slash :: database)))
    by (apply elem_of_app; right; apply list_elem_of_here).
  rewrite (split_once_first slash authority database Hauthority_slash). cbn [nth].
  reflexivity.
Qed.

End WellFormedUrl.

(** X17. [parse_database_url] reads back the parts a URL was written from:
    for a user without "@", ":" or "/", a password without "@" or "/" (it
    may contain colons), a host without ":" or "/" and a database without
    "/", the URL with a port gives exactly these parts and the number
    [int] reads from the port text, and the URL without a port gives the
    number [int] reads from "3306". *)
Theorem parse_database_url_reads_back py_int user password host database :
  at_sign ∉ user → colon ∉ user → slash ∉ user →
  at_sign ∉ password → slash ∉ password →
  colon ∉ host → slash ∉ host →
  slash ∉ database →
  (∀ port_text port,
     slash ∉ port_text →
     py_int port_text = Some port →
     Notify.parse_database_url py_int
       (database_url user password (host ++ colon :: port_text) database)
     = inr {| Notify.cfg_host := host; Notify.cfg_port := port;
              Notify.cfg_user := user; Notify.cfg_password := password;
              Notify.cfg_database := database |})
  ∧ (∀ port,
       py_int (lit "3306") = Some port →
       Notify.parse_database_url py_int (database_url user password host database)
       = inr {| Notify.cfg_host := host; Notify.cfg_port := port;
                Notify.cfg_user := user; Notify.cfg_password := password;
                Notify.cfg_database := database |}).
Proof.
  intros Hua Huc Hus Hpa Hps Hhc Hhs Hds. split.
  - intros port_text port Hports Hport.
    rewrite parse_database_url_authority; try done;
      [| rewrite not_elem_of_app, not_elem_of_cons; repeat split; done].
    rewrite (proj2 (contains_char colon (host ++ colon :: port_text)))
      by (apply elem_of_app; right; apply list_elem_of_here).
    rewrite (split_once_first colon host port_text Hhc). cbn [nth].
    by rewrite Hport.
  - intros port Hport.
    rewrite parse_database_url_authority; try done.
    rewrite (contains_char_false colon host Hhc). by rewrite Hport.
Qed.

Lemma parse_database_url_reads_back_witness :
  Notify.parse_database_url decimal
    (database_url (lit "henk") (lit "s3:cret") (lit "db.local" ++ colon :: lit "3307")
                  (lit "birdhouse"))
  = inr {| Notify.cfg_host := lit "db.local"; Notify.cfg_port := 3307;
           Notify.cfg_user := lit "henk"; Notify.cfg_password := lit "s3:cret";
           Notify.cfg_database := lit "birdhouse" |}.
Proof.
  refine (proj1 (parse_database_url_reads_back decimal (lit "henk") (lit "s3:cret")
                   (lit "db.local") (lit "birdhouse") _ _ _ _ _ _ _ _)
                (lit "3307") 3307 _ eq_refl);
    vm_compute; intros Hin; repeat (apply elem_of_cons in Hin as [[=]|Hin]);
    by apply elem_of_nil in Hin.
Defined.

Lemma contains_of_startswith sub s : startswith sub s = true → contains sub s = true.
Proof. intros Hs. destruct s; cbn [contains]; by rewrite Hs. Qed.

Lemma replace_scheme_unfold new s :
  replace (lit "mysql://") new s = replace_from (lit "mysql://") new 0 s.
Proof. reflexivity. Qed.

Lemma get_db_connection_args_authority
    user password authority database db_user db_password db_name :
  at_sign ∉ user → colon ∉ user → slash ∉ user →
  at_sign ∉ password → slash ∉ password →
  at_sign ∉ authority → slash ∉ authority →
  at_sign ∉ database → slash ∉ database →
  Capture.get_db_connection_args
    (database_url user password authority database) db_user db_password db_name
  = Some {| ca_host := nth 0 (split_on colon authority) [];
            ca_user := user;
            ca_password := nth 0 (split_on colon password) [];
            ca_database := database |}.
Proof.
  intros Hua Huc Hus Hpa Hps Haa Has Hda Hds.
  unfold Capture.get_db_connection_args.
  rewrite bool_decide_eq_false_2 by discriminate.
  assert (Hscheme : contains (lit "mysql://")
                      (database_url user password authority database) = true)
    by apply contains_of_startswith, startswith_app.
  rewrite Hscheme. cbn [negb andb].
  rewrite database_url_body by done.
  rewrite (split_on_first at_sign _ _ (credentials_without_at user password Hua Hpa)).
  rewrite (split_on_none at_sign (authority ++ slash :: database))
    by (rewrite not_elem_of_app, not_elem_of_cons; repeat split; done).
  cbn [nth lookup list_lookup].
  rewrite (split_on_first colon user password Huc).
  rewrite (split_on_first slash authority database Has).
  rewrite (split_on_none slash database Hds).
  pose proof (split_on_nonempty colon password) as Hparts.
  destruct (split_on colon password) as [|p ps]; [done|]. reflexivity.
Qed.

(** X18. From a URL whose user, password and host contain none of "@",
    ":" and "/" and whose database contains neither "@" nor "/", the
    capture service takes exactly that host, user, password and database,
    and it takes the same four whether or not the URL names a port: the
    port of the URL is never used.  The notification handler, whenever it
    accepts the same URL, agrees on all four. *)
Theorem get_db_connection_reads_url_without_port
    user password host port_text database db_user db_password db_name :
  at_sign ∉ user → colon ∉ user → slash ∉ user →
  at_sign ∉ password → colon ∉ password → slash ∉ password →
  at_sign ∉ host → colon ∉ host → slash ∉ host →
  at_sign ∉ port_text → slash ∉ port_text →
  at_sign ∉ database → slash ∉ database →
  let with_port := database_url user password (host ++ colon :: port_text) database in
  let without_port := database_url user password host database in
  let args := {| ca_host := host; ca_user := user;
                 ca_password := password; ca_database := database |} in
  Capture.get_db_connection_args with_port db_user db_password db_name = Some args
  ∧ Capture.get_db_connection_args without_port db_user db_password db_name = Some args
  ∧ ∀ py_int cfg,
      Notify.parse_database_url py_int with_port = inr cfg →
      Notify.cfg_host cfg = ca_host args
      ∧ Notify.cfg_user cfg = ca_user args
      ∧ Notify.cfg_password cfg = ca_password args
      ∧ Notify.cfg_database cfg = ca_database args.
Proof.
  intros Hua Huc Hus Hpa Hpc Hps Hha Hhc Hhs Hta Hts Hda Hds with_port without_port args.
  subst with_port without_port args.
  assert (Hauth_at : at_sign ∉ host ++ colon :: port_text)
    by (rewrite not_elem_of_app, not_elem_of_cons; repeat split; done).
  assert (Hauth_slash : slash ∉ host ++ colon :: port_text)
    by (rewrite not_elem_of_app, not_elem_of_cons; repeat split; done).
  split; [|split].
  - rewrite get_db_connection_args_authority by done.
    by rewrite (split_on_first colon host port_text Hhc), (split_on_none colon password Hpc).
  - rewrite get_db_connection_args_authority by done.
    by rewrite (split_on_none colon host Hhc), (split_on_none colon password Hpc).
  - intros py_int cfg. rewrite parse_database_url_authority by done.
    rewrite (proj2 (contains_char colon (host ++ colon :: port_text)))
      by (apply elem_of_app; right; apply list_elem_of_here).
    rewrite (split_once_first colon host port_text Hhc). cbn [nth].
    destruct (py_int port_text); [|discriminate]. by intros [= <-].
Qed.

Lemma get_db_connection_reads_url_without_port_witness :
  Capture.get_db_connection_args
    (database_url (lit "henk") (lit "secret") (lit "db.local" ++ colon :: lit "3307")
                  (lit "birdhouse"))
    (lit "henk") [] (lit "birdhouse")
  = Some {| ca_host := lit "db.local"; ca_user := lit "henk";
            ca_password := lit "secret"; ca_database := lit "birdhouse" |}.
Proof.
  refine (proj1 (get_db_connection_reads_url_without_port (lit "henk") (lit "secret")
                   (lit "db.local") (lit "3307") (lit "birdhouse")
                   (lit "henk") [] (lit "birdhouse")
                   _ _ _ _ _ _ _ _ _ _ _ _ _));
    vm_compute; intros Hin; repeat (apply elem_of_cons in Hin as [[=]|Hin]);
    by apply elem_of_nil in Hin.
Defined.

(** ** URLs the parsers do not accept *)

(** X19. A URL without "@" gives no connection: the capture service, which
    looks for "mysql://" anywhere in the URL, runs into the missing second
    part and returns None; the notification handler raises "must include
    credentials" when the URL starts with "mysql://" and "invalid format"
    when it does not. *)
Theorem url_without_credentials_is_refused url py_int db_user db_password db_name :
  at_sign ∉ url →
  (contains (lit "mysql://") url = true →
   Capture.get_db_connection_args url db_user db_password db_name = None)
  ∧ (startswith (lit "mysql://") url = true →
     Notify.parse_database_url py_int url = inl Notify.MissingCredentials)
  ∧ (startswith (lit "mysql://") url = false →
     Notify.parse_database_url py_int url = inl Notify.InvalidFormat).
Proof.
  intros Hat.
  assert (Hbody : at_sign ∉ replace (lit "mysql://") [] url).
  { rewrite replace_scheme_unfold. intros Hin. by apply replace_from_subset in Hin. }
  split; [|split].
  - intros Hscheme. unfold Capture.get_db_connection_args. rewrite Hscheme.
    destruct url as [|c url]; [discriminate Hscheme|].
    rewrite bool_decide_eq_false_2 by discriminate. cbn [negb andb].
    by rewrite (split_on_none at_sign _ Hbody).
  - intros Hscheme. unfold Notify.parse_database_url. rewrite Hscheme. cbn [negb].
    by rewrite (contains_char_false at_sign _ Hbody).
  - intros Hscheme. unfold Notify.parse_database_url. by rewrite Hscheme.
Qed.

Lemma url_without_credentials_is_refused_witness :
  Capture.get_db_connection_args (lit "mysql://db.local/birdhouse")
    (lit "henk") [] (lit "birdhouse") = None
  ∧ Notify.parse_database_url decimal (lit "mysql://db.local/birdhouse")
    = inl Notify.MissingCredentials.
Proof.
  assert (Hat : at_sign ∉ lit "mysql://db.local/birdhouse").
  { vm_compute. intros Hin. repeat (apply elem_of_cons in Hin as [[=]|Hin]).
    by apply elem_of_nil in Hin. }
  destruct (url_without_credentials_is_refused (lit "mysql://db.local/birdhouse")
              decimal (lit "henk") [] (lit "birdhouse") Hat) as (Hcapture & Hnotify & _).
  split; [exact (Hcapture eq_refl) | exact (Hnotify eq_refl)].
Defined.

(** X20. The two services read a password that contains a colon
    differently: the notification handler keeps the whole password, the
    capture service keeps only what precedes the first colon. *)
Theorem password_with_colon_is_cut_by_capture
    user first rest host database db_user db_password db_name :
  at_sign ∉ user → colon ∉ user → slash ∉ user →
  at_sign ∉ first → colon ∉ first → slash ∉ first →
  at_sign ∉ rest → slash ∉ rest →
  at_sign ∉ host → colon ∉ host → slash ∉ host →
  at_sign ∉ database → slash ∉ database →
  let url := database_url user (first ++ colon :: rest) host database in
  Capture.get_db_connection_args url db_user db_password db_name
  = Some {| ca_host := host; ca_user := user;
            ca_password := first; ca_database := database |}
  ∧ ∀ py_int port,
      py_int (lit "3306") = Some port →
      Notify.parse_database_url py_int url
      = inr {| Notify.cfg_host := host; Notify.cfg_port := port;
               Notify.cfg_user := user;
               Notify.cfg_password := first ++ colon :: rest;
               Notify.cfg_database := database |}.
Proof.
  intros Hua Huc Hus Hfa Hfc Hfs Hra Hrs Hha Hhc Hhs Hda Hds url. subst url.
  assert (Hpw_at : at_sign ∉ first ++ colon :: rest)
    by (rewrite not_elem_of_app, not_elem_of_cons; repeat split; done).
  assert (Hpw_slash : slash ∉ first ++ colon :: rest)
    by (rewrite not_elem_of_app, not_elem_of_cons; repeat split; done).
  split.
  - rewrite get_db_connection_args_authority by done.
    by rewrite (split_on_first colon first rest Hfc), (split_on_none colon host Hhc).
  - intros py_int port Hport. rewrite parse_database_url_authority by done.
    rewrite (contains_char_false colon host Hhc). by rewrite Hport.
Qed.

Lemma password_with_colon_is_cut_by_capture_witness :
  Capture.get_db_connection_args
    (database_url (lit "henk") (lit "s3" ++ colon :: lit "cret") (lit "db.local")
                  (lit "birdhouse"))
    (lit "henk") [] (lit "birdhouse")
  = Some {| ca_host := lit "db.local"; ca_user := lit "henk";
            ca_password := lit "s3"; ca_database := lit "birdhouse" |}.
Proof.
  refine (proj1 (password_with_colon_is_cut_by_capture (lit "henk") (lit "s3") (lit "cret")
                   (lit "db.local") (lit "birdhouse") (lit "henk") [] (lit "birdhouse")
                   _ _ _ _ _ _ _ _ _ _ _ _ _));
    vm_compute; intros Hin; repeat (apply elem_of_cons in Hin as [[=]|Hin]);
    by apply elem_of_nil in Hin.
Defined.

(** * Sessions that run late, and repeated retention runs *)

(** X21. A session whose stream is too slow is finalized with what it has:
    after any number of valid frames handled in time and below the target,
    the first valid frame handled 6 seconds or more after the start causes
    exactly one finalize call, with every frame buffered so far, that frame
    included, in arrival order, and the session is closed. *)
Theorem overdue_session_is_finalized_with_what_it_has
    device_id pending msg e image w s :
  active_captures w !! device_id = Some s →
  Forall (valid_frame device_id) pending →
  Forall (in_time s) pending →
  (length (frames s) + length pending < 50)%nat →
  addressed (topic msg) device_id (lit "stream") →
  env_image e = Some image →
  (inject_Z 6 <= env_now e - start_time s)%Q →
  let w' := run (pending ++ [(msg, e)]) w in
  finalize_calls w'
  = CallFinalize device_id (frames s ++ images pending ++ [image]) :: finalize_calls w
  ∧ active_captures w' !! device_id = None.
Proof.
  intros Hopen Hvalid Htime Hlen Hmsg Himg Hlate w'. subst w'.
  rewrite run_snoc. cbn [fst snd].
  rewrite (run_pending device_id pending w s Hopen Hvalid Htime Hlen).
  set (w1 := with_captures _ w).
  assert (Hopen1 : active_captures w1 !! device_id = Some (buffer s (images pending)))
    by apply lookup_insert_eq.
  assert (Hfire : completes (frames (buffer s (images pending)) ++ [image])
                            (buffer s (images pending)) e) by (by right).
  rewrite (proj1 (ingest device_id msg e w1 _ image Hmsg Hopen1 Himg) Hfire).
  set (w2 := with_captures _ w1).
  assert (Hopen2 : active_captures w2 !! device_id
                   = Some (buffer (buffer s (images pending)) [image]))
    by apply lookup_insert_eq.
  split.
  - rewrite (finalize_video_calls device_id e w2 _ Hopen2). cbn.
    by rewrite <- app_assoc.
  - apply (finalize_video_closes device_id e w2 _ Hopen2).
Qed.

Lemma overdue_session_is_finalized_with_what_it_has_witness :
  finalize_calls (run (replicate 3 (stream_msg, at_time 2 noon)
                       ++ [(stream_msg, at_time 6 noon)]) busy)
  = [CallFinalize cam1 (replicate 5 jpeg)].
Proof.
  assert (Hopen : active_captures busy !! cam1
                  = Some (buffer (fresh_session garden (at_time 0 noon) idle) [jpeg]))
    by (vm_compute; reflexivity).
  assert (Hmsg : addressed (topic stream_msg) cam1 (lit "stream"))
    by (exists (lit "device"), []; reflexivity).
  assert (Hvalid : Forall (valid_frame cam1) (replicate 3 (stream_msg, at_time 2 noon)))
    by (apply Forall_replicate; split; [exact Hmsg | by eexists]).
  assert (Htime : Forall (in_time (buffer (fresh_session garden (at_time 0 noon) idle) [jpeg]))
                         (replicate 3 (stream_msg, at_time 2 noon)))
    by (apply Forall_replicate; vm_compute; reflexivity).
  assert (Hlen : (length (frames (buffer (fresh_session garden (at_time 0 noon) idle) [jpeg]))
                  + length (replicate 3 (stream_msg, at_time 2 noon)) < 50)%nat)
    by (vm_compute; lia).
  assert (Hlate : (inject_Z 6 <= env_now (at_time 6 noon)
                   - start_time (buffer (fresh_session garden (at_time 0 noon) idle) [jpeg]))%Q)
    by (vm_compute; discriminate).
  exact (proj1 (overdue_session_is_finalized_with_what_it_has cam1 _ stream_msg
                  (at_time 6 noon) jpeg busy _ Hopen Hvalid Htime Hlen Hmsg eq_refl Hlate)).
Defined.

Lemma cleanup_old_videos_below_maximum k e w :
  (count_videos k w < MAX_VIDEOS)%nat →
  db (cleanup_old_videos k e w) = db w ∧ fs (cleanup_old_videos k e w) = fs w.
Proof.
  intros Hroom. unfold cleanup_old_videos. cbn [db record_call].
  apply Nat.leb_gt in Hroom. unfold count_videos in Hroom.
  destruct (env_db_cleanup e); by rewrite Hroom.
Qed.

(** X22. Retention runs do not add up: with unique primary keys, a run that
    directly follows a run that reached the database deletes nothing more,
    neither rows nor files. *)
Theorem second_retention_run_deletes_nothing k e e' w :
  env_db_cleanup e = true →
  NoDup (mv_id <$> motionVideos (db w)) →
  db (cleanup_old_videos k e' (cleanup_old_videos k e w)) = db (cleanup_old_videos k e w)
  ∧ fs (cleanup_old_videos k e' (cleanup_old_videos k e w)) = fs (cleanup_old_videos k e w).
Proof.
  intros Hdb Hnd. apply cleanup_old_videos_below_maximum.
  by apply cleanup_old_videos_bound.
Qed.

Lemma second_retention_run_deletes_nothing_witness :
  db (cleanup_old_videos 7 (at_time 9999 noon)
        (cleanup_old_videos 7 (at_time 9999 noon) crowded))
  = db (cleanup_old_videos 7 (at_time 9999 noon) crowded).
Proof.
  assert (Hnd : NoDup (mv_id <$> motionVideos (db crowded))).
  { apply (bool_decide_unpack _). vm_compute. exact I. }
  exact (proj1 (second_retention_run_deletes_nothing 7 (at_time 9999 noon)
                  (at_time 9999 noon) crowded eq_refl Hnd)).
Defined.
